(** * The training / evaluation control loop of [mnmt.trainer.Trainer]

    A shallow embedding of [src/mnmt/trainer/trainer.py]: the evaluation
    memory bank, the early-stopping and checkpoint policy ([update],
    [update_aux]), exact-match accuracy ([matching]), the evaluation pass
    ([evaluate]), the training pass ([train]) and the epoch driver ([run]).

    Python floats are IEEE-754 binary64 values and are modelled by Rocq's
    primitive floats, so that comparisons with [nan] and [inf] behave as in
    the source.  Python integers are [Z].  The torch model, optimizer and
    scheduler are opaque: their state is an abstract type and their
    answers are taken from oracle functions.  Exceptions are values of the
    monad; state written before an exception is kept, as in Python. *)

From Stdlib Require Import ZArith List String Bool Lia QArith Qminmax Qabs Lqa.
From Stdlib Require Import Floats.
Import ListNotations.

Local Open Scope Z_scope.

(* Decimal literals such as 0.2 denote the nearest binary64 value, as in
   Python. *)
Set Warnings "-inexact-float".

(** ** Python numbers *)

(** [float(n)] for a Python integer: the binary64 value nearest to [n]
    (ties to even).  Integers beyond the binary64 range, for which Python
    raises, do not occur among the counters converted here. *)
Definition float_of_int (n : Z) : float :=
  SF2Prim (binary_normalize prec emax n 0 false).

(** Python's [max(a, b)] on floats keeps [a] unless [b > a]. *)
Definition py_max (a b : float) : float :=
  if PrimFloat.ltb a b then b else a.

(** [a <= b] and [a >= b] on floats; both are [False] when a [nan] is
    involved. *)
Definition float_le (a b : float) : bool := PrimFloat.leb a b.
Definition float_ge (a b : float) : bool := PrimFloat.leb b a.

(** [range(n)]: the integers [0, 1, ..., n-1], none when [n <= 0]. *)
Fixpoint count_up (start : Z) (len : nat) : list Z :=
  match len with
  | O => []
  | S len' => start :: count_up (start + 1) len'
  end.

Definition py_range (n : Z) : list Z := count_up 0 (Z.to_nat n).

(** ** Configuration and memory banks *)

(** [args_feeder.valid_criterion].  The constructor of [Trainer] only
    completes for the two strings ['ACC'] and ['LOSS'] (any other value
    leaves [decay_mode] unset), and [update] asserts membership again, so
    the criterion is an enumeration. *)
Inductive ValidCriterion := LOSS | ACC.

(** [self.task], fixed by the constructor from [multi_task_ratio]. *)
Inductive Task := Single_Main | Single_Auxiliary | Multi.

Module ArgsFeeder.
Record t := mk {
  valid_criterion : ValidCriterion;
  early_stopping_patience : Z;
  exp_num : Z;
  total_epochs : Z;
  report_interval : Z;
  batch_size : Z;
  multi_task_ratio : float
}.
End ArgsFeeder.

Module EvalMemoryBank.
Record t := mk {
  best_valid_loss : float;
  acc_valid_loss : float;
  best_valid_acc : float;
  best_valid_epoch : Z;
  best_train_step : Z;
  early_stopping_patience : Z;
  best_valid_loss_aux : float;
  best_valid_acc_aux : float
}.

(** The defaults of [EvalMemoryBank.__init__].  The epoch and the step of
    the best accuracy start as [float(-1)] and hold integers afterwards;
    they are only printed. *)
Definition init (patience : Z) : t :=
  mk infinity infinity (-1)%float (-1) (-1) patience infinity (-1)%float.

Definition set_best_valid_loss (v : float) (b : t) : t :=
  mk v (acc_valid_loss b) (best_valid_acc b) (best_valid_epoch b)
     (best_train_step b) (early_stopping_patience b)
     (best_valid_loss_aux b) (best_valid_acc_aux b).
Definition set_acc_valid_loss (v : float) (b : t) : t :=
  mk (best_valid_loss b) v (best_valid_acc b) (best_valid_epoch b)
     (best_train_step b) (early_stopping_patience b)
     (best_valid_loss_aux b) (best_valid_acc_aux b).
Definition set_best_valid_acc (v : float) (b : t) : t :=
  mk (best_valid_loss b) (acc_valid_loss b) v (best_valid_epoch b)
     (best_train_step b) (early_stopping_patience b)
     (best_valid_loss_aux b) (best_valid_acc_aux b).
Definition set_best_valid_epoch (v : Z) (b : t) : t :=
  mk (best_valid_loss b) (acc_valid_loss b) (best_valid_acc b) v
     (best_train_step b) (early_stopping_patience b)
     (best_valid_loss_aux b) (best_valid_acc_aux b).
Definition set_best_train_step (v : Z) (b : t) : t :=
  mk (best_valid_loss b) (acc_valid_loss b) (best_valid_acc b)
     (best_valid_epoch b) v (early_stopping_patience b)
     (best_valid_loss_aux b) (best_valid_acc_aux b).
Definition set_early_stopping_patience (v : Z) (b : t) : t :=
  mk (best_valid_loss b) (acc_valid_loss b) (best_valid_acc b)
     (best_valid_epoch b) (best_train_step b) v
     (best_valid_loss_aux b) (best_valid_acc_aux b).
End EvalMemoryBank.

Module TrainMemoryBank.
Record t := mk {
  exp_num : Z;
  total_epochs : Z;
  n_epoch : Z;
  n_steps : Z;
  report_interval : Z
}.

(** The defaults of [TrainMemoryBank.__init__]. *)
Definition init (a : ArgsFeeder.t) : t :=
  mk (ArgsFeeder.exp_num a) (ArgsFeeder.total_epochs a) 0 0
     (ArgsFeeder.report_interval a).

Definition set_n_epoch (v : Z) (b : t) : t :=
  mk (exp_num b) (total_epochs b) v (n_steps b) (report_interval b).
Definition set_n_steps (v : Z) (b : t) : t :=
  mk (exp_num b) (total_epochs b) (n_epoch b) v (report_interval b).
End TrainMemoryBank.

(** ** Exceptions and observable effects *)

Inductive Exn :=
| ZeroDivisionError
| OverflowError
| IndexError.

(** The two checkpoint files, [experiments/exp<N>/loss-model-seq2seq.pt]
    and [experiments/exp<N>/acc-model-seq2seq.pt]. *)
Inductive Checkpoint := loss_model | acc_model.

(** The lines written to standard output, one constructor per [print] of
    the source, carrying the values it formats. *)
Inductive Line :=
| L_renew_records
| L_early_stopping
| L_epoch (epoch1 : Z)
| L_train_loss (train_loss : float)
| L_val_summary (valid_loss valid_acc : float)
| L_rule
| L_validating (n_epoch : Z)
| L_better_loss
| L_better_acc
| L_patience (cur full : Z)
| L_val_stats (valid_loss valid_acc : float)
| L_best (best_loss best_acc acc_loss : float) (best_epoch best_step : Z)
| L_better_aux
| L_best_aux (best_acc_aux : float)
| L_train_tfr (ratio : float)
| L_progress (n_epoch seen n_examples n_steps : Z)
| L_running (running_loss : float)
| L_val_banner
| L_tst_banner
| L_eval_start (ratio : float)
| L_correct (correct : Z)
| L_correct_aux (correct_aux : Z)
| L_eval_end (ratio : float).

(** What a run does to the outside world, in order: output lines,
    [torch.save] of the model state, forward calls of the model (with the
    mode and the teacher-forcing ratio the model holds at that moment), and
    [scheduler.step]. *)
Inductive Event :=
| Stdout (l : Line)
| TorchSave (c : Checkpoint) (exp_num : Z)
| ModelCall (training : bool) (ratio : float)
| SchedulerStep (metric : float).

Inductive Outcome (A : Type) :=
| Return (a : A)
| Raise (e : Exn).
Arguments Return {A} a.
Arguments Raise {A} e.

(** ** Exact-match decoding, [Trainer.matching]

    [matching] is a static method; it has no state and can only raise
    [IndexError] (a token index outside the vocabulary, or a row of [pred]
    with no counterpart in [ref]). *)

Definition obind {A B : Type} (o : Outcome A) (f : A -> Outcome B) : Outcome B :=
  match o with
  | Return a => f a
  | Raise e => Raise e
  end.

Definition eos : string := "<eos>"%string.

(** The inner [for t in pred_j] loop: look the index up in [vocab.itos],
    stop at the first ['<eos>'], otherwise append the token.  Indices after
    the end-of-sequence token are never looked up. *)
Fixpoint decode_row (itos : list string) (row : list nat) (toks : list string)
  : Outcome (list string) :=
  match row with
  | [] => Return toks
  | t :: rest =>
      match nth_error itos t with
      | None => Raise IndexError
      | Some tok =>
          if String.eqb tok eos then Return toks
          else decode_row itos rest (toks ++ [tok])
      end
  end.

(** [''.join(toks)]. *)
Definition join (toks : list string) : string := String.concat ""%string toks.

(** The outer [for j in range(pred.shape[0])] loop; [rows] are the rows of
    [pred] from index [j] on. *)
Fixpoint matching_loop (itos : list string) (rows : list (list nat))
    (ref : list (list nat)) (j : nat) (tally : Z) : Outcome Z :=
  match rows with
  | [] => Return tally
  | pred_j :: rows' =>
      obind (decode_row itos pred_j []) (fun pred_j_toks =>
      match nth_error ref j with
      | None => Raise IndexError
      | Some ref_j =>
          obind (decode_row itos ref_j []) (fun ref_j_toks =>
          let tally' :=
            if String.eqb (join pred_j_toks) (join ref_j_toks)
            then tally + 1 else tally in
          matching_loop itos rows' ref (S j) tally')
      end)
  end.

Definition matching (pred ref : list (list nat)) (itos : list string) : Outcome Z :=
  matching_loop itos pred ref 0%nat 0.

(** ** Divisions *)

(** [x / n] for a float [x] and an integer [n]. *)
Definition float_div_int (x : float) (n : Z) : Outcome float :=
  if n =? 0 then Raise ZeroDivisionError
  else Return (x / float_of_int n)%float.

(** [a / b] for two integers (true division).  For the counts divided
    here, far below 2^53, the result is the quotient of the two
    conversions. *)
Definition py_truediv (a b : Z) : Outcome float :=
  if b =? 0 then Raise ZeroDivisionError
  else Return (float_of_int a / float_of_int b)%float.

(** [a % b] on integers; Rocq's [Z.modulo] has Python's sign convention. *)
Definition py_mod (a b : Z) : Outcome Z :=
  if b =? 0 then Raise ZeroDivisionError else Return (a mod b).

(** ** The teacher-forcing schedule of [run] *)

(** [max(1 - (float(10 + epoch * 1.5) / 50), 0.2)] in binary64. *)
Definition decayed_tfr (epoch : Z) : float :=
  py_max (1 - (10 + float_of_int epoch * 1.5) / 50)%float 0.2%float.

(** The same expression in exact rational arithmetic. *)
Definition decayed_tfr_exact (epoch : Z) : Q :=
  Qmax (1 - ((10 + inject_Z epoch * (3 # 2)) / 50))%Q (1 # 5)%Q.

(** ** The trainer *)

Section TrainerModel.

(** The state of the torch objects the trainer holds (model parameters,
    optimizer, scheduler), and the batches the iterators yield. *)
Variable W : Type.
Variable Batch : Type.

(** What [evaluate] reads off one forward pass: the argmax-decoded
    predictions and the references, one row per example, for the main
    and the auxiliary task, and [loss.item()]. *)
Record EvalOut := mkEvalOut {
  pred : list (list nat);
  ref : list (list nat);
  pred_aux : list (list nat);
  ref_aux : list (list nat);
  eval_loss : float
}.

(** One optimisation step of [train] (zero_grad, forward, loss, backward,
    gradient clipping, optimizer.step), given the model's mode and
    teacher-forcing ratio: the new torch state and [loss.item()]. *)
Variable train_step : W -> bool -> float -> Batch -> W * float.
(** One forward pass and loss computation of [evaluate]. *)
Variable eval_step : W -> bool -> float -> Batch -> W * EvalOut.
(** [self.scheduler.step(metric)]. *)
Variable scheduler_step : W -> float -> W.
(** Whether [math.exp(x)] raises [OverflowError] (decided by the
    platform's C library). *)
Variable math_exp_overflows : float -> bool.

(** What the trainer reads from [data_container] and the batch
    iterators: the batches of each split, the number of examples of each
    dataset, and the vocabularies of the target and auxiliary fields. *)
Record Data := mkData {
  train_iter : list Batch;
  valid_iter : list Batch;
  test_iter : list Batch;
  train_examples : Z;
  valid_examples : Z;
  test_examples : Z;
  trg_itos : list string;
  auxiliary_itos : list string
}.

Record Trainer := mkTrainer {
  args_feeder : ArgsFeeder.t;
  data_container : Data;
  task : Task;
  early_stopping_patience : Z;
  eval_memory_bank : EvalMemoryBank.t;
  train_memory_bank : TrainMemoryBank.t;
  tfr : float;
  model_training : bool;
  model_teacher_forcing_ratio : float;
  torch : W
}.

Definition set_eval_memory_bank (v : EvalMemoryBank.t) (s : Trainer) : Trainer :=
  mkTrainer (args_feeder s) (data_container s) (task s)
    (early_stopping_patience s) v (train_memory_bank s) (tfr s)
    (model_training s) (model_teacher_forcing_ratio s) (torch s).
Definition set_train_memory_bank (v : TrainMemoryBank.t) (s : Trainer) : Trainer :=
  mkTrainer (args_feeder s) (data_container s) (task s)
    (early_stopping_patience s) (eval_memory_bank s) v (tfr s)
    (model_training s) (model_teacher_forcing_ratio s) (torch s).
Definition set_tfr (v : float) (s : Trainer) : Trainer :=
  mkTrainer (args_feeder s) (data_container s) (task s)
    (early_stopping_patience s) (eval_memory_bank s) (train_memory_bank s) v
    (model_training s) (model_teacher_forcing_ratio s) (torch s).
Definition set_model_training (v : bool) (s : Trainer) : Trainer :=
  mkTrainer (args_feeder s) (data_container s) (task s)
    (early_stopping_patience s) (eval_memory_bank s) (train_memory_bank s)
    (tfr s) v (model_teacher_forcing_ratio s) (torch s).
Definition set_model_teacher_forcing_ratio (v : float) (s : Trainer) : Trainer :=
  mkTrainer (args_feeder s) (data_container s) (task s)
    (early_stopping_patience s) (eval_memory_bank s) (train_memory_bank s)
    (tfr s) (model_training s) v (torch s).
Definition set_torch (v : W) (s : Trainer) : Trainer :=
  mkTrainer (args_feeder s) (data_container s) (task s)
    (early_stopping_patience s) (eval_memory_bank s) (train_memory_bank s)
    (tfr s) (model_training s) (model_teacher_forcing_ratio s) v.

(** [Trainer.__init__]: the task follows from the mixing ratio, the
    memory banks take their defaults, [self.tfr] is 0.8.  The model is
    built by the caller; its mode and ratio are whatever it comes with. *)
Definition init (args : ArgsFeeder.t) (data : Data)
    (model_mode : bool) (model_ratio : float) (w : W) : Trainer :=
  let ratio := ArgsFeeder.multi_task_ratio args in
  mkTrainer args data
    (if PrimFloat.eqb ratio 1 then Single_Main
     else if PrimFloat.eqb ratio 0 then Single_Auxiliary
     else Multi)
    (ArgsFeeder.early_stopping_patience args)
    (EvalMemoryBank.init (ArgsFeeder.early_stopping_patience args))
    (TrainMemoryBank.init args)
    0.8%float model_mode model_ratio w.

(** *** The monad: state, exceptions and emitted events *)

Record Res (A : Type) := mkRes {
  outcome : Outcome A;
  final : Trainer;
  trace : list Event
}.
Arguments mkRes {A} _ _ _.
Arguments outcome {A} _.
Arguments final {A} _.
Arguments trace {A} _.

Definition M (A : Type) : Type := Trainer -> Res A.

Definition ret {A} (a : A) : M A := fun s => mkRes (Return a) s [].

Definition bind {A B} (m : M A) (f : A -> M B) : M B :=
  fun s =>
    match m s with
    | mkRes (Return a) s' t =>
        match f a s' with
        | mkRes o s'' t' => mkRes o s'' (t ++ t')
        end
    | mkRes (Raise e) s' t => mkRes (Raise e) s' t
    end.

Definition raise {A} (e : Exn) : M A := fun s => mkRes (Raise e) s [].
Definition get : M Trainer := fun s => mkRes (Return s) s [].
Definition modify (f : Trainer -> Trainer) : M unit :=
  fun s => mkRes (Return tt) (f s) [].
Definition emit (e : Event) : M unit := fun s => mkRes (Return tt) s [e].
Definition lift {A} (o : Outcome A) : M A :=
  fun s => mkRes o s [].

Definition print (l : Line) : M unit := emit (Stdout l).
Definition when (b : bool) (m : M unit) : M unit := if b then m else ret tt.

Notation "x <- c1 ;; c2" := (bind c1 (fun x => c2))
  (at level 61, c1 at next level, right associativity).
Notation "' pat <- c1 ;; c2" := (bind c1 (fun x => match x with pat => c2 end))
  (at level 61, pat pattern, c1 at next level, right associativity).
Notation "c1 ;; c2" := (bind c1 (fun _ => c2))
  (at level 61, right associativity).

(** The source tests the task with [is] on string constants; the constants
    are interned, so the test is equality. *)
Definition is_multi (t : Task) : bool :=
  match t with Multi => true | _ => false end.

(** [math.exp(x)] inside a formatted line: only its failure matters. *)
Definition math_exp (x : float) : M unit :=
  if math_exp_overflows x then raise OverflowError else ret tt.

Definition modify_eval_memory_bank (f : EvalMemoryBank.t -> EvalMemoryBank.t) : M unit :=
  modify (fun s => set_eval_memory_bank (f (eval_memory_bank s)) s).
Definition modify_train_memory_bank (f : TrainMemoryBank.t -> TrainMemoryBank.t) : M unit :=
  modify (fun s => set_train_memory_bank (f (train_memory_bank s)) s).

(** *** [Trainer.update] *)

Definition update (valid_loss valid_acc : float) : M unit :=
  s <- get ;;
  let valid_criterion := ArgsFeeder.valid_criterion (args_feeder s) in
  print L_rule ;;
  print (L_validating (TrainMemoryBank.n_epoch (train_memory_bank s))) ;;
  (* For Validation Loss *)
  (if float_le valid_loss (EvalMemoryBank.best_valid_loss (eval_memory_bank s))
   then
     print L_better_loss ;;
     modify_eval_memory_bank (EvalMemoryBank.set_best_valid_loss valid_loss) ;;
     (match valid_criterion with
      | LOSS => emit (TorchSave loss_model
                        (TrainMemoryBank.exp_num (train_memory_bank s)))
      | ACC => ret tt
      end) ;;
     (* restore full patience if obtain new minimum of the loss *)
     modify_eval_memory_bank
       (EvalMemoryBank.set_early_stopping_patience (early_stopping_patience s))
   else
     modify_eval_memory_bank (fun b =>
       EvalMemoryBank.set_early_stopping_patience
         (Z.max (EvalMemoryBank.early_stopping_patience b - 1) 0) b)) ;;
  (* For Validation Accuracy *)
  s <- get ;;
  (if float_ge valid_acc (EvalMemoryBank.best_valid_acc (eval_memory_bank s))
   then
     print L_better_acc ;;
     modify_eval_memory_bank (EvalMemoryBank.set_best_valid_acc valid_acc) ;;
     modify_eval_memory_bank (EvalMemoryBank.set_acc_valid_loss valid_loss) ;;
     modify_eval_memory_bank
       (EvalMemoryBank.set_best_valid_epoch
          (TrainMemoryBank.n_epoch (train_memory_bank s))) ;;
     modify_eval_memory_bank
       (EvalMemoryBank.set_best_train_step
          (TrainMemoryBank.n_steps (train_memory_bank s))) ;;
     (match valid_criterion with
      | ACC => emit (TorchSave acc_model
                       (TrainMemoryBank.exp_num (train_memory_bank s)))
      | LOSS => ret tt
      end)
   else ret tt) ;;
  s <- get ;;
  let b := eval_memory_bank s in
  print (L_patience (EvalMemoryBank.early_stopping_patience b)
                    (early_stopping_patience s)) ;;
  math_exp valid_loss ;;
  print (L_val_stats valid_loss valid_acc) ;;
  print (L_best (EvalMemoryBank.best_valid_loss b)
                (EvalMemoryBank.best_valid_acc b)
                (EvalMemoryBank.acc_valid_loss b)
                (EvalMemoryBank.best_valid_epoch b)
                (EvalMemoryBank.best_train_step b)) ;;
  print L_rule.

(** *** [Trainer.update_aux] *)

Definition update_aux (valid_acc_aux : float) : M unit :=
  s <- get ;;
  let best := EvalMemoryBank.best_valid_acc_aux (eval_memory_bank s) in
  when (float_ge valid_acc_aux best) (print L_better_aux) ;;
  print (L_best_aux best).

(** *** [Trainer.evaluate] *)

(** The body of [for i, batch in enumerate(iterator)]; the accumulators
    are [epoch_loss], [correct] and [correct_aux]. *)
Fixpoint evaluate_loop (batches : list Batch) (acc : float * Z * Z)
  : M (float * Z * Z) :=
  match batches with
  | [] => ret acc
  | batch :: rest =>
      let '(epoch_loss, correct, correct_aux) := acc in
      s <- get ;;
      emit (ModelCall (model_training s) (model_teacher_forcing_ratio s)) ;;
      let '(w, out) := eval_step (torch s) (model_training s)
                         (model_teacher_forcing_ratio s) batch in
      modify (set_torch w) ;;
      (* compute acc *)
      c <- lift (matching (pred out) (ref out) (trg_itos (data_container s))) ;;
      let correct := correct + c in
      (* compute acc Pinyin *)
      correct_aux <-
        (if is_multi (task s) then
           c_aux <- lift (matching (pred_aux out) (ref_aux out)
                            (auxiliary_itos (data_container s))) ;;
           ret (correct_aux + c_aux)
         else ret correct_aux) ;;
      (* compute loss *)
      let epoch_loss := (epoch_loss + eval_loss out)%float in
      evaluate_loop rest (epoch_loss, correct, correct_aux)
  end.

Definition evaluate (is_test : bool) : M (float * float * float) :=
  modify (set_model_training false) ;;
  modify (set_model_teacher_forcing_ratio 0%float) ;;  (* turn off teacher forcing *)
  s0 <- get ;;
  print (L_eval_start (model_teacher_forcing_ratio s0)) ;;
  let data := data_container s0 in
  let iterator := if negb is_test then valid_iter data else test_iter data in
  ' (epoch_loss, correct, correct_aux) <-
      evaluate_loop iterator (0%float, 0, 0) ;;
  epoch_loss <- lift (float_div_int epoch_loss (Z.of_nat (List.length iterator))) ;;
  let n_examples :=
    if negb is_test then valid_examples data else test_examples data in
  print (L_correct correct) ;;
  when (is_multi (task s0)) (print (L_correct_aux correct_aux)) ;;
  acc <- lift (py_truediv correct n_examples) ;;
  acc_aux <- lift (py_truediv correct_aux n_examples) ;;  (* if single-task, then just zero *)
  s1 <- get ;;
  modify (set_model_teacher_forcing_ratio (tfr s1)) ;;  (* restore teacher-forcing ratio *)
  s2 <- get ;;
  print (L_eval_end (model_teacher_forcing_ratio s2)) ;;
  ret (epoch_loss, acc, acc_aux).

(** *** [Trainer.train] *)

(** The evaluation block of [train], run when the step count is a
    multiple of [10 * report_interval]. *)
Definition periodic_evaluation : M unit :=
  print L_val_banner ;;
  ' (valid_loss, valid_acc, valid_acc_aux) <- evaluate false ;;
  print L_tst_banner ;;
  evaluate true ;;
  update valid_loss valid_acc ;;
  s <- get ;;
  when (is_multi (task s)) (update_aux valid_acc_aux) ;;
  s <- get ;;
  emit (SchedulerStep valid_acc) ;;  (* scheduled on validation acc *)
  modify (set_torch (scheduler_step (torch s) valid_acc)) ;;
  modify (set_model_training true).

(** The reporting block of [train], entered when
    [i % report_interval == report_interval - 1]. *)
Definition report (i : Z) (running_loss : float) : M unit :=
  s <- get ;;
  let bank := train_memory_bank s in
  print (L_progress (TrainMemoryBank.n_epoch bank)
                    ((i + 1) * ArgsFeeder.batch_size (args_feeder s))
                    (train_examples (data_container s))
                    (TrainMemoryBank.n_steps bank)) ;;
  math_exp running_loss ;;
  print (L_running running_loss) ;;
  (* eval the validation set for every * steps *)
  if TrainMemoryBank.n_steps bank mod (10 * TrainMemoryBank.report_interval bank) =? 0
  then periodic_evaluation
  else ret tt.

(** The body of [for i, batch in enumerate(self.train_iter)]. *)
Fixpoint train_loop (i : Z) (batches : list Batch) (epoch_loss : float)
  : M float :=
  match batches with
  | [] => ret epoch_loss
  | batch :: rest =>
      s <- get ;;
      emit (ModelCall (model_training s) (model_teacher_forcing_ratio s)) ;;
      let '(w, loss) := train_step (torch s) (model_training s)
                          (model_teacher_forcing_ratio s) batch in
      modify (set_torch w) ;;
      let epoch_loss := (epoch_loss + loss)%float in
      let running_loss := (epoch_loss / float_of_int (i + 1))%float in
      modify_train_memory_bank (fun b =>
        TrainMemoryBank.set_n_steps (TrainMemoryBank.n_steps b + 1) b) ;;
      (* print every ${report_interval} batches *)
      s <- get ;;
      let report_interval :=
        TrainMemoryBank.report_interval (train_memory_bank s) in
      m <- lift (py_mod i report_interval) ;;
      (if m =? report_interval - 1 then report i running_loss else ret tt) ;;
      train_loop (i + 1) rest epoch_loss
  end.

Definition train : M float :=
  modify (set_model_training true) ;;
  s <- get ;;
  modify (set_model_teacher_forcing_ratio (tfr s)) ;;
  print (L_train_tfr (tfr s)) ;;
  epoch_loss <- train_loop 0 (train_iter (data_container s)) 0%float ;;
  lift (float_div_int epoch_loss
          (Z.of_nat (List.length (train_iter (data_container s))))).

(** *** [Trainer.run] *)

(** The head of one iteration of [for epoch in range(total_epochs)]:
    record the epoch, renew the records during the burning phase, and
    decide whether to stop.  Returns [true] for [break]. *)
Definition epoch_head (burning_epoch epoch : Z) : M bool :=
  modify_train_memory_bank (TrainMemoryBank.set_n_epoch epoch) ;;
  (* apply nothing during the burning phase *)
  (if epoch <=? burning_epoch then
     print L_renew_records ;;
     (* abandon the best checkpoint in early stage *)
     modify_eval_memory_bank (EvalMemoryBank.set_best_valid_loss infinity) ;;
     modify_eval_memory_bank (EvalMemoryBank.set_best_valid_acc 0%float) ;;
     s <- get ;;
     modify_eval_memory_bank
       (EvalMemoryBank.set_early_stopping_patience (early_stopping_patience s))
   else ret tt) ;;
  s <- get ;;
  if EvalMemoryBank.early_stopping_patience (eval_memory_bank s) =? 0
  then print L_early_stopping ;; ret true
  else ret false.

(** The rest of the iteration: schedule the teacher-forcing ratio, train,
    evaluate on the validation set, apply the policy, report.  (The
    elapsed time printed with the epoch number is wall-clock time and is
    not part of the line.) *)
Definition epoch_body (epoch : Z) : M unit :=
  modify (set_tfr (decayed_tfr epoch)) ;;
  train_loss <- train ;;
  ' (valid_loss, valid_acc, valid_acc_aux) <- evaluate false ;;
  update valid_loss valid_acc ;;
  s <- get ;;
  when (is_multi (task s)) (update_aux valid_acc_aux) ;;
  print (L_epoch (epoch + 1)) ;;
  math_exp train_loss ;;
  print (L_train_loss train_loss) ;;
  math_exp valid_loss ;;
  print (L_val_summary valid_loss valid_acc).

Fixpoint run_loop (burning_epoch : Z) (epochs : list Z) : M unit :=
  match epochs with
  | [] => ret tt
  | epoch :: rest =>
      stop <- epoch_head burning_epoch epoch ;;
      if stop then ret tt
      else epoch_body epoch ;; run_loop burning_epoch rest
  end.

(** The loop runs inside [try ... except KeyboardInterrupt]; an interrupt
    from outside is not part of the model. *)
Definition run (burning_epoch : Z) : M unit :=
  s <- get ;;
  run_loop burning_epoch
    (py_range (TrainMemoryBank.total_epochs (train_memory_bank s))).

(** *** Specifications of computations

    [wp m post s]: the outcome, final state and trace of [m] started in
    [s] satisfy [post]. *)
Definition wp {A} (m : M A) (post : Outcome A -> Trainer -> list Event -> Prop)
    (s : Trainer) : Prop :=
  post (outcome (m s)) (final (m s)) (trace (m s)).

(** The remaining patience and its configured maximum. *)
Definition patience (s : Trainer) : Z :=
  EvalMemoryBank.early_stopping_patience (eval_memory_bank s).

Definition patience_in_range (s : Trainer) : Prop :=
  0 <= patience s <= early_stopping_patience s.

(** One write of the trainer to its own state, as far as the policy is
    concerned: the configuration and the auxiliary records stay, and the
    patience is kept, restored to the maximum, or decremented with floor
    0.  Every assignment in the source is of this form. *)
Definition policy_write (s s' : Trainer) : Prop :=
  args_feeder s' = args_feeder s /\
  data_container s' = data_container s /\
  task s' = task s /\
  early_stopping_patience s' = early_stopping_patience s /\
  EvalMemoryBank.best_valid_loss_aux (eval_memory_bank s') =
    EvalMemoryBank.best_valid_loss_aux (eval_memory_bank s) /\
  EvalMemoryBank.best_valid_acc_aux (eval_memory_bank s') =
    EvalMemoryBank.best_valid_acc_aux (eval_memory_bank s) /\
  (patience s' = patience s \/
   patience s' = early_stopping_patience s \/
   patience s' = Z.max (patience s - 1) 0).

(** What neither [evaluate] nor [update] touches. *)
Definition same_settings (s s' : Trainer) : Prop :=
  args_feeder s' = args_feeder s /\
  data_container s' = data_container s /\
  task s' = task s /\
  early_stopping_patience s' = early_stopping_patience s /\
  train_memory_bank s' = train_memory_bank s /\
  tfr s' = tfr s.

(** What [evaluate] does not touch: all but the model and torch. *)
Definition same_records (s s' : Trainer) : Prop :=
  same_settings s s' /\ eval_memory_bank s' = eval_memory_bank s.

(** The example count [evaluate] divides by: the number of examples of the
    validation or of the test dataset. *)
Definition n_examples_of (is_test : bool) (s : Trainer) : Z :=
  if negb is_test then valid_examples (data_container s)
  else test_examples (data_container s).

(** What a training pass leaves alone, having taken [k] steps: the
    configuration, the trainer's ratio, and the training memory bank but
    for its step count. *)
Definition after_steps (k : Z) (s s' : Trainer) : Prop :=
  args_feeder s' = args_feeder s /\
  data_container s' = data_container s /\
  task s' = task s /\
  early_stopping_patience s' = early_stopping_patience s /\
  tfr s' = tfr s /\
  train_memory_bank s' =
    TrainMemoryBank.set_n_steps
      (TrainMemoryBank.n_steps (train_memory_bank s) + k) (train_memory_bank s).

(** The state [epoch_head] leaves in the burning phase. *)
Definition renewed (epoch : Z) (s : Trainer) : Trainer :=
  set_eval_memory_bank
    (EvalMemoryBank.set_early_stopping_patience (early_stopping_patience s)
       (EvalMemoryBank.set_best_valid_acc 0%float
          (EvalMemoryBank.set_best_valid_loss infinity (eval_memory_bank s))))
    (set_train_memory_bank
       (TrainMemoryBank.set_n_epoch epoch (train_memory_bank s)) s).

(** Two states with the same evaluation record and the same configured
    patience: what training and evaluation leave of the policy. *)
Definition same_policy (s s' : Trainer) : Prop :=
  eval_memory_bank s' = eval_memory_bank s /\
  early_stopping_patience s' = early_stopping_patience s.

(** An operation with result [r], started in [s], left the patience in
    range and its maximum as configured. *)
Definition keeps_patience {A} (s : Trainer) (r : Res A) : Prop :=
  patience_in_range (final r) /\
  early_stopping_patience (final r) = early_stopping_patience s.

(** An operation with result [r], started in [s], left
    [best_valid_acc_aux] as it was. *)
Definition keeps_best_aux {A} (s : Trainer) (r : Res A) : Prop :=
  EvalMemoryBank.best_valid_acc_aux (eval_memory_bank (final r)) =
  EvalMemoryBank.best_valid_acc_aux (eval_memory_bank s).

(** A state predicate that no such write can break. *)
Definition respects_writes (I : Trainer -> Prop) : Prop :=
  forall s s', policy_write s s' -> I s -> I s'.

End TrainerModel.

Arguments Trainer : clear implicits.
Arguments args_feeder {W Batch} _.
Arguments data_container {W Batch} _.
Arguments task {W Batch} _.
Arguments early_stopping_patience {W Batch} _.
Arguments eval_memory_bank {W Batch} _.
Arguments train_memory_bank {W Batch} _.
Arguments tfr {W Batch} _.
Arguments model_training {W Batch} _.
Arguments model_teacher_forcing_ratio {W Batch} _.
Arguments torch {W Batch} _.
Arguments mkTrainer {W Batch} _ _ _ _ _ _ _ _ _ _.
Arguments mkData {Batch} _ _ _ _ _ _ _ _.
Arguments train_iter {Batch} _.
Arguments valid_iter {Batch} _.
Arguments test_iter {Batch} _.
Arguments train_examples {Batch} _.
Arguments valid_examples {Batch} _.
Arguments test_examples {Batch} _.
Arguments trg_itos {Batch} _.
Arguments auxiliary_itos {Batch} _.
Arguments set_eval_memory_bank {W Batch} _ _.
Arguments set_train_memory_bank {W Batch} _ _.
Arguments set_tfr {W Batch} _ _.
Arguments set_model_training {W Batch} _ _.
Arguments set_model_teacher_forcing_ratio {W Batch} _ _.
Arguments set_torch {W Batch} _ _.
Arguments init {W Batch} _ _ _ _ _.
Arguments mkRes {W Batch A} _ _ _.
Arguments outcome {W Batch A} _.
Arguments final {W Batch A} _.
Arguments trace {W Batch A} _.
Arguments ret {W Batch A} _ _.
Arguments bind {W Batch A B} _ _ _.
Arguments raise {W Batch A} _ _.
Arguments get {W Batch} _.
Arguments modify {W Batch} _ _.
Arguments emit {W Batch} _ _.
Arguments lift {W Batch A} _ _.
Arguments print {W Batch} _ _.
Arguments when {W Batch} _ _ _.
Arguments math_exp {W Batch} _ _ _.
Arguments modify_eval_memory_bank {W Batch} _ _.
Arguments modify_train_memory_bank {W Batch} _ _.
Arguments update {W Batch} _ _ _ _.
Arguments update_aux {W Batch} _ _.
Arguments evaluate_loop {W Batch} _ _ _ _.
Arguments evaluate {W Batch} _ _ _.
Arguments periodic_evaluation {W Batch} _ _ _ _.
Arguments report {W Batch} _ _ _ _ _ _.
Arguments train_loop {W Batch} _ _ _ _ _ _ _ _.
Arguments train {W Batch} _ _ _ _ _.
Arguments epoch_head {W Batch} _ _ _.
Arguments epoch_body {W Batch} _ _ _ _ _ _.
Arguments run_loop {W Batch} _ _ _ _ _ _ _.
Arguments run {W Batch} _ _ _ _ _ _.
Arguments wp {W Batch A} _ _ _.
Arguments patience {W Batch} _.
Arguments patience_in_range {W Batch} _.
Arguments policy_write {W Batch} _ _.
Arguments respects_writes {W Batch} _.
Arguments same_settings {W Batch} _ _.
Arguments same_records {W Batch} _ _.
Arguments keeps_patience {W Batch A} _ _.
Arguments keeps_best_aux {W Batch A} _ _.
Arguments renewed {W Batch} _ _.
Arguments same_policy {W Batch} _ _.
Arguments n_examples_of {W Batch} _ _.
Arguments after_steps {W Batch} _ _ _.

(** ** Reading traces *)

Definition is_torch_save (e : Event) : bool :=
  match e with TorchSave _ _ => true | _ => false end.
Definition is_scheduler_step (e : Event) : bool :=
  match e with SchedulerStep _ => true | _ => false end.
(** [evaluate] prints its start line once per call. *)
Definition is_eval_start (e : Event) : bool :=
  match e with Stdout (L_eval_start _) => true | _ => false end.
(** [update] prints its epoch line once per call. *)
Definition is_update_start (e : Event) : bool :=
  match e with Stdout (L_validating _) => true | _ => false end.
Definition is_model_call (e : Event) : bool :=
  match e with ModelCall _ _ => true | _ => false end.

Definition count (f : Event -> bool) (tr : list Event) : nat :=
  List.length (filter f tr).

Definition is_loss (c : ValidCriterion) : bool :=
  match c with LOSS => true | ACC => false end.
Definition is_acc (c : ValidCriterion) : bool :=
  match c with ACC => true | LOSS => false end.

(** What [evaluate] emits after its start line: forward calls of the model
    in evaluation mode with teacher forcing off, and its own lines. *)
Definition evaluate_event (e : Event) : Prop :=
  match e with
  | ModelCall training ratio => training = false /\ ratio = 0%float
  | Stdout (L_correct _) | Stdout (L_correct_aux _) | Stdout (L_eval_end _) => True
  | _ => False
  end.

(** A forward call in training mode uses the ratio [d]. *)
Definition training_call_uses (d : float) (e : Event) : Prop :=
  match e with
  | ModelCall true ratio => ratio = d
  | _ => True
  end.

(** The events of a training pass that belong to its periodic
    evaluations. *)
Definition is_periodic (e : Event) : bool :=
  is_scheduler_step e || is_eval_start e || is_update_start e.

(** How many evaluations were started, how many updates applied and how
    many scheduler steps taken in a trace. *)
Definition tally (t : list Event) : nat * nat * nat :=
  (count is_eval_start t, count is_update_start t, count is_scheduler_step t).

Definition tally_add (a b : nat * nat * nat) : nat * nat * nat :=
  let '(x, y, z) := a in
  let '(x', y', z') := b in
  (x + x', y + y', z + z')%nat.

(** ** The reading of [matching] given in the specification

    Each row is decoded on its own: indices are mapped to vocabulary
    tokens, the tokens from the first end-of-sequence token on are dropped,
    the rest is joined; a row counts when the two strings are equal. *)

Fixpoint take_until_eos (toks : list string) : list string :=
  match toks with
  | [] => []
  | tok :: rest => if String.eqb tok eos then [] else tok :: take_until_eos rest
  end.

Definition decode_spec (itos : list string) (row : list nat) : string :=
  join (take_until_eos (map (fun t => nth t itos ""%string) row)).

Definition matching_spec (pred ref : list (list nat)) (itos : list string) : Z :=
  Z.of_nat (List.length
    (filter (fun pr => String.eqb (decode_spec itos (fst pr)) (decode_spec itos (snd pr)))
            (combine pred ref))).

Definition in_vocab (itos : list string) (rows : list (list nat)) : Prop :=
  Forall (Forall (fun t => (t < List.length itos)%nat)) rows.

(** ** When a training pass evaluates

    The batch index [i] closes a reporting interval and the step count
    reached with it is a multiple of ten intervals. *)
Definition evaluation_due (report_interval i n_steps : Z) : bool :=
  (i mod report_interval =? report_interval - 1) &&
  (n_steps mod (10 * report_interval) =? 0).

(** The number of batch indices [i, i+1, ..., i+len-1] of a pass at which
    an evaluation is due, the step count being [n_steps] before batch
    [i]. *)
Fixpoint evaluations_due (report_interval i n_steps : Z) (len : nat) : nat :=
  match len with
  | O => O
  | S len' =>
      ((if evaluation_due report_interval i (n_steps + 1) then 1 else 0)
       + evaluations_due report_interval (i + 1) (n_steps + 1) len')%nat
  end.

(** The number of steps among [n_steps + 1, ..., n_steps + len] at which
    the step count is a multiple of ten reporting intervals. *)
Fixpoint multiples_reached (report_interval n_steps : Z) (len : nat) : nat :=
  match len with
  | O => O
  | S len' =>
      ((if ((n_steps + 1) mod (10 * report_interval) =? 0)%Z then 1 else 0)
       + multiples_reached report_interval (n_steps + 1) len')%nat
  end.

(** ** Exact values of binary64 numbers *)

Definition Q_of_float (x : float) : Q :=
  match Prim2SF x with
  | S754_finite sg m e =>
      let v := if 0 <=? e then inject_Z (Zpos m * 2 ^ e)
               else Qmake (Zpos m) (Pos.pow 2 (Z.to_pos (- e))) in
      if sg then Qopp v else v
  | _ => 0%Q
  end.

Definition is_finite (x : float) : bool :=
  match Prim2SF x with
  | S754_finite _ _ _ | S754_zero _ => true
  | _ => false
  end.

(** The number of epochs over which the binary64 schedule is checked by
    evaluation; from there on the value is followed through the
    arithmetic by its magnitude. *)
Definition checked_epochs : Z := 128.

(** The check made on each epoch below [checked_epochs]: the binary64
    value is finite, at least 0.2, within 2^-52 of the exact value, and
    from epoch 20 on it is 0.2 itself. *)
Definition schedule_check (e : Z) : bool :=
  let x := decayed_tfr e in
  is_finite x && float_le 0.2%float x &&
  Qle_bool (Qabs (Q_of_float x - decayed_tfr_exact e)) (1 # 4503599627370496) &&
  (if 20 <=? e then PrimFloat.Leibniz.eqb x 0.2%float else true).

(** The check made on each pair of epochs below 20. *)
Definition schedule_pair_check (e1 e2 : Z) : bool :=
  if e1 <=? e2 then float_le (decayed_tfr e2) (decayed_tfr e1) else true.

(** ** A concrete trainer

    A small instance on which the operations can be run: the torch state
    counts the scheduler steps taken, every training step reports loss 1,
    every evaluation batch holds one example whose prediction and reference
    differ only after the end-of-sequence token, and [math.exp] overflows
    above 709.782712893384, the largest binary64 value whose exponential
    is finite. *)
Module Demo.

Definition W : Type := nat.
Definition Batch : Type := nat.

Definition vocab : list string :=
  ["a"; "b"; "<eos>"; "c"; "d"]%string.

Definition train_step (w : W) (training : bool) (ratio : float) (b : Batch)
  : W * float := (w, 1%float).

Definition eval_step (w : W) (training : bool) (ratio : float) (b : Batch)
  : W * EvalOut :=
  (w, mkEvalOut [[0; 1; 2; 3]%nat] [[0; 1; 2; 4]%nat]
                [[3; 2]%nat] [[4; 2]%nat] 0.5%float).

Definition scheduler_step (w : W) (metric : float) : W := S w.

Definition math_exp_overflows (x : float) : bool :=
  PrimFloat.ltb 709.782712893384%float x && PrimFloat.ltb x infinity.

(** Loss criterion, patience 2, experiment 7, four epochs, a report
    every 2 batches, batches of 32, single main task. *)
Definition args : ArgsFeeder.t :=
  ArgsFeeder.mk LOSS 2 7 4 2 32 1%float.

(** Five training batches, one validation and one test batch. *)
Definition data : Data Batch :=
  mkData [1; 2; 3; 4; 5]%nat [1%nat] [1%nat] 160 1 1 vocab vocab.

Definition trainer : Trainer W Batch :=
  init args data true 1%float 0%nat.

(** The same trainer in multi-task mode with the accuracy criterion. *)
Definition args_multi : ArgsFeeder.t :=
  ArgsFeeder.mk ACC 2 7 4 2 32 0.5%float.

Definition trainer_multi : Trainer W Batch :=
  init args_multi data true 1%float 0%nat.

(** A trainer that reports after every batch and has ten training
    batches, so that its first pass evaluates once, at step 10. *)
Definition args_fast : ArgsFeeder.t :=
  ArgsFeeder.mk LOSS 2 7 4 1 32 1%float.

Definition data_fast : Data Batch :=
  mkData [1; 2; 3; 4; 5; 6; 7; 8; 9; 10]%nat [1%nat] [1%nat] 320 1 1 vocab vocab.

Definition trainer_fast : Trainer W Batch :=
  init args_fast data_fast true 1%float 0%nat.

(** A trainer whose validation set is empty. *)
Definition data_empty : Data Batch :=
  mkData [1; 2; 3; 4; 5]%nat [] [1%nat] 160 0 1 vocab vocab.

Definition trainer_empty : Trainer W Batch :=
  init args_multi data_empty true 1%float 0%nat.

(** The operations of the trainer over these oracles. *)
Abbreviation update := (update math_exp_overflows).
Abbreviation evaluate := (evaluate eval_step).
Abbreviation train :=
  (train train_step eval_step scheduler_step math_exp_overflows).
Abbreviation epoch_body :=
  (epoch_body train_step eval_step scheduler_step math_exp_overflows).
Abbreviation run_loop :=
  (run_loop train_step eval_step scheduler_step math_exp_overflows).
Abbreviation run :=
  (run train_step eval_step scheduler_step math_exp_overflows).

(** The first trainer after an update that records loss 0.5 and accuracy
    0.9. *)
Definition trained : Trainer W Batch := final (update 0.5 0.9 trainer).

(** The first trainer after three epochs in the burning phase: fifteen
    steps taken. *)
Definition after_three_epochs : Trainer W Batch :=
  final (run_loop 10 [0; 1; 2] trainer).

End Demo.

(** ** The order of binary64 values

    A key for the values that are not [nan]: comparing two values is
    comparing their keys, first by class and sign, then by exponent, then
    by mantissa. *)
Definition SFkey (f : spec_float) : Z * Z * Z :=
  match f with
  | S754_zero _ => (0, 0, 0)
  | S754_infinity s => (if s then -2 else 2, 0, 0)
  | S754_nan => (0, 0, 0)
  | S754_finite s m e => if s then (-1, - e, - Zpos m) else (1, e, Zpos m)
  end.

Definition key_le (a b : Z * Z * Z) : Prop :=
  let '(a1, a2, a3) := a in
  let '(b1, b2, b3) := b in
  a1 < b1 \/ (a1 = b1 /\ (a2 < b2 \/ (a2 = b2 /\ a3 <= b3))).

(** ** Calls in sequence *)

Section Sequences.

Context {W Batch : Type}.
Variable math_exp_overflows : float -> bool.

(** [update] called on each pair of validation loss and accuracy in turn,
    as [train] and [run] do from one evaluation to the next; an exception
    ends the sequence. *)
Fixpoint updates (values : list (float * float)) : M W Batch unit :=
  match values with
  | [] => ret tt
  | (valid_loss, valid_acc) :: rest =>
      bind (update math_exp_overflows valid_loss valid_acc)
           (fun _ => updates rest)
  end.

End Sequences.

(** ** More readers of traces *)

(** Forward calls of the model, by the mode the model is in. *)
Definition is_training_call (e : Event) : bool :=
  match e with ModelCall true _ => true | _ => false end.
Definition is_evaluation_call (e : Event) : bool :=
  match e with ModelCall false _ => true | _ => false end.

(** [run] prints one line with the epoch number at the end of each epoch
    it completes, and one line when it stops early. *)
Definition is_epoch_line (e : Event) : bool :=
  match e with Stdout (L_epoch _) => true | _ => false end.
Definition is_early_stopping (e : Event) : bool :=
  match e with Stdout L_early_stopping => true | _ => false end.

(** The events that come from [train], [evaluate], [update] and
    [update_aux]: all but the lines [run] prints itself. *)
Definition inner_event (e : Event) : Prop :=
  match e with
  | Stdout L_renew_records | Stdout L_early_stopping | Stdout (L_epoch _)
  | Stdout (L_train_loss _) | Stdout (L_val_summary _ _) => False
  | _ => True
  end.

(** What one epoch of [run] leaves of the trainer [s] when it completes
    in [s'] with trace [t]: one epoch line, one training-mode forward call
    per training batch, the configuration as it was, and the step count
    advanced by the number of training batches. *)
Definition epoch_done {W Batch : Type} (s s' : Trainer W Batch)
    (t : list Event) : Prop :=
  count is_epoch_line t = 1%nat /\
  count is_training_call t = List.length (train_iter (data_container s)) /\
  args_feeder s' = args_feeder s /\
  data_container s' = data_container s /\
  task s' = task s /\
  early_stopping_patience s' = early_stopping_patience s /\
  train_memory_bank s' =
    TrainMemoryBank.set_n_steps
      (TrainMemoryBank.n_steps (train_memory_bank s) +
       Z.of_nat (List.length (train_iter (data_container s))))
      (train_memory_bank s).

(** ** What an evaluation pass sees *)

Section EvaluationPass.

Context {W Batch : Type}.
Variable eval_step : W -> bool -> float -> Batch -> W * EvalOut.

(** The outputs of the forward passes of one evaluation, in order: the
    model is in evaluation mode with teacher forcing off, and each pass
    starts from the torch state the one before left. *)
Fixpoint eval_outputs (w : W) (batches : list Batch) : list EvalOut :=
  match batches with
  | [] => []
  | batch :: rest =>
      let '(w', out) := eval_step w false 0%float batch in
      out :: eval_outputs w' rest
  end.

End EvaluationPass.

(** The number of exact matches over the outputs, for the main and for
    the auxiliary task, and the sum of the losses, each added to a
    starting value from the left as the loop of [evaluate] adds them. *)
Definition correct_total (itos : list string) (outs : list EvalOut) (start : Z) : Z :=
  fold_left (fun n out => n + matching_spec (pred out) (ref out) itos) outs start.

Definition correct_aux_total (itos : list string) (outs : list EvalOut) (start : Z) : Z :=
  fold_left (fun n out => n + matching_spec (pred_aux out) (ref_aux out) itos)
            outs start.

Definition loss_total (outs : list EvalOut) (start : float) : float :=
  fold_left (fun l out => (l + eval_loss out)%float) outs start.

(** The rows of an output can be decoded and compared: every index is in
    the vocabulary and no predicted row lacks its reference row. *)
Definition comparable (itos : list string) (p r : list (list nat)) : Prop :=
  in_vocab itos p /\ in_vocab itos r /\ (List.length p <= List.length r)%nat.

(** ** The checkpoint of the configured criterion *)

(** The checkpoint file that goes with a validation criterion. *)
Definition checkpoint_of (c : ValidCriterion) : Checkpoint :=
  match c with
  | LOSS => loss_model
  | ACC => acc_model
  end.

(** An event other than a checkpoint write, or the write of the
    checkpoint of the criterion of [s] under the experiment number of
    [s]. *)
Definition configured_save {W Batch : Type} (s : Trainer W Batch) (e : Event) : Prop :=
  match e with
  | TorchSave c n =>
      c = checkpoint_of (ArgsFeeder.valid_criterion (args_feeder s)) /\
      n = TrainMemoryBank.exp_num (train_memory_bank s)
  | _ => True
  end.

(** Two states with the same configuration and the same settings of the
    training memory bank. *)
Definition same_configuration {W Batch : Type} (s s' : Trainer W Batch) : Prop :=
  args_feeder s' = args_feeder s /\
  TrainMemoryBank.exp_num (train_memory_bank s') =
    TrainMemoryBank.exp_num (train_memory_bank s) /\
  TrainMemoryBank.total_epochs (train_memory_bank s') =
    TrainMemoryBank.total_epochs (train_memory_bank s) /\
  TrainMemoryBank.report_interval (train_memory_bank s') =
    TrainMemoryBank.report_interval (train_memory_bank s).

(** ** What the trainer reads of the task and of the auxiliary vocabulary *)

(** The trainer [s] with another vocabulary for the auxiliary field, and
    with another task. *)
Definition with_auxiliary_itos {W Batch : Type} (v : list string)
    (s : Trainer W Batch) : Trainer W Batch :=
  let d := data_container s in
  mkTrainer (args_feeder s)
    (mkData (train_iter d) (valid_iter d) (test_iter d) (train_examples d)
            (valid_examples d) (test_examples d) (trg_itos d) v)
    (task s) (early_stopping_patience s) (eval_memory_bank s)
    (train_memory_bank s) (tfr s) (model_training s)
    (model_teacher_forcing_ratio s) (torch s).

Definition with_task {W Batch : Type} (t : Task)
    (s : Trainer W Batch) : Trainer W Batch :=
  mkTrainer (args_feeder s) (data_container s) t
    (early_stopping_patience s) (eval_memory_bank s)
    (train_memory_bank s) (tfr s) (model_training s)
    (model_teacher_forcing_ratio s) (torch s).

(** A change [phi] of the state that leaves alone what the operations
    read: every field but the task, of which only the multi-task test is
    kept, and the auxiliary vocabulary, which is kept in multi-task
    mode. *)
Definition reads_alike {W Batch : Type}
    (phi : Trainer W Batch -> Trainer W Batch) : Prop :=
  forall s,
    args_feeder (phi s) = args_feeder s /\
    early_stopping_patience (phi s) = early_stopping_patience s /\
    eval_memory_bank (phi s) = eval_memory_bank s /\
    train_memory_bank (phi s) = train_memory_bank s /\
    tfr (phi s) = tfr s /\
    model_training (phi s) = model_training s /\
    model_teacher_forcing_ratio (phi s) = model_teacher_forcing_ratio s /\
    torch (phi s) = torch s /\
    is_multi (task (phi s)) = is_multi (task s) /\
    train_iter (data_container (phi s)) = train_iter (data_container s) /\
    valid_iter (data_container (phi s)) = valid_iter (data_container s) /\
    test_iter (data_container (phi s)) = test_iter (data_container s) /\
    train_examples (data_container (phi s)) = train_examples (data_container s) /\
    valid_examples (data_container (phi s)) = valid_examples (data_container s) /\
    test_examples (data_container (phi s)) = test_examples (data_container s) /\
    trg_itos (data_container (phi s)) = trg_itos (data_container s) /\
    (is_multi (task s) = true ->
     auxiliary_itos (data_container (phi s)) = auxiliary_itos (data_container s)).

(** The change [phi] goes through every assignment of the trainer. *)
Definition writes_alike {W Batch : Type}
    (phi : Trainer W Batch -> Trainer W Batch) : Prop :=
  forall s,
    (forall v, phi (set_eval_memory_bank v s) = set_eval_memory_bank v (phi s)) /\
    (forall v, phi (set_train_memory_bank v s) = set_train_memory_bank v (phi s)) /\
    (forall v, phi (set_tfr v s) = set_tfr v (phi s)) /\
    (forall v, phi (set_model_training v s) = set_model_training v (phi s)) /\
    (forall v, phi (set_model_teacher_forcing_ratio v s) =
               set_model_teacher_forcing_ratio v (phi s)) /\
    (forall v, phi (set_torch v s) = set_torch v (phi s)).

(** Started from the changed state, [m1] does what [m2] does from [s]:
    the same outcome, the same events, and the final state of [m2],
    changed. *)
Definition unchanged_under {W Batch A : Type}
    (phi : Trainer W Batch -> Trainer W Batch)
    (m1 m2 : M W Batch A) (s : Trainer W Batch) : Prop :=
  m1 (phi s) = mkRes (outcome (m2 s)) (phi (final (m2 s))) (trace (m2 s)).

(** The two changes considered: another auxiliary vocabulary in
    single-task mode, and another task of the same kind, multi-task or
    not. *)
Definition single_task_with_auxiliary_itos {W Batch : Type} (v : list string)
    (s : Trainer W Batch) : Trainer W Batch :=
  if is_multi (task s) then s else with_auxiliary_itos v s.

Definition same_kind_with_task {W Batch : Type} (t : Task)
    (s : Trainer W Batch) : Trainer W Batch :=
  if Bool.eqb (is_multi t) (is_multi (task s)) then with_task t s else s.

(** ** The fields bound by the constructor

    [Trainer.__init__] goes through [data_container.fields], a list of
    pairs of a name and a field, and binds [src_field], [trg_field] and
    [auxiliary_field] by comparing each name with the source language, the
    target language and the auxiliary name, in this order; an attribute
    that is never assigned stays unset. *)

Section Fields.

Variable Field : Type.

Record FieldSlots := mkFieldSlots {
  src_field : option Field;
  trg_field : option Field;
  auxiliary_field : option Field
}.

Definition unset : FieldSlots := mkFieldSlots None None None.

Fixpoint assign_fields (src_lang trg_lang auxiliary_name : string)
    (fields : list (string * Field)) (slots : FieldSlots) : FieldSlots :=
  match fields with
  | [] => slots
  | (name, field) :: rest =>
      assign_fields src_lang trg_lang auxiliary_name rest
        (if String.eqb name src_lang then
           mkFieldSlots (Some field) (trg_field slots) (auxiliary_field slots)
         else if String.eqb name trg_lang then
           mkFieldSlots (src_field slots) (Some field) (auxiliary_field slots)
         else if String.eqb name auxiliary_name then
           mkFieldSlots (src_field slots) (trg_field slots) (Some field)
         else slots)
  end.

(** The field of the last pair of the list that carries the name. *)
Fixpoint last_named (name : string) (fields : list (string * Field))
  : option Field :=
  match fields with
  | [] => None
  | (n, field) :: rest =>
      match last_named name rest with
      | Some later => Some later
      | None => if String.eqb n name then Some field else None
      end
  end.

End Fields.

Arguments mkFieldSlots {Field} _ _ _.
Arguments src_field {Field} _.
Arguments trg_field {Field} _.
Arguments auxiliary_field {Field} _.
Arguments unset {Field}.
Arguments assign_fields {Field} _ _ _ _ _.
Arguments last_named {Field} _ _.

(** ** Elapsed time, [Trainer.epoch_time] *)

Module Conversion.
(** The errors of the conversions between [int] and [float]. *)
Inductive Error := ValueError | OverflowError.
End Conversion.

(** [int(x)] for a float [x]: the integer part, truncated toward zero;
    [ValueError] for [nan], [OverflowError] for an infinity. *)
Definition py_int (x : float) : Conversion.Error + Z :=
  match Prim2SF x with
  | S754_nan => inl Conversion.ValueError
  | S754_infinity _ => inl Conversion.OverflowError
  | S754_zero _ => inr 0
  | S754_finite s m e =>
      let a := if 0 <=? e then Zpos m * 2 ^ e else Zpos m / 2 ^ (- e) in
      inr (if s then - a else a)
  end.

(** The conversion of an [int] operand of a float operation: the nearest
    binary64 value, [OverflowError] beyond the range. *)
Definition py_float (n : Z) : Conversion.Error + float :=
  let x := float_of_int n in
  if PrimFloat.is_infinity x then inl Conversion.OverflowError else inr x.

Definition epoch_time (start_time end_time : float)
  : Conversion.Error + (Z * Z) :=
  let elapsed_time := (end_time - start_time)%float in
  match py_int (elapsed_time / 60) with
  | inl e => inl e
  | inr elapsed_mins =>
      match py_float (elapsed_mins * 60) with
      | inl e => inl e
      | inr minutes_in_seconds =>
          match py_int (elapsed_time - minutes_in_seconds) with
          | inl e => inl e
          | inr elapsed_secs => inr (elapsed_mins, elapsed_secs)
          end
      end
  end.

(** The elapsed times on which [epoch_time] is checked by evaluation:
    the whole numbers of quarter seconds below two hours. *)
Definition checked_quarters : Z := 28800.

(** The check made on [n] quarter seconds, forwards and backwards:
    [epoch_time] gives the whole minutes and the whole seconds left,
    truncated toward zero. *)
Definition epoch_time_check (n : Z) : bool :=
  let elapsed := (float_of_int n / 4)%float in
  match epoch_time 0 elapsed, epoch_time elapsed 0 with
  | inr (m, s), inr (m', s') =>
      (m =? n / 240) && (s =? (n mod 240) / 4) &&
      (m' =? - (n / 240)) && (s' =? - ((n mod 240) / 4))
  | _, _ => false
  end.

(** ** Tensors, [Trainer.fix_output_n_trg]

    A tensor is modelled by its shape and its elements in row-major
    order, as torch lays a contiguous tensor out; the outputs of the model
    and the fields of a batch are such tensors. *)

Module Tensor.

Inductive Error := IndexError | RuntimeError.

Record t (A : Type) := mk {
  shape : list nat;
  storage : list A
}.
Arguments mk {A} _ _.
Arguments shape {A} _.
Arguments storage {A} _.

(** The number of elements of a tensor of the given shape. *)
Definition numel (shape : list nat) : nat := fold_right Nat.mul 1%nat shape.

Definition contiguous {A : Type} (x : t A) : Prop :=
  List.length (storage x) = numel (shape x).

(** The position of the element of index [idx] in the storage. *)
Definition offset (shape idx : list nat) : nat :=
  fold_left (fun acc ni => (acc * fst ni + snd ni)%nat) (combine shape idx) 0%nat.

(** [x[idx]] for a full index. *)
Definition item {A : Type} (x : t A) (idx : list nat) : option A :=
  nth_error (storage x) (offset (shape x) idx).

(** [x.shape[-1]]. *)
Definition last_dim {A : Type} (x : t A) : Error + nat :=
  match rev (shape x) with
  | [] => inl IndexError
  | d :: _ => inr d
  end.

(** [x[1:]]: all but the first slice along the first dimension; a tensor
    without dimensions cannot be sliced. *)
Definition from_1 {A : Type} (x : t A) : Error + t A :=
  match shape x with
  | [] => inl IndexError
  | n :: rest => inr (mk ((n - 1)%nat :: rest) (skipn (numel rest) (storage x)))
  end.

(** [x.view(-1, d)]: the same elements in rows of [d]; the number of rows
    is inferred from the number of elements, which [d] must divide. *)
Definition view_rows {A : Type} (d : nat) (x : t A) : Error + t A :=
  let n := List.length (storage x) in
  if (d =? 0)%nat then inl RuntimeError
  else if (n mod d =? 0)%nat then inr (mk [(n / d)%nat; d] (storage x))
  else inl RuntimeError.

(** [x.view(-1)]. *)
Definition view_flat {A : Type} (x : t A) : t A :=
  mk [List.length (storage x)] (storage x).

End Tensor.

(** [output] has the shape [trg len, batch size, output dim] and [trg] the
    shape [trg len, batch size]. *)
Definition fix_output_n_trg {A B : Type} (output : Tensor.t A) (trg : Tensor.t B)
  : Tensor.Error + (Tensor.t A * Tensor.t B) :=
  match Tensor.last_dim output with
  | inl e => inl e
  | inr output_dim =>
      match Tensor.from_1 output with
      | inl e => inl e
      | inr output1 =>
          match Tensor.view_rows output_dim output1 with
          | inl e => inl e
          | inr output' =>
              match Tensor.from_1 trg with
              | inl e => inl e
              | inr trg1 => inr (output', Tensor.view_flat trg1)
              end
          end
      end
  end.

(** ** More concrete inputs *)

Module Cases.

(** A vocabulary in which one token is the concatenation of two others. *)
Definition vocab_joined : list string :=
  ["a"; "b"; "ab"; "<eos>"]%string.

(** The concrete trainer configured with patience 0. *)
Definition args_impatient : ArgsFeeder.t :=
  ArgsFeeder.mk LOSS 0 7 4 2 32 1%float.
Definition trainer_impatient : Trainer Demo.W Demo.Batch :=
  init args_impatient Demo.data true 1%float 0%nat.

(** The concrete trainer with a report interval of 8, more than its five
    training batches, and with a report interval of 0. *)
Definition args_sparse : ArgsFeeder.t :=
  ArgsFeeder.mk LOSS 2 7 4 8 32 1%float.
Definition trainer_sparse : Trainer Demo.W Demo.Batch :=
  init args_sparse Demo.data true 1%float 0%nat.

Definition args_zero_interval : ArgsFeeder.t :=
  ArgsFeeder.mk LOSS 2 7 4 0 32 1%float.
Definition trainer_zero_interval : Trainer Demo.W Demo.Batch :=
  init args_zero_interval Demo.data true 1%float 0%nat.

(** The concrete trainer without training batches. *)
Definition data_no_training : Data Demo.Batch :=
  mkData [] [1%nat] [1%nat] 0 1 1 Demo.vocab Demo.vocab.
Definition trainer_no_training : Trainer Demo.W Demo.Batch :=
  init Demo.args data_no_training true 1%float 0%nat.

(** Three validation results in a row: the second is the best loss, the
    third the best accuracy. *)
Definition results : list (float * float) :=
  [(0.7, 0.1); (0.4, 0.3); (0.6, 0.5)]%float.

(** Three validation results that do not improve on a loss of 0.5. *)
Definition worse_results : list (float * float) :=
  [(0.7, 0.1); (0.8, 0.3); (0.6, 0.5)]%float.

(** An output of shape [3, 2, 2] and a target of shape [3, 2]. *)
Definition output : Tensor.t nat :=
  Tensor.mk [3; 2; 2]%nat [0; 1; 2; 3; 4; 5; 6; 7; 8; 9; 10; 11]%nat.
Definition trg : Tensor.t nat :=
  Tensor.mk [3; 2]%nat [20; 21; 22; 23; 24; 25]%nat.

(** The fields of a data container whose target language is listed
    twice. *)
Definition fields : list (string * nat) :=
  [("en", 1); ("zh", 2); ("pinyin", 3); ("zh", 4)]%string%nat.

Abbreviation updates := (updates Demo.math_exp_overflows).

End Cases.

(** ** The torch state an evaluation pass leaves *)

Section EvaluationState.

Context {W Batch : Type}.
Variable eval_step : W -> bool -> float -> Batch -> W * EvalOut.

(** The torch state after the forward passes over [batches], each made in
    evaluation mode with teacher-forcing ratio 0 from the state the one
    before left. *)
Fixpoint eval_torch (w : W) (batches : list Batch) : W :=
  match batches with
  | [] => w
  | batch :: rest => eval_torch (fst (eval_step w false 0%float batch)) rest
  end.

End EvaluationState.

(** ** [evaluate] in two parts

    The body of [evaluate] cut between its last two divisions: up to the
    main accuracy [acc = correct / n_examples], and from the auxiliary
    accuracy [acc_aux = correct_aux / n_examples] on.  The first part
    hands on the mean loss, the main accuracy, the auxiliary tally and
    the example count. *)

Section EvaluateInParts.

Context {W Batch : Type}.
Variable eval_step : W -> bool -> float -> Batch -> W * EvalOut.

Notation "x <- c1 ;; c2" := (bind c1 (fun x => c2))
  (at level 61, c1 at next level, right associativity).
Notation "' pat <- c1 ;; c2" := (bind c1 (fun x => match x with pat => c2 end))
  (at level 61, pat pattern, c1 at next level, right associativity).
Notation "c1 ;; c2" := (bind c1 (fun _ => c2))
  (at level 61, right associativity).

Definition evaluate_to_accuracy (is_test : bool)
  : M W Batch (float * float * Z * Z) :=
  modify (set_model_training false) ;;
  modify (set_model_teacher_forcing_ratio 0%float) ;;
  s0 <- get ;;
  print (L_eval_start (model_teacher_forcing_ratio s0)) ;;
  let data := data_container s0 in
  let iterator := if negb is_test then valid_iter data else test_iter data in
  ' (epoch_loss, correct, correct_aux) <-
      evaluate_loop eval_step iterator (0%float, 0, 0) ;;
  epoch_loss <- lift (float_div_int epoch_loss (Z.of_nat (List.length iterator))) ;;
  let n_examples :=
    if negb is_test then valid_examples data else test_examples data in
  print (L_correct correct) ;;
  when (is_multi (task s0)) (print (L_correct_aux correct_aux)) ;;
  acc <- lift (py_truediv correct n_examples) ;;
  ret (epoch_loss, acc, correct_aux, n_examples).

Definition evaluate_from_auxiliary_accuracy (epoch_loss acc : float)
    (correct_aux n_examples : Z) : M W Batch (float * float * float) :=
  acc_aux <- lift (py_truediv correct_aux n_examples) ;;
  s1 <- get ;;
  modify (set_model_teacher_forcing_ratio (tfr s1)) ;;
  s2 <- get ;;
  print (L_eval_end (model_teacher_forcing_ratio s2)) ;;
  ret (epoch_loss, acc, acc_aux).

End EvaluateInParts.

(** The concrete multi-task trainer with a validation batch but a
    validation set counted as empty. *)
Module Uncounted.

Definition data : Data Demo.Batch :=
  mkData [1; 2; 3; 4; 5]%nat [1%nat] [1%nat] 160 0 1 Demo.vocab Demo.vocab.

Definition trainer : Trainer Demo.W Demo.Batch :=
  init Demo.args_multi data true 1%float 0%nat.

End Uncounted.

(** ** A training pass, batch by batch *)

Section TrainingPass.

Context {W Batch : Type}.
Variable eval_step : W -> bool -> float -> Batch -> W * EvalOut.
Variable scheduler_step : W -> float -> W.
Variable math_exp_overflows : float -> bool.

(** The two lines [report] prints before it tests the step count. *)
Definition is_report_line (e : Event) : Prop :=
  match e with
  | Stdout (L_progress _ _ _ _) | Stdout (L_running _) => True
  | _ => False
  end.

(** [segments] holds the events of the batches of a training pass from
    batch index [i] on, one segment per batch, the step count being
    [n_steps] before batch [i] and the ratio in use [d].  The segment of a
    batch opens with its forward call in training mode, the only one of
    the segment.  When an evaluation is due at the batch, the rest of the
    segment is the lines of the report followed by one periodic
    evaluation, which is run at step count [n_steps + 1] and completes;
    otherwise the segment holds no evaluation, no update and no scheduler
    step. *)
Fixpoint batch_segments (report_interval i n_steps : Z) (d : float)
    (segments : list (list Event)) : Prop :=
  match segments with
  | [] => True
  | segment :: rest =>
      (exists body,
          segment = ModelCall true d :: body /\
          count is_training_call body = 0%nat /\
          if evaluation_due report_interval i (n_steps + 1)
          then exists (lines : list Event) (s1 : Trainer W Batch),
                 body = lines ++
                        trace (periodic_evaluation eval_step scheduler_step
                                 math_exp_overflows s1) /\
                 Forall is_report_line lines /\
                 outcome (periodic_evaluation eval_step scheduler_step
                            math_exp_overflows s1) = Return tt /\
                 TrainMemoryBank.n_steps (train_memory_bank s1) = n_steps + 1 /\
                 tally body = (2, 1, 1)%nat
          else tally body = (0, 0, 0)%nat) /\
      batch_segments report_interval (i + 1) (n_steps + 1) d rest
  end.

End TrainingPass.

(** ** Magnitudes of binary64 values *)

(** The exponent of the canonical representation of a binary64 number
    whose leading bit has weight [2^(z-1)]. *)
Definition fexp64 (z : Z) : Z := Z.max (z - 53) (-1074).

(** A value of sign [sg] and of magnitude at least [2^(k-1)]: the infinity
    of that sign, or a finite number of that sign whose mantissa [m] and
    exponent [e] have [k <= digits m + e]. *)
Definition magnitude_at_least (sg : bool) (k : Z) (f : spec_float) : Prop :=
  match f with
  | S754_infinity s => s = sg
  | S754_finite s m e => s = sg /\ k <= Zpos (digits2_pos m) + e
  | _ => False
  end.

(** ** The schedule a run follows *)

(** The events that tell the ratio in use: the line a training pass
    prints first, and the forward calls in training mode. *)
Definition is_schedule_event (e : Event) : bool :=
  match e with
  | Stdout (L_train_tfr _) => true
  | ModelCall true _ => true
  | _ => false
  end.

(** The schedule events of epoch [epoch] over [n] training batches: the
    ratio of the epoch is announced, then used in every forward call. *)
Definition epoch_schedule (n : nat) (epoch : Z) : list Event :=
  Stdout (L_train_tfr (decayed_tfr epoch)) ::
  repeat (ModelCall true (decayed_tfr epoch)) n.

(** * Proofs *)

(** ** Rules for [wp] *)

Section Rules.

Context {W Batch : Type}.

Local Abbreviation State := (Trainer W Batch).

Lemma wp_ret {A} (a : A) post (s : State) :
  post (Return a) s [] -> wp (ret a) post s.
Proof. exact (fun H => H). Qed.

Lemma wp_bind {A B} (m : M W Batch A) (f : A -> M W Batch B) post (s : State) :
  wp m (fun o s' t =>
          match o with
          | Return a => wp (f a) (fun o' s'' t' => post o' s'' (t ++ t')) s'
          | Raise e => post (Raise e) s' t
          end) s ->
  wp (bind m f) post s.
Proof.
  unfold wp, bind. destruct (m s) as [[a | e] s' t]; simpl.
  - destruct (f a s') as [o s'' t']; simpl. exact (fun H => H).
  - exact (fun H => H).
Qed.

Lemma wp_get post (s : State) : post (Return s) s [] -> wp get post s.
Proof. exact (fun H => H). Qed.

Lemma wp_modify (f : State -> State) post (s : State) :
  post (Return tt) (f s) [] -> wp (modify f) post s.
Proof. exact (fun H => H). Qed.

Lemma wp_emit (e : Event) post (s : State) :
  post (Return tt) s [e] -> wp (emit e) post s.
Proof. exact (fun H => H). Qed.

Lemma wp_raise {A} (e : Exn) (post : Outcome A -> State -> list Event -> Prop)
    (s : State) :
  post (Raise e) s [] -> wp (raise e) post s.
Proof. exact (fun H => H). Qed.

Lemma wp_lift {A} (o : Outcome A) post (s : State) :
  post o s [] -> wp (lift o) post s.
Proof. exact (fun H => H). Qed.

(** Consequence. *)
Lemma wp_weaken {A} (m : M W Batch A)
    (post post' : Outcome A -> State -> list Event -> Prop) (s : State) :
  wp m post s ->
  (forall o s' t, post o s' t -> post' o s' t) ->
  wp m post' s.
Proof. unfold wp. auto. Qed.

End Rules.

(** One step of symbolic execution of a monadic program. *)
Ltac wp_step :=
  cbv beta iota;
  lazymatch goal with
  | |- wp (bind _ _) _ _ => apply wp_bind
  | |- wp (ret _) _ _ => apply wp_ret
  | |- wp get _ _ => apply wp_get
  | |- wp (modify _) _ _ => apply wp_modify
  | |- wp (modify_eval_memory_bank _) _ _ =>
      unfold modify_eval_memory_bank; apply wp_modify
  | |- wp (modify_train_memory_bank _) _ _ =>
      unfold modify_train_memory_bank; apply wp_modify
  | |- wp (emit _) _ _ => apply wp_emit
  | |- wp (print _) _ _ => unfold print; apply wp_emit
  | |- wp (raise _) _ _ => apply wp_raise
  | |- wp (lift ?o) _ _ => apply wp_lift; destruct o eqn:?
  | |- wp (math_exp ?f ?x) _ _ => unfold math_exp; destruct (f x) eqn:?
  | |- wp (when ?b _) _ _ => unfold when; destruct b eqn:?
  | |- wp (if ?b then _ else _) _ _ => destruct b eqn:?
  | |- wp (match ?x with _ => _ end) _ _ => destruct x eqn:?
  end.

Ltac wp_run := repeat wp_step; cbv beta iota.

(** ** Structure of [bind] *)

Section BindFacts.

Context {W Batch : Type}.

Lemma bind_return {A B} (m : M W Batch A) (f : A -> M W Batch B)
    (s : Trainer W Batch) (a : A) :
  outcome (m s) = Return a ->
  bind m f s = mkRes (outcome (f a (final (m s)))) (final (f a (final (m s))))
                     (trace (m s) ++ trace (f a (final (m s)))).
Proof.
  unfold bind. destruct (m s) as [o s' t]; simpl. intros ->.
  destruct (f a s'); reflexivity.
Qed.

End BindFacts.

(** ** Counting events *)

Lemma count_app (f : Event -> bool) (t1 t2 : list Event) :
  count f (t1 ++ t2) = (count f t1 + count f t2)%nat.
Proof. unfold count. rewrite filter_app, length_app. reflexivity. Qed.


(** ** Exact-match accuracy *)

Lemma decode_row_spec (itos : list string) (row : list nat) :
  Forall (fun t => (t < List.length itos)%nat) row ->
  forall toks,
    decode_row itos row toks =
    Return (toks ++ take_until_eos (map (fun t => nth t itos ""%string) row)).
Proof.
  induction 1 as [| t rest Ht _ IH]; intros toks; simpl.
  - rewrite app_nil_r. reflexivity.
  - rewrite (nth_error_nth' itos ""%string Ht).
    destruct (String.eqb (nth t itos ""%string) eos).
    + rewrite app_nil_r. reflexivity.
    + rewrite IH, <- app_assoc. reflexivity.
Qed.

(** Whatever follows the end-of-sequence token is not read. *)
Lemma decode_row_stops (itos : list string) (e : nat) (pre suf : list nat) :
  nth_error itos e = Some eos ->
  forall toks,
    decode_row itos (pre ++ e :: suf) toks = decode_row itos (pre ++ [e]) toks.
Proof.
  intros He. induction pre as [| t pre IH]; intros toks; simpl.
  - rewrite He. simpl. reflexivity.
  - destruct (nth_error itos t) as [tok |]; [| reflexivity].
    destruct (String.eqb tok eos); [reflexivity | apply IH].
Qed.

Lemma matching_loop_spec (itos : list string) (rows : list (list nat)) :
  forall (done rest : list (list nat)) (tally : Z),
    in_vocab itos rows ->
    in_vocab itos rest ->
    (List.length rows <= List.length rest)%nat ->
    matching_loop itos rows (done ++ rest) (List.length done) tally =
    Return (tally + matching_spec rows rest itos).
Proof.
  unfold in_vocab, matching_spec.
  induction rows as [| pred_j rows IH]; intros done rest tally Hp Hr Hlen.
  - simpl. rewrite Z.add_0_r. reflexivity.
  - destruct rest as [| ref_j rest]; [simpl in Hlen; lia |].
    inversion Hp as [| ? ? Hp1 Hp2]; subst.
    inversion Hr as [| ? ? Hr1 Hr2]; subst.
    cbn [matching_loop combine filter fst snd].
    rewrite (decode_row_spec itos pred_j Hp1). cbn [obind].
    rewrite nth_error_app2 by lia. rewrite Nat.sub_diag. cbn [nth_error].
    rewrite (decode_row_spec itos ref_j Hr1). cbn [obind app].
    change (done ++ ref_j :: rest) with (done ++ [ref_j] ++ rest).
    rewrite app_assoc.
    replace (S (List.length done)) with (List.length (done ++ [ref_j]))
      by (rewrite length_app; simpl; lia).
    rewrite IH by (auto; simpl in Hlen; lia).
    unfold decode_spec.
    destruct (String.eqb _ _); cbn [List.length]; f_equal; lia.
Qed.

(** C6: [matching] counts the rows whose decoded strings are equal, each
    row being decoded on its own by mapping indices to tokens, cutting at
    the first end-of-sequence token and joining; what follows that token
    is ignored, so that two rows that agree up to it match. *)
Theorem matching_exact_match :
  (forall itos pred ref,
      in_vocab itos pred -> in_vocab itos ref ->
      (List.length pred <= List.length ref)%nat ->
      matching pred ref itos = Return (matching_spec pred ref itos)) /\
  (forall itos e pre suf toks,
      nth_error itos e = Some eos ->
      decode_row itos (pre ++ e :: suf) toks = decode_row itos (pre ++ [e]) toks) /\
  (forall itos e pre suf_pred suf_ref,
      nth_error itos e = Some eos ->
      Forall (fun t => (t < List.length itos)%nat) pre ->
      matching [pre ++ e :: suf_pred] [pre ++ e :: suf_ref] itos = Return 1).
Proof.
  split; [| split].
  - intros itos pred ref Hp Hr Hlen.
    apply (matching_loop_spec itos pred [] ref 0 Hp Hr Hlen).
  - intros itos e pre suf toks He. apply decode_row_stops. exact He.
  - intros itos e pre suf_pred suf_ref He Hpre.
    unfold matching. cbn [matching_loop nth_error].
    rewrite (decode_row_stops itos e pre suf_pred He),
      (decode_row_stops itos e pre suf_ref He).
    assert (Hin : Forall (fun t => (t < List.length itos)%nat) (pre ++ [e])).
    { apply Forall_app. split; [exact Hpre |]. constructor; [| constructor].
      apply nth_error_Some. rewrite He. discriminate. }
    rewrite (decode_row_spec itos _ Hin). cbn [obind matching_loop].
    rewrite String.eqb_refl. reflexivity.
Qed.

(** ** The checkpoint policy *)

Section TrainerProofs.

Context {W Batch : Type}.
Variable train_step : W -> bool -> float -> Batch -> W * float.
Variable eval_step : W -> bool -> float -> Batch -> W * EvalOut.
Variable scheduler_step : W -> float -> W.
Variable math_exp_overflows : float -> bool.

Local Abbreviation State := (Trainer W Batch).
Local Abbreviation update := (@update W Batch math_exp_overflows).
Local Abbreviation evaluate := (@evaluate W Batch eval_step).
Local Abbreviation evaluate_loop := (@evaluate_loop W Batch eval_step).
Local Abbreviation periodic_evaluation :=
  (@periodic_evaluation W Batch eval_step scheduler_step math_exp_overflows).
Local Abbreviation report :=
  (@report W Batch eval_step scheduler_step math_exp_overflows).
Local Abbreviation train_loop :=
  (@train_loop W Batch train_step eval_step scheduler_step math_exp_overflows).
Local Abbreviation train :=
  (@train W Batch train_step eval_step scheduler_step math_exp_overflows).
Local Abbreviation epoch_body :=
  (@epoch_body W Batch train_step eval_step scheduler_step math_exp_overflows).
Local Abbreviation run_loop :=
  (@run_loop W Batch train_step eval_step scheduler_step math_exp_overflows).
Local Abbreviation run :=
  (@run W Batch train_step eval_step scheduler_step math_exp_overflows).

(** Unfolds one call of [update] into its sixteen paths. *)
Ltac update_cases valid_loss valid_acc s :=
  unfold update, bind, get, print, emit, modify_eval_memory_bank, modify,
    math_exp, ret, raise;
  simpl;
  destruct (float_le valid_loss
              (EvalMemoryBank.best_valid_loss (eval_memory_bank s))) eqn:?;
  destruct (ArgsFeeder.valid_criterion (args_feeder s)) eqn:?;
  simpl;
  destruct (float_ge valid_acc
              (EvalMemoryBank.best_valid_acc (eval_memory_bank s))) eqn:?;
  simpl;
  destruct (math_exp_overflows valid_loss) eqn:?;
  simpl.


(** C1 (as amended): what one call of [update] does.  The loss branch and
    the accuracy branch are both evaluated, ties count as improvement, and
    each branch writes its checkpoint exactly when the criterion is its
    own; since the criterion is one value, a call writes at most one
    checkpoint. *)
Theorem update_policy (valid_loss valid_acc : float) (s : State) :
  let r := update valid_loss valid_acc s in
  let b := eval_memory_bank s in
  let b' := eval_memory_bank (final r) in
  let bank := train_memory_bank s in
  let criterion := ArgsFeeder.valid_criterion (args_feeder s) in
  let loss_improved := float_le valid_loss (EvalMemoryBank.best_valid_loss b) in
  let acc_improved := float_ge valid_acc (EvalMemoryBank.best_valid_acc b) in
  (EvalMemoryBank.best_valid_loss b' =
     (if loss_improved then valid_loss else EvalMemoryBank.best_valid_loss b) /\
   EvalMemoryBank.early_stopping_patience b' =
     (if loss_improved then early_stopping_patience s
      else Z.max (EvalMemoryBank.early_stopping_patience b - 1) 0) /\
   (forall n, In (TorchSave loss_model n) (trace r) <->
              loss_improved = true /\ criterion = LOSS /\
              n = TrainMemoryBank.exp_num bank)) /\
  (EvalMemoryBank.best_valid_acc b' =
     (if acc_improved then valid_acc else EvalMemoryBank.best_valid_acc b) /\
   EvalMemoryBank.acc_valid_loss b' =
     (if acc_improved then valid_loss else EvalMemoryBank.acc_valid_loss b) /\
   EvalMemoryBank.best_valid_epoch b' =
     (if acc_improved then TrainMemoryBank.n_epoch bank
      else EvalMemoryBank.best_valid_epoch b) /\
   EvalMemoryBank.best_train_step b' =
     (if acc_improved then TrainMemoryBank.n_steps bank
      else EvalMemoryBank.best_train_step b) /\
   (forall n, In (TorchSave acc_model n) (trace r) <->
              acc_improved = true /\ criterion = ACC /\
              n = TrainMemoryBank.exp_num bank)) /\
  count is_torch_save (trace r) =
    (if (loss_improved && is_loss criterion) || (acc_improved && is_acc criterion)
     then 1 else 0)%nat /\
  (count is_torch_save (trace r) <= 1)%nat.
Proof.
  cbv zeta.
  update_cases valid_loss valid_acc s.
  all: repeat lazymatch goal with
       | |- _ /\ _ => split
       | |- forall _, _ => intro
       end.
  all: lazymatch goal with
       | |- _ <-> _ =>
           simpl; split;
           [ intros Hin;
             repeat (destruct Hin as [Hin | Hin];
                     [ first [discriminate Hin | injection Hin as <-; auto] |]);
             destruct Hin
           | intros (H1 & H2 & H3); first [discriminate | subst; simpl; tauto] ]
       | |- (_ <= _)%nat => unfold count; simpl; lia
       | |- _ => reflexivity
       end.
Qed.

(** [update] writes nothing but the evaluation memory bank. *)
Lemma update_frame (valid_loss valid_acc : float) (s : State) :
  final (update valid_loss valid_acc s) =
  set_eval_memory_bank (eval_memory_bank (final (update valid_loss valid_acc s))) s.
Proof.
  update_cases valid_loss valid_acc s.
  all: destruct s; reflexivity.
Qed.

Lemma update_policy_write (valid_loss valid_acc : float) (s : State) :
  policy_write s (final (update valid_loss valid_acc s)).
Proof.
  update_cases valid_loss valid_acc s.
  all: unfold policy_write, patience; simpl; repeat split; auto.
Qed.

Lemma update_saves_at_most_once (valid_loss valid_acc : float) (s : State) :
  (count is_torch_save (trace (update valid_loss valid_acc s)) <= 1)%nat.
Proof.
  update_cases valid_loss valid_acc s.
  all: unfold count; simpl; lia.
Qed.

Lemma update_patience (valid_loss valid_acc : float) (s : State) :
  let s' := final (update valid_loss valid_acc s) in
  early_stopping_patience s' = early_stopping_patience s /\
  patience s' =
    (if float_le valid_loss (EvalMemoryBank.best_valid_loss (eval_memory_bank s))
     then early_stopping_patience s else Z.max (patience s - 1) 0) /\
  (float_le valid_loss (EvalMemoryBank.best_valid_loss (eval_memory_bank s)) = false ->
   EvalMemoryBank.best_valid_loss (eval_memory_bank s') =
   EvalMemoryBank.best_valid_loss (eval_memory_bank s)).
Proof.
  cbv zeta. unfold patience.
  update_cases valid_loss valid_acc s.
  all: repeat split; try reflexivity; intros; discriminate.
Qed.

(** X2: the lines that report the update come after its writes: when
    [math.exp(valid_loss)] overflows, the call raises only after the record
    has been updated and the checkpoint written. *)
Lemma update_raises_after_writes (valid_loss valid_acc : float) (s : State) :
  math_exp_overflows valid_loss = true ->
  let r := update valid_loss valid_acc s in
  outcome r = Raise OverflowError /\
  (float_le valid_loss (EvalMemoryBank.best_valid_loss (eval_memory_bank s)) = true ->
   EvalMemoryBank.best_valid_loss (eval_memory_bank (final r)) = valid_loss /\
   (ArgsFeeder.valid_criterion (args_feeder s) = LOSS ->
    In (TorchSave loss_model (TrainMemoryBank.exp_num (train_memory_bank s)))
       (trace r))).
Proof.
  intros Hexp. cbv zeta.
  update_cases valid_loss valid_acc s.
  all: try discriminate Hexp.
  all: split; [reflexivity |]; intros Hle; try discriminate Hle.
  all: split; [reflexivity |]; intros Hc; try discriminate Hc.
  all: simpl; auto.
Qed.

(** One call of [update] prints its epoch line once, and neither
    evaluates, nor calls the model, nor steps the scheduler. *)
Lemma update_counts (valid_loss valid_acc : float) (s : State) :
  let t := trace (update valid_loss valid_acc s) in
  count is_update_start t = 1%nat /\
  count is_eval_start t = 0%nat /\
  count is_scheduler_step t = 0%nat /\
  count is_model_call t = 0%nat.
Proof.
  cbv zeta.
  update_cases valid_loss valid_acc s.
  all: repeat split; reflexivity.
Qed.

(** [update_aux] only prints. *)
Lemma update_aux_final (valid_acc_aux : float) (s : State) :
  final (update_aux valid_acc_aux s) = s /\
  outcome (update_aux valid_acc_aux s) = Return tt /\
  Forall (fun e => exists l, e = Stdout l /\
                             (l = L_better_aux \/ exists x, l = L_best_aux x))
         (trace (update_aux valid_acc_aux s)).
Proof.
  unfold update_aux, bind, get, when, print, emit, ret; simpl.
  destruct (float_ge _ _); simpl; repeat split; repeat constructor; eauto.
Qed.

(** ** The evaluation pass *)

Lemma same_settings_refl (s : State) : same_settings s s.
Proof. unfold same_settings. auto 10. Qed.

Lemma same_settings_trans (s1 s2 s3 : State) :
  same_settings s1 s2 -> same_settings s2 s3 -> same_settings s1 s3.
Proof. unfold same_settings. intuition congruence. Qed.

Lemma same_records_refl (s : State) : same_records s s.
Proof. split; [apply same_settings_refl | reflexivity]. Qed.

Lemma same_records_trans (s1 s2 s3 : State) :
  same_records s1 s2 -> same_records s2 s3 -> same_records s1 s3.
Proof.
  intros [H1 E1] [H2 E2]. split; [eapply same_settings_trans; eauto | congruence].
Qed.

Lemma evaluate_loop_spec (batches : list Batch) :
  forall (acc : float * Z * Z) (s : State),
    model_training s = false ->
    model_teacher_forcing_ratio s = 0%float ->
    wp (evaluate_loop batches acc)
       (fun _ s' t =>
          same_records s s' /\
          model_training s' = false /\
          model_teacher_forcing_ratio s' = 0%float /\
          Forall evaluate_event t) s.
Proof.
  induction batches as [| batch rest IH]; intros acc s Hm Hr; simpl.
  - wp_run. auto using same_records_refl.
  - wp_run.
    all: try (eapply wp_weaken;
              [ apply IH; simpl; assumption
              | intros o s' t (H1 & H2 & H3 & H4) ]).
    all: simpl; rewrite Hm, Hr.
    all: repeat split; simpl; auto;
         try (eapply same_records_trans; [| eassumption]);
         try (split; [apply same_settings_refl | reflexivity]).
    all: repeat constructor; auto.
Qed.

(** [evaluate] prints its start line, then only emits evaluation events;
    it leaves every record alone, puts the model in evaluation mode, and
    hands the model the trainer's ratio back when it returns.  When it
    raises, the model is left with ratio 0. *)
Lemma evaluate_spec (is_test : bool) (s : State) :
  wp (evaluate is_test)
     (fun o s' t =>
        same_records s s' /\
        model_training s' = false /\
        model_teacher_forcing_ratio s' =
          match o with Return _ => tfr s | Raise _ => 0%float end /\
        exists t', t = Stdout (L_eval_start 0) :: t' /\
                   Forall evaluate_event t') s.
Proof.
  unfold evaluate. wp_run.
  eapply wp_weaken; [apply evaluate_loop_spec; reflexivity |].
  intros o s' t (Hrec & Hm & Hr & Ht).
  assert (Hs : same_records s s').
  { destruct Hrec as [(?&?&?&?&?&?) ?]. repeat split; assumption. }
  assert (Htfr : tfr s' = tfr s) by apply Hs.
  destruct o as [[[epoch_loss correct] correct_aux] | e]; wp_run.
  all: simpl; repeat split; try apply Hs; auto.
  all: try (eexists; split; [reflexivity |]).
  all: rewrite ?app_nil_r; repeat (apply Forall_app; split); auto.
  all: repeat constructor.
Qed.

(** X1: when [evaluate] raises, the ratio is not given back: the model
    keeps ratio 0. *)
Lemma evaluate_raise_keeps_zero (is_test : bool) (s : State) (e : Exn) :
  outcome (evaluate is_test s) = Raise e ->
  model_teacher_forcing_ratio (final (evaluate is_test s)) = 0%float.
Proof.
  intros He. pose proof (evaluate_spec is_test s) as H. unfold wp in H.
  rewrite He in H. apply H.
Qed.

(** ** The divisions of [evaluate] *)

Lemma decode_row_raises (itos : list string) (row : list nat) :
  forall toks e, decode_row itos row toks = Raise e -> e = IndexError.
Proof.
  induction row as [| t rest IH]; simpl; intros toks e H; [discriminate |].
  destruct (nth_error itos t) as [tok |]; [| congruence].
  destruct (String.eqb tok eos); [discriminate | eauto].
Qed.

Lemma matching_loop_raises (itos : list string) (rows : list (list nat)) :
  forall ref j tally e,
    matching_loop itos rows ref j tally = Raise e -> e = IndexError.
Proof.
  induction rows as [| row rows IH]; simpl; intros ref j tally e H;
    [discriminate |].
  destruct (decode_row itos row []) as [p |] eqn:Hp; simpl in H;
    [| injection H as <-; eapply decode_row_raises; eauto].
  destruct (nth_error ref j) as [r |]; [| congruence].
  destruct (decode_row itos r []) as [q |] eqn:Hq; simpl in H;
    [| injection H as <-; eapply decode_row_raises; eauto].
  eauto.
Qed.

Lemma matching_raises (pred ref : list (list nat)) (itos : list string) (e : Exn) :
  matching pred ref itos = Raise e -> e = IndexError.
Proof. apply matching_loop_raises. Qed.

(** The loop of [evaluate] can only raise [IndexError], and outside
    multi-task mode it leaves [correct_aux] as it was. *)
Lemma evaluate_loop_values (batches : list Batch) :
  forall (epoch_loss : float) (correct correct_aux : Z) (s : State),
    wp (evaluate_loop batches (epoch_loss, correct, correct_aux))
       (fun o s' _ =>
          task s' = task s /\
          match o with
          | Return (_, _, correct_aux') =>
              is_multi (task s) = false -> correct_aux' = correct_aux
          | Raise e => e = IndexError
          end) s.
Proof.
  induction batches as [| batch rest IH]; intros epoch_loss correct correct_aux s;
    simpl.
  - wp_run. auto.
  - wp_run.
    all: try (eapply wp_weaken; [apply IH |];
              intros [[[? ?] ?] | ?] s' t [H1 H2]; simpl in *; split; auto).
    all: try (split; [reflexivity |]).
    all: try congruence.
    all: eapply matching_raises; eassumption.
Qed.

Lemma py_truediv_return (a b : Z) (x : float) :
  py_truediv a b = Return x ->
  b <> 0 /\ x = (float_of_int a / float_of_int b)%float.
Proof.
  unfold py_truediv. destruct (Z.eqb_spec b 0); [discriminate |].
  intros H. injection H as <-. auto.
Qed.

Lemma py_truediv_raise (a b : Z) (e : Exn) :
  py_truediv a b = Raise e -> b = 0 /\ e = ZeroDivisionError.
Proof.
  unfold py_truediv. destruct (Z.eqb_spec b 0); [| discriminate].
  intros H. injection H as <-. auto.
Qed.

Lemma float_div_int_raise (x : float) (n : Z) (e : Exn) :
  float_div_int x n = Raise e -> n = 0 /\ e = ZeroDivisionError.
Proof.
  unfold float_div_int. destruct (Z.eqb_spec n 0); [| discriminate].
  intros H. injection H as <-. auto.
Qed.

Lemma evaluate_values (is_test : bool) (s : State) :
  wp (evaluate is_test)
     (fun o _ t =>
        match o with
        | Return (_, acc, acc_aux) =>
            n_examples_of is_test s <> 0 /\
            exists correct correct_aux,
              acc = (float_of_int correct /
                     float_of_int (n_examples_of is_test s))%float /\
              acc_aux = (float_of_int correct_aux /
                         float_of_int (n_examples_of is_test s))%float /\
              In (Stdout (L_correct correct)) t /\
              (is_multi (task s) = true ->
               In (Stdout (L_correct_aux correct_aux)) t) /\
              (is_multi (task s) = false -> correct_aux = 0)
        | Raise e => e = ZeroDivisionError \/ e = IndexError
        end) s.
Proof.
  unfold evaluate. wp_run.
  eapply wp_weaken; [apply evaluate_loop_values |].
  intros o s' t [Hk Hv]. simpl in Hk, Hv.
  destruct o as [[[epoch_loss correct] correct_aux] | e]; [| auto].
  unfold n_examples_of. wp_run; simpl;
    repeat match goal with
           | H : _ = _ |- _ => progress simpl in H
           end.
  all: repeat match goal with
       | H : py_truediv _ _ = Return _ |- _ => apply py_truediv_return in H; destruct H
       | H : py_truediv _ _ = Raise _ |- _ => apply py_truediv_raise in H; destruct H
       | H : float_div_int _ _ = Raise _ |- _ => apply float_div_int_raise in H; destruct H
       end; subst; auto.
  all: split; [assumption |].
  all: exists correct, correct_aux; repeat split; auto.
  all: try (rewrite !in_app_iff; simpl; auto 10; fail).
  all: congruence.
Qed.

(** ** The periodic evaluation of a training pass *)

Lemma tally_app (t1 t2 : list Event) :
  tally (t1 ++ t2) = tally_add (tally t1) (tally t2).
Proof. unfold tally, tally_add. rewrite !count_app. reflexivity. Qed.

Lemma evaluate_event_facts (e : Event) :
  evaluate_event e ->
  is_eval_start e = false /\ is_update_start e = false /\
  is_scheduler_step e = false /\ forall d, training_call_uses d e.
Proof.
  destruct e as [l | c n | training ratio | m]; simpl; try contradiction.
  - destruct l; simpl; try contradiction; auto.
  - intros [-> _]. auto.
Qed.

Lemma evaluate_events_tally (t : list Event) :
  Forall evaluate_event t ->
  tally t = (0, 0, 0)%nat /\ forall d, Forall (training_call_uses d) t.
Proof.
  unfold tally, count.
  induction 1 as [| e t He _ [IH1 IH2]]; simpl; [auto |].
  destruct (evaluate_event_facts e He) as (-> & -> & -> & Hd).
  split; [exact IH1 | intros d; constructor; auto].
Qed.

Lemma no_model_call_uses (d : float) (t : list Event) :
  count is_model_call t = 0%nat -> Forall (training_call_uses d) t.
Proof.
  unfold count. induction t as [| e t IH]; simpl; [constructor |].
  destruct e as [l | c n | training ratio | m]; simpl; try discriminate;
    intros H; constructor; simpl; auto.
Qed.

Lemma evaluate_spec_calls (is_test : bool) (d : float) (s : State) :
  wp (evaluate is_test)
     (fun o s' t =>
        same_records s s' /\
        model_training s' = false /\
        model_teacher_forcing_ratio s' =
          match o with Return _ => tfr s | Raise _ => 0%float end /\
        tally t = (1, 0, 0)%nat /\
        Forall (training_call_uses d) t) s.
Proof.
  eapply wp_weaken; [apply evaluate_spec |].
  intros o s' t (H1 & H2 & H3 & t' & -> & Ht).
  destruct (evaluate_events_tally t' Ht) as [Hc Hd].
  repeat split; try apply H1; auto.
  - change (Stdout (L_eval_start 0) :: t') with ([Stdout (L_eval_start 0)] ++ t').
    rewrite tally_app, Hc. reflexivity.
  - constructor; [exact I | apply Hd].
Qed.

Lemma update_spec (valid_loss valid_acc d : float) (s : State) :
  wp (update valid_loss valid_acc)
     (fun _ s' t =>
        same_settings s s' /\
        model_training s' = model_training s /\
        model_teacher_forcing_ratio s' = model_teacher_forcing_ratio s /\
        policy_write s s' /\
        tally t = (0, 1, 0)%nat /\
        Forall (training_call_uses d) t) s.
Proof.
  unfold wp.
  pose proof (update_frame valid_loss valid_acc s) as Hf.
  pose proof (update_counts valid_loss valid_acc s) as (Hu & He & Hs & Hm).
  pose proof (update_policy_write valid_loss valid_acc s) as Hp.
  unfold tally. rewrite Hu, He, Hs.
  split; [rewrite Hf; unfold same_settings; simpl; auto 10 |].
  split; [rewrite Hf; reflexivity |].
  split; [rewrite Hf; reflexivity |].
  split; [exact Hp |].
  split; [reflexivity | apply no_model_call_uses; exact Hm].
Qed.

Lemma update_aux_spec (valid_acc_aux d : float) (s : State) :
  wp (update_aux valid_acc_aux)
     (fun o s' t =>
        s' = s /\ tally t = (0, 0, 0)%nat /\ Forall (training_call_uses d) t) s.
Proof.
  unfold wp. destruct (update_aux_final valid_acc_aux s) as (Hf & _ & Ht).
  split; [exact Hf |].
  induction Ht as [| e t (l & -> & Hl) _ [IH1 IH2]]; [split; [reflexivity | constructor] |].
  split; [| constructor; [exact I | exact IH2]].
  change (Stdout l :: t) with ([Stdout l] ++ t). rewrite tally_app, IH1.
  destruct Hl as [-> | [x ->]]; reflexivity.
Qed.

(** Reduces the record projections applied to record updates, and
    nothing else. *)
Ltac fields :=
  cbn [args_feeder data_container task early_stopping_patience
       eval_memory_bank train_memory_bank tfr model_training
       model_teacher_forcing_ratio torch
       set_eval_memory_bank set_train_memory_bank set_tfr set_model_training
       set_model_teacher_forcing_ratio set_torch
       TrainMemoryBank.exp_num TrainMemoryBank.total_epochs
       TrainMemoryBank.n_epoch TrainMemoryBank.n_steps
       TrainMemoryBank.report_interval
       TrainMemoryBank.set_n_steps TrainMemoryBank.set_n_epoch
       EvalMemoryBank.best_valid_loss EvalMemoryBank.acc_valid_loss
       EvalMemoryBank.best_valid_acc EvalMemoryBank.best_valid_epoch
       EvalMemoryBank.best_train_step EvalMemoryBank.early_stopping_patience
       EvalMemoryBank.best_valid_loss_aux EvalMemoryBank.best_valid_acc_aux
       EvalMemoryBank.set_best_valid_loss EvalMemoryBank.set_acc_valid_loss
       EvalMemoryBank.set_best_valid_acc EvalMemoryBank.set_best_valid_epoch
       EvalMemoryBank.set_best_train_step
       EvalMemoryBank.set_early_stopping_patience] in *.

(** Every hypothesis that is a conjunction of field equalities is taken
    apart, and the goal is closed by chaining them. *)
Ltac frames :=
  unfold same_records, same_settings, after_steps in *; fields;
  repeat match goal with
         | H : _ /\ _ |- _ => destruct H
         end;
  repeat split; try congruence.

(** Closes a goal that every event of a trace built by appending satisfies
    [training_call_uses]. *)
Ltac trace_uses :=
  simpl; rewrite ?app_nil_r;
  repeat first
    [ assumption
    | apply Forall_nil
    | apply Forall_cons; [first [exact I | reflexivity] |]
    | apply Forall_app; split ].

Ltac tally_of_parts :=
  simpl;
  repeat match goal with
         | |- context [?e :: ?t] =>
             lazymatch t with
             | [] => fail
             | _ => change (e :: t) with ([e] ++ t)
             end
         end;
  rewrite ?tally_app;
  repeat match goal with
         | H : tally _ = _ |- _ => rewrite H; clear H
         end;
  reflexivity.

Lemma periodic_evaluation_spec (d : float) (s : State) :
  wp periodic_evaluation
     (fun o s' t =>
        same_settings s s' /\
        Forall (training_call_uses d) t /\
        (forall x, o = Return x ->
                   model_training s' = true /\
                   model_teacher_forcing_ratio s' = tfr s /\
                   tally t = (2, 1, 1)%nat)) s.
Proof.
  unfold periodic_evaluation. wp_run.
  eapply wp_weaken; [apply (evaluate_spec_calls false d) |].
  intros o1 s1 t1 (F1 & M1 & R1 & C1 & U1).
  destruct o1 as [[[valid_loss valid_acc] valid_acc_aux] | e1]; wp_run.
  2: { split; [frames | split; [trace_uses | discriminate]]. }
  eapply wp_weaken; [apply (evaluate_spec_calls true d) |].
  intros o2 s2 t2 (F2 & M2 & R2 & C2 & U2).
  destruct o2 as [x2 | e2]; wp_run.
  2: { split; [frames | split; [trace_uses | discriminate]]. }
  eapply wp_weaken; [apply (update_spec valid_loss valid_acc d) |].
  intros o3 s3 t3 (F3 & M3 & R3 & _ & C3 & U3).
  destruct o3 as [x3 | e3]; wp_run.
  3: { split; [frames | split; [trace_uses | discriminate]]. }
  - eapply wp_weaken; [apply (update_aux_spec valid_acc_aux d) |].
    intros o4 s4 t4 (-> & C4 & U4).
    destruct o4 as [x4 | e4]; wp_run.
    + split; [frames | split; [trace_uses | intros _ _]].
      split; [reflexivity | split; [frames | tally_of_parts]].
    + split; [frames | split; [trace_uses | discriminate]].
  - split; [frames | split; [trace_uses | intros _ _]].
    split; [reflexivity | split; [frames | tally_of_parts]].
Qed.

(** ** The training pass *)

Lemma py_mod_return (a b m : Z) :
  py_mod a b = Return m -> b <> 0 /\ m = a mod b.
Proof.
  unfold py_mod. destruct (Z.eqb_spec b 0); [discriminate |].
  intros H. injection H as <-. auto.
Qed.

Lemma report_spec (i : Z) (running_loss d : float) (s : State) :
  model_training s = true ->
  model_teacher_forcing_ratio s = tfr s ->
  wp (report i running_loss)
     (fun o s' t =>
        same_settings s s' /\
        Forall (training_call_uses d) t /\
        (forall x, o = Return x ->
           model_training s' = true /\
           model_teacher_forcing_ratio s' = tfr s /\
           tally t =
             if TrainMemoryBank.n_steps (train_memory_bank s)
                mod (10 * TrainMemoryBank.report_interval (train_memory_bank s)) =? 0
             then (2, 1, 1)%nat else (0, 0, 0)%nat)) s.
Proof.
  intros Hm Hr. unfold report. wp_run.
  - split; [frames | split; [trace_uses | discriminate]].
  - eapply wp_weaken; [apply (periodic_evaluation_spec d) |].
    intros o s' t (F & U & HR).
    split; [frames | split; [trace_uses |]].
    intros x ->. destruct (HR x eq_refl) as (H1 & H2 & H3).
    split; [exact H1 | split; [exact H2 | tally_of_parts]].
  - split; [frames | split; [trace_uses | intros _ _]].
    split; [exact Hm | split; [exact Hr | reflexivity]].
Qed.

Lemma after_steps_cons (w : W) (s s' s'' : State) (k : nat) :
  same_settings
    (set_train_memory_bank
       (TrainMemoryBank.set_n_steps
          (TrainMemoryBank.n_steps (train_memory_bank s) + 1)
          (train_memory_bank s))
       (set_torch w s)) s' ->
  after_steps (Z.of_nat k) s' s'' ->
  after_steps (Z.of_nat (S k)) s s''.
Proof.
  unfold same_settings, after_steps. simpl.
  intros (E1 & E2 & E3 & E4 & E5 & E6) (A1 & A2 & A3 & A4 & A5 & A6).
  repeat split; try congruence.
  rewrite A6, E5. unfold TrainMemoryBank.set_n_steps. simpl.
  f_equal. lia.
Qed.

Lemma tally_iteration (e : Event) (t t' : list Event) (b : bool) (due : nat) :
  tally [e] = (0, 0, 0)%nat ->
  tally t = (if b then (2, 1, 1)%nat else (0, 0, 0)%nat) ->
  tally t' = (2 * due, due, due)%nat ->
  tally (e :: t ++ t') =
  (2 * ((if b then 1 else 0) + due), (if b then 1 else 0) + due,
   (if b then 1 else 0) + due)%nat.
Proof.
  intros He Ht Ht'. change (e :: t ++ t') with ([e] ++ t ++ t').
  rewrite !tally_app, He, Ht, Ht'.
  destruct b; cbn [tally_add]; repeat (f_equal; try lia).
Qed.

Lemma train_loop_spec (batches : list Batch) :
  forall (i : Z) (epoch_loss d : float) (s : State),
    model_training s = true ->
    model_teacher_forcing_ratio s = d ->
    tfr s = d ->
    wp (train_loop i batches epoch_loss)
       (fun o s' t =>
          Forall (training_call_uses d) t /\
          (forall x, o = Return x ->
             after_steps (Z.of_nat (List.length batches)) s s' /\
             model_training s' = true /\
             model_teacher_forcing_ratio s' = d /\
             tally t =
               let due := evaluations_due
                            (TrainMemoryBank.report_interval (train_memory_bank s))
                            i (TrainMemoryBank.n_steps (train_memory_bank s))
                            (List.length batches) in
               (2 * due, due, due)%nat)) s.
Proof.
  induction batches as [| batch rest IH]; intros i epoch_loss d s Hm Hr Ht.
  - simpl. wp_run. split; [constructor | intros _ _].
    split; [| auto].
    unfold after_steps. simpl. rewrite Z.add_0_r.
    destruct s as [? ? ? ? ? [? ? ? ? ?] ? ? ? ?]; simpl. auto 10.
  - cbn [train_loop]. wp_run.
    all: repeat match goal with
         | H : py_mod _ _ = Return _ |- _ =>
             apply py_mod_return in H; destruct H as [? ?]
         end; fields.
    + eapply wp_weaken; [apply (report_spec i _ d); fields; congruence |].
      cbv beta. intros o s' t (F & U & HR).
      destruct o as [x | e].
      * destruct (HR x eq_refl) as (H1 & H2 & H3). fields.
        assert (F6 : tfr s' = d) by (destruct F as (_&_&_&_&_&F6); fields; congruence).
        assert (F5 : train_memory_bank s' =
                     TrainMemoryBank.set_n_steps
                       (TrainMemoryBank.n_steps (train_memory_bank s) + 1)
                       (train_memory_bank s))
          by (destruct F as (_&_&_&_&F5&_); exact F5).
        eapply wp_weaken;
          [apply (IH (i + 1) _ d); [exact H1 | congruence | exact F6] |].
        cbv beta. intros o' s'' t' [U' HR'].
        split; [rewrite Hm, Hr; trace_uses |].
        intros y ->. destruct (HR' y eq_refl) as (A1 & A2 & A3 & A4).
        split; [eapply after_steps_cons; eassumption |].
        split; [exact A2 | split; [exact A3 |]].
        rewrite F5 in A4. cbv zeta in A4. fields.
        cbv zeta. cbn [List.length evaluations_due].
        rewrite app_nil_l. cbn [app].
        apply tally_iteration; [reflexivity | | exact A4].
        rewrite H3. unfold evaluation_due. subst a. rewrite Heqb. reflexivity.
      * split; [rewrite Hm, Hr; trace_uses | discriminate].
    + eapply wp_weaken;
        [apply (IH (i + 1) _ d); fields; assumption |].
      cbv beta. intros o' s'' t' [U' HR'].
      split; [rewrite Hm, Hr; trace_uses |].
      intros y ->. destruct (HR' y eq_refl) as (A1 & A2 & A3 & A4).
      split; [eapply (after_steps_cons w); [apply same_settings_refl | exact A1] |].
      split; [exact A2 | split; [exact A3 |]].
      cbv zeta in A4. fields.
      cbv zeta. cbn [List.length evaluations_due].
      rewrite app_nil_l. cbn [app].
      apply (tally_iteration _ [] t'); [reflexivity | | exact A4].
      unfold evaluation_due. subst a. rewrite Heqb. reflexivity.
    + split; [rewrite Hm, Hr; trace_uses | discriminate].
Qed.

Lemma train_spec (d : float) (s : State) :
  tfr s = d ->
  wp train
     (fun o s' t =>
        Forall (training_call_uses d) t /\
        (exists t', t = Stdout (L_train_tfr d) :: t') /\
        (forall x, o = Return x ->
           after_steps (Z.of_nat (List.length (train_iter (data_container s)))) s s' /\
           model_training s' = true /\
           model_teacher_forcing_ratio s' = d /\
           tally t =
             let due := evaluations_due
                          (TrainMemoryBank.report_interval (train_memory_bank s))
                          0 (TrainMemoryBank.n_steps (train_memory_bank s))
                          (List.length (train_iter (data_container s))) in
             (2 * due, due, due)%nat)) s.
Proof.
  intros Hd. unfold train. wp_run. fields.
  eapply wp_weaken; [apply (train_loop_spec _ 0 _ d); fields; auto |].
  cbv beta. intros o s' t [U HR]. fields.
  destruct o as [x | e]; wp_run.
  - destruct (HR x eq_refl) as (A1 & A2 & A3 & A4).
    split; [trace_uses | split; [rewrite Hd; eexists; reflexivity | intros _ _]].
    split; [| split; [exact A2 | split; [exact A3 |]]].
    + unfold after_steps in *. fields. exact A1.
    + cbn [app]. rewrite ?app_nil_r.
      change (Stdout (L_train_tfr (tfr s)) :: t)
        with ([Stdout (L_train_tfr (tfr s))] ++ t).
      rewrite tally_app, A4. cbv zeta. cbn [tally_add]. reflexivity.
  - split; [trace_uses | split; [rewrite Hd; eexists; reflexivity | discriminate]].
  - split; [trace_uses | split; [rewrite Hd; eexists; reflexivity | discriminate]].
Qed.

(** A computation described by its own result. *)
Lemma wp_exact {A} (m : M W Batch A) (s : State) :
  wp m (fun o s' t => o = outcome (m s) /\ s' = final (m s) /\ t = trace (m s)) s.
Proof. unfold wp. auto. Qed.

(** What one periodic evaluation consists of, when it completes: the
    validation pass, the test pass, the policy update on the validation
    results, the auxiliary comparison in multi-task mode, and the scheduler
    step on the validation accuracy, in this order. *)
Lemma periodic_evaluation_content (s : State) :
  outcome (periodic_evaluation s) = Return tt ->
  exists valid_loss valid_acc valid_acc_aux test_result,
    outcome (evaluate false s) = Return (valid_loss, valid_acc, valid_acc_aux) /\
    let s1 := final (evaluate false s) in
    outcome (evaluate true s1) = Return test_result /\
    let s2 := final (evaluate true s1) in
    outcome (update valid_loss valid_acc s2) = Return tt /\
    let s3 := final (update valid_loss valid_acc s2) in
    trace (periodic_evaluation s) =
      [Stdout L_val_banner] ++ trace (evaluate false s) ++
      [Stdout L_tst_banner] ++ trace (evaluate true s1) ++
      trace (update valid_loss valid_acc s2) ++
      (if is_multi (task s3) then trace (update_aux valid_acc_aux s3) else []) ++
      [SchedulerStep valid_acc] /\
    final (periodic_evaluation s) =
      set_model_training true
        (set_torch (scheduler_step (torch s3) valid_acc) s3).
Proof.
  change (wp periodic_evaluation
            (fun o s' t =>
               o = Return tt ->
               exists valid_loss valid_acc valid_acc_aux test_result,
                 outcome (evaluate false s) =
                   Return (valid_loss, valid_acc, valid_acc_aux) /\
                 let s1 := final (evaluate false s) in
                 outcome (evaluate true s1) = Return test_result /\
                 let s2 := final (evaluate true s1) in
                 outcome (update valid_loss valid_acc s2) = Return tt /\
                 let s3 := final (update valid_loss valid_acc s2) in
                 t = [Stdout L_val_banner] ++ trace (evaluate false s) ++
                     [Stdout L_tst_banner] ++ trace (evaluate true s1) ++
                     trace (update valid_loss valid_acc s2) ++
                     (if is_multi (task s3)
                      then trace (update_aux valid_acc_aux s3) else []) ++
                     [SchedulerStep valid_acc] /\
                 s' = set_model_training true
                        (set_torch (scheduler_step (torch s3) valid_acc) s3)) s).
  unfold periodic_evaluation. wp_run.
  eapply wp_weaken; [apply wp_exact |].
  cbv beta. intros o1 s1 t1 (-> & -> & ->).
  destruct (outcome (evaluate false s)) as [[[valid_loss valid_acc] valid_acc_aux] | e1];
    wp_run; [| discriminate].
  eapply wp_weaken; [apply wp_exact |].
  cbv beta. intros o2 s2 t2 (-> & -> & ->).
  destruct (outcome (evaluate true _)) as [test_result | e2] eqn:E2;
    wp_run; [| discriminate].
  eapply wp_weaken; [apply wp_exact |].
  cbv beta. intros o3 s3 t3 (-> & -> & ->).
  destruct (outcome (update valid_loss valid_acc _)) as [[] | e3] eqn:E3;
    wp_run; try discriminate.
  - eapply wp_weaken; [apply wp_exact |].
    cbv beta. intros o4 s4 t4 (-> & -> & ->).
    destruct (update_aux_final valid_acc_aux
                (final (update valid_loss valid_acc
                          (final (evaluate true (final (evaluate false s)))))))
      as (Hf & Ho & _).
    rewrite Ho. wp_run. intros _.
    exists valid_loss, valid_acc, valid_acc_aux, test_result.
    cbv zeta. rewrite Hf. fields. rewrite Heqb.
    repeat split; auto; simpl; rewrite ?app_nil_r; reflexivity.
  - intros _.
    exists valid_loss, valid_acc, valid_acc_aux, test_result.
    cbv zeta. fields. rewrite Heqb.
    repeat split; auto; simpl; rewrite ?app_nil_r; reflexivity.
Qed.

(** ** Invariants of the trainer

    A state predicate [I] that no policy write can break, and an event
    predicate [Q] that holds of every event except possibly the line
    [update_aux] prints, are kept by every operation. *)

Section Invariant.

Variable I : State -> Prop.
Variable Q : Event -> Prop.
Hypothesis I_respects : respects_writes I.
Hypothesis Q_other : forall e, (forall x, e <> Stdout (L_best_aux x)) -> Q e.
Hypothesis Q_best_aux : forall s,
  I s -> Q (Stdout (L_best_aux (EvalMemoryBank.best_valid_acc_aux (eval_memory_bank s)))).

(** Closes [I s'] for a state [s'] obtained from a state satisfying [I] by
    writes outside the policy records. *)
Ltac inv_state :=
  match goal with
  | H : I ?s0 |- I ?s1 =>
      apply (I_respects s0 s1);
      [ solve [unfold policy_write, patience; fields; auto 10] | exact H ]
  end.

(** Closes [Forall Q] for a trace built by appending. *)
Ltac inv_trace :=
  simpl; rewrite ?app_nil_r;
  repeat first
    [ assumption
    | apply Forall_nil
    | apply Forall_cons; [apply Q_other; intros ?; discriminate |]
    | apply Forall_app; split ].

Ltac inv_done := split; [first [assumption | inv_state] | inv_trace].

Lemma update_no_best_aux (valid_loss valid_acc : float) (s : State) :
  Forall (fun e => forall x, e <> Stdout (L_best_aux x))
         (trace (update valid_loss valid_acc s)).
Proof.
  update_cases valid_loss valid_acc s.
  all: repeat constructor; intros ?; discriminate.
Qed.

Lemma keeps_update (valid_loss valid_acc : float) (s : State) :
  I s -> wp (update valid_loss valid_acc) (fun _ s' t => I s' /\ Forall Q t) s.
Proof.
  intros H. unfold wp. split.
  - eapply I_respects; [apply update_policy_write | exact H].
  - eapply Forall_impl; [| apply update_no_best_aux]. exact Q_other.
Qed.

Lemma keeps_update_aux (valid_acc_aux : float) (s : State) :
  I s -> wp (update_aux valid_acc_aux) (fun _ s' t => I s' /\ Forall Q t) s.
Proof.
  intros H. unfold update_aux. wp_run.
  all: split; [exact H |]; simpl; repeat constructor; auto.
  all: apply Q_other; intros ?; discriminate.
Qed.

Lemma keeps_evaluate (is_test : bool) (s : State) :
  I s -> wp (evaluate is_test) (fun _ s' t => I s' /\ Forall Q t) s.
Proof.
  intros H. eapply wp_weaken; [apply evaluate_spec |].
  cbv beta. intros o s' t (F & _ & _ & t' & -> & Ht). split.
  - apply (I_respects s s'); [| exact H].
    destruct F as [(F1 & F2 & F3 & F4 & F5 & F6) F7].
    unfold policy_write, patience. rewrite F7. auto 10.
  - constructor; [apply Q_other; intros ?; discriminate |].
    eapply Forall_impl; [| exact Ht].
    intros e He. apply Q_other. intros x ->. exact He.
Qed.

Lemma keeps_periodic_evaluation (s : State) :
  I s -> wp periodic_evaluation (fun _ s' t => I s' /\ Forall Q t) s.
Proof.
  intros H. unfold periodic_evaluation. wp_run.
  eapply wp_weaken; [apply (keeps_evaluate false); exact H |].
  cbv beta. intros o1 s1 t1 [H1 T1].
  destruct o1 as [[[valid_loss valid_acc] valid_acc_aux] | e1]; wp_run;
    [| inv_done].
  eapply wp_weaken; [apply (keeps_evaluate true); exact H1 |].
  cbv beta. intros o2 s2 t2 [H2 T2].
  destruct o2 as [x2 | e2]; wp_run; [| inv_done].
  eapply wp_weaken; [apply (keeps_update valid_loss valid_acc); exact H2 |].
  cbv beta. intros o3 s3 t3 [H3 T3].
  destruct o3 as [x3 | e3]; wp_run; try inv_done.
  eapply wp_weaken; [apply (keeps_update_aux valid_acc_aux); exact H3 |].
  cbv beta. intros o4 s4 t4 [H4 T4].
  destruct o4 as [x4 | e4]; wp_run; inv_done.
Qed.

Lemma keeps_report (i : Z) (running_loss : float) (s : State) :
  I s -> wp (report i running_loss) (fun _ s' t => I s' /\ Forall Q t) s.
Proof.
  intros H. unfold report. wp_run; [inv_done | | inv_done].
  eapply wp_weaken; [apply keeps_periodic_evaluation; exact H |].
  cbv beta. intros o s' t [H' T']. inv_done.
Qed.

Lemma keeps_train_loop (batches : list Batch) :
  forall (i : Z) (epoch_loss : float) (s : State),
    I s -> wp (train_loop i batches epoch_loss) (fun _ s' t => I s' /\ Forall Q t) s.
Proof.
  induction batches as [| batch rest IH]; intros i epoch_loss s H.
  - simpl. wp_run. inv_done.
  - cbn [train_loop]. wp_run.
    + eapply wp_weaken; [apply keeps_report; inv_state |].
      cbv beta. intros o s' t [H' T'].
      destruct o as [x | e]; [| inv_done].
      eapply wp_weaken; [apply IH; exact H' |].
      cbv beta. intros o' s'' t' [H'' T'']. inv_done.
    + eapply wp_weaken; [apply IH; inv_state |].
      cbv beta. intros o' s'' t' [H'' T'']. inv_done.
    + inv_done.
Qed.

Lemma keeps_train (s : State) :
  I s -> wp train (fun _ s' t => I s' /\ Forall Q t) s.
Proof.
  intros H. unfold train. wp_run.
  eapply wp_weaken; [apply keeps_train_loop; inv_state |].
  cbv beta. intros o s' t [H' T'].
  destruct o as [x | e]; wp_run; inv_done.
Qed.

Lemma keeps_epoch_head (burning_epoch epoch : Z) (s : State) :
  I s -> wp (epoch_head burning_epoch epoch) (fun _ s' t => I s' /\ Forall Q t) s.
Proof.
  intros H. unfold epoch_head. wp_run; inv_done.
Qed.

Lemma keeps_epoch_body (epoch : Z) (s : State) :
  I s -> wp (epoch_body epoch) (fun _ s' t => I s' /\ Forall Q t) s.
Proof.
  intros H. unfold epoch_body. wp_run.
  eapply wp_weaken; [apply keeps_train; inv_state |].
  cbv beta. intros o1 s1 t1 [H1 T1].
  destruct o1 as [train_loss | e1]; wp_run; [| inv_done].
  eapply wp_weaken; [apply (keeps_evaluate false); exact H1 |].
  cbv beta. intros o2 s2 t2 [H2 T2].
  destruct o2 as [[[valid_loss valid_acc] valid_acc_aux] | e2]; wp_run;
    [| inv_done].
  eapply wp_weaken; [apply (keeps_update valid_loss valid_acc); exact H2 |].
  cbv beta. intros o3 s3 t3 [H3 T3].
  destruct o3 as [x3 | e3]; wp_run; try inv_done.
  all: eapply wp_weaken; [apply (keeps_update_aux valid_acc_aux); exact H3 |].
  all: cbv beta; intros o4 s4 t4 [H4 T4].
  all: destruct o4 as [x4 | e4]; wp_run; inv_done.
Qed.

Lemma keeps_run_loop (burning_epoch : Z) (epochs : list Z) :
  forall s : State,
    I s -> wp (run_loop burning_epoch epochs) (fun _ s' t => I s' /\ Forall Q t) s.
Proof.
  induction epochs as [| epoch rest IH]; intros s H.
  - simpl. wp_run. inv_done.
  - cbn [run_loop]. wp_run.
    eapply wp_weaken; [apply keeps_epoch_head; exact H |].
    cbv beta. intros o1 s1 t1 [H1 T1].
    destruct o1 as [[] | e1]; wp_run; try inv_done.
    eapply wp_weaken; [apply keeps_epoch_body; exact H1 |].
    cbv beta. intros o2 s2 t2 [H2 T2].
    destruct o2 as [x2 | e2]; [| inv_done].
    eapply wp_weaken; [apply IH; exact H2 |].
    cbv beta. intros o3 s3 t3 [H3 T3]. inv_done.
Qed.

Lemma keeps_run (burning_epoch : Z) (s : State) :
  I s -> wp (run burning_epoch) (fun _ s' t => I s' /\ Forall Q t) s.
Proof.
  intros H. unfold run. wp_run.
  eapply wp_weaken; [apply keeps_run_loop; exact H |].
  cbv beta. intros o s' t [H' T']. inv_done.
Qed.

End Invariant.

(** ** The epoch driver *)

Lemma epoch_head_burning (burning_epoch epoch : Z) (s : State) :
  epoch <= burning_epoch ->
  epoch_head burning_epoch epoch s =
  mkRes (Return (early_stopping_patience s =? 0)) (renewed epoch s)
        (Stdout L_renew_records ::
         if early_stopping_patience s =? 0 then [Stdout L_early_stopping] else []).
Proof.
  intros H. unfold epoch_head, bind, modify_train_memory_bank,
    modify_eval_memory_bank, modify, get, print, emit, ret.
  apply Z.leb_le in H. rewrite H. simpl.
  destruct (early_stopping_patience s =? 0); reflexivity.
Qed.

Lemma epoch_head_past (burning_epoch epoch : Z) (s : State) :
  burning_epoch < epoch ->
  epoch_head burning_epoch epoch s =
  mkRes (Return (patience s =? 0))
        (set_train_memory_bank
           (TrainMemoryBank.set_n_epoch epoch (train_memory_bank s)) s)
        (if patience s =? 0 then [Stdout L_early_stopping] else []).
Proof.
  intros H. unfold epoch_head, bind, modify_train_memory_bank,
    modify_eval_memory_bank, modify, get, print, emit, ret.
  apply Z.leb_gt in H. rewrite H. simpl. unfold patience.
  destruct (EvalMemoryBank.early_stopping_patience (eval_memory_bank s) =? 0);
    reflexivity.
Qed.

Lemma run_loop_cons (burning_epoch epoch : Z) (rest : list Z) (s : State) :
  run_loop burning_epoch (epoch :: rest) s =
  bind (epoch_head burning_epoch epoch)
       (fun stop => if stop : bool then ret tt
                    else bind (epoch_body epoch)
                              (fun _ => run_loop burning_epoch rest)) s.
Proof. reflexivity. Qed.

(** With no patience left at the head of an epoch, the loop ends there. *)
Lemma run_loop_stops (burning_epoch epoch : Z) (rest : list Z) (s : State) :
  outcome (epoch_head burning_epoch epoch s) = Return true ->
  run_loop burning_epoch (epoch :: rest) s =
  mkRes (Return tt) (final (epoch_head burning_epoch epoch s))
        (trace (epoch_head burning_epoch epoch s)).
Proof.
  intros H. rewrite run_loop_cons, (bind_return _ _ _ _ H). simpl.
  rewrite app_nil_r. reflexivity.
Qed.




(** C5: when the patience is 0 at the head of an epoch (after the reset
    of the burning phase, if it applies), the loop ends there without
    training or evaluating; and with a configured patience of 2, three
    non-improving updates in a row leave no patience, so that the next
    epoch past the burning phase is not run. *)
Theorem early_stopping_halts :
  (forall burning_epoch epoch rest (s : State),
      (if epoch <=? burning_epoch then early_stopping_patience s
       else patience s) = 0 ->
      let r := run_loop burning_epoch (epoch :: rest) s in
      outcome r = Return tt /\
      count is_model_call (trace r) = 0%nat /\
      tally (trace r) = (0, 0, 0)%nat /\
      In (Stdout L_early_stopping) (trace r) /\
      final r = final (epoch_head burning_epoch epoch s)) /\
  (forall (s0 : State) loss1 acc1 loss2 acc2 loss3 acc3,
      early_stopping_patience s0 = 2 ->
      patience_in_range s0 ->
      let worse loss (s : State) :=
        float_le loss (EvalMemoryBank.best_valid_loss (eval_memory_bank s)) = false in
      let s1 := final (update loss1 acc1 s0) in
      worse loss1 s0 ->
      forall sa, same_policy s1 sa ->
      let s2 := final (update loss2 acc2 sa) in
      worse loss2 sa ->
      forall sb, same_policy s2 sb ->
      let s3 := final (update loss3 acc3 sb) in
      worse loss3 sb ->
      patience s3 = 0 /\
      forall sc burning_epoch epoch rest,
        same_policy s3 sc ->
        burning_epoch < epoch ->
        let r := run_loop burning_epoch (epoch :: rest) sc in
        outcome r = Return tt /\
        count is_model_call (trace r) = 0%nat /\
        trace r = [Stdout L_early_stopping]).
Proof.
  split.
  - intros burning_epoch epoch rest s H. cbv zeta.
    destruct (Z.leb_spec epoch burning_epoch) as [Hb | Hb].
    + rewrite run_loop_stops; rewrite (epoch_head_burning _ _ _ Hb), H;
        simpl; auto 10.
    + rewrite run_loop_stops; rewrite (epoch_head_past _ _ _ Hb), H;
        simpl; auto 10.
  - intros s0 loss1 acc1 loss2 acc2 loss3 acc3 Hmax Hrange.
    cbv zeta. intros W1 sa [Ea Pa] W2 sb [Eb Pb] W3.
    destruct (update_patience loss1 acc1 s0) as (M1 & P1 & _).
    destruct (update_patience loss2 acc2 sa) as (M2 & P2 & _).
    destruct (update_patience loss3 acc3 sb) as (M3 & P3 & _).
    rewrite W1 in P1. rewrite W2 in P2. rewrite W3 in P3.
    unfold patience_in_range in Hrange. unfold patience in *.
    rewrite Ea in P2. rewrite Eb in P3.
    assert (H3 : EvalMemoryBank.early_stopping_patience
                   (eval_memory_bank (final (update loss3 acc3 sb))) = 0) by lia.
    split; [exact H3 |].
    intros sc burning_epoch epoch rest [Ec Pc] Hb.
    rewrite run_loop_stops; rewrite (epoch_head_past _ _ _ Hb);
      unfold patience; rewrite Ec, H3; simpl; auto.
Qed.

(** ** The patience stays in range *)

Lemma patience_range_respects (m : Z) :
  respects_writes (fun s : State =>
    early_stopping_patience s = m /\ 0 <= patience s <= m).
Proof.
  intros s s' (_ & _ & _ & E & _ & _ & P) [Hm Hp].
  split; [congruence | lia].
Qed.

(** C2: the remaining patience starts in the range from 0 to the
    configured maximum and no operation of the trainer takes it out of
    it; a non-improving update decrements it with floor 0, an improving
    update and the reset of the burning phase set it to the maximum. *)
Theorem patience_stays_in_range :
  (forall args (data : Data Batch) mode ratio (w : W),
      0 <= ArgsFeeder.early_stopping_patience args ->
      patience_in_range (init args data mode ratio w) /\
      patience (init args data mode ratio w) =
        ArgsFeeder.early_stopping_patience args) /\
  (forall s : State,
      patience_in_range s ->
      (forall valid_loss valid_acc,
          keeps_patience s (update valid_loss valid_acc s) /\
          patience (final (update valid_loss valid_acc s)) =
            (if float_le valid_loss
                  (EvalMemoryBank.best_valid_loss (eval_memory_bank s))
             then early_stopping_patience s
             else Z.max (patience s - 1) 0)) /\
      (forall valid_acc_aux, keeps_patience s (update_aux valid_acc_aux s)) /\
      (forall is_test, keeps_patience s (evaluate is_test s)) /\
      keeps_patience s (train s) /\
      (forall burning_epoch epoch,
          keeps_patience s (epoch_head burning_epoch epoch s) /\
          (epoch <= burning_epoch ->
           patience (final (epoch_head burning_epoch epoch s)) =
             early_stopping_patience s)) /\
      (forall epoch, keeps_patience s (epoch_body epoch s)) /\
      (forall burning_epoch, keeps_patience s (run burning_epoch s))).
Proof.
  split.
  - intros args data mode ratio w H. unfold patience_in_range, patience, init.
    simpl. split; [lia | reflexivity].
  - intros s Hs. unfold keeps_patience.
    pose proof (patience_range_respects (early_stopping_patience s)) as HR.
    assert (HI : early_stopping_patience s = early_stopping_patience s /\
                 0 <= patience s <= early_stopping_patience s) by (split; [reflexivity | exact Hs]).
    assert (HQ : forall e : Event, (forall x, e <> Stdout (L_best_aux x)) -> True) by auto.
    assert (HA : forall s0 : State,
               early_stopping_patience s0 = early_stopping_patience s /\
               0 <= patience s0 <= early_stopping_patience s ->
               True) by auto.
    assert (K : forall (A : Type) (m : M W Batch A),
               wp m (fun _ s' t =>
                       (early_stopping_patience s' = early_stopping_patience s /\
                        0 <= patience s' <= early_stopping_patience s) /\
                       Forall (fun _ => True) t) s ->
               patience_in_range (final (m s)) /\
               early_stopping_patience (final (m s)) = early_stopping_patience s).
    { intros A m [[E P] _]. unfold patience_in_range. rewrite E. auto. }
    split; [intros valid_loss valid_acc; split;
            [apply K, (keeps_update _ _ HR HQ); exact HI
            | apply update_patience] |].
    split; [intros valid_acc_aux;
            apply K, (keeps_update_aux _ _ HQ HA); exact HI |].
    split; [intros is_test; apply K, (keeps_evaluate _ _ HR HQ); exact HI |].
    split; [apply K, (keeps_train _ _ HR HQ HA); exact HI |].
    split; [intros burning_epoch epoch; split;
            [apply K, (keeps_epoch_head _ _ HR HQ); exact HI
            | intros Hb; rewrite (epoch_head_burning _ _ _ Hb); reflexivity] |].
    split; [intros epoch; apply K, (keeps_epoch_body _ _ HR HQ HA); exact HI |].
    intros burning_epoch. apply K, (keeps_run _ _ HR HQ HA); exact HI.
Qed.

(** ** The ratio used in an epoch *)

Lemma epoch_body_calls (epoch : Z) (s : State) :
  wp (epoch_body epoch)
     (fun _ _ t =>
        Forall (training_call_uses (decayed_tfr epoch)) t /\
        exists t', t = Stdout (L_train_tfr (decayed_tfr epoch)) :: t') s.
Proof.
  unfold epoch_body. wp_run.
  eapply wp_weaken; [apply (train_spec (decayed_tfr epoch)); reflexivity |].
  cbv beta. intros o1 s1 t1 (U1 & [t1' ->] & HR).
  apply Forall_inv_tail in U1.
  destruct o1 as [train_loss | e1]; wp_run.
  2: { split; [trace_uses | eexists; reflexivity]. }
  eapply wp_weaken; [apply (evaluate_spec_calls false (decayed_tfr epoch)) |].
  cbv beta. intros o2 s2 t2 (_ & _ & _ & _ & U2).
  destruct o2 as [[[valid_loss valid_acc] valid_acc_aux] | e2]; wp_run.
  2: { split; [trace_uses | eexists; reflexivity]. }
  eapply wp_weaken; [apply (update_spec valid_loss valid_acc (decayed_tfr epoch)) |].
  cbv beta. intros o3 s3 t3 (_ & _ & _ & _ & _ & U3).
  destruct o3 as [x3 | e3]; wp_run.
  all: try (split; [trace_uses | eexists; reflexivity]).
  all: eapply wp_weaken;
         [apply (update_aux_spec valid_acc_aux (decayed_tfr epoch)) |].
  all: cbv beta; intros o4 s4 t4 (_ & _ & U4).
  all: destruct o4 as [x4 | e4]; wp_run.
  all: split; [trace_uses | eexists; reflexivity].
Qed.

(** ** [update_aux] and the auxiliary record *)

Lemma best_aux_respects (v : float) :
  respects_writes (fun s : State =>
    EvalMemoryBank.best_valid_acc_aux (eval_memory_bank s) = v).
Proof. intros s s' (_ & _ & _ & _ & _ & E & _) H. congruence. Qed.

(** C10: [update_aux] changes no field of the trainer and writes no
    checkpoint, it only prints; and nothing else writes
    [best_valid_acc_aux] either, so that in a run of a freshly built
    trainer every comparison of [update_aux], and every line it prints, is
    against the initial value -1. *)
Theorem update_aux_only_logs :
  (forall valid_acc_aux (s : State),
      let r := update_aux valid_acc_aux s in
      final r = s /\
      outcome r = Return tt /\
      trace r =
        (if float_ge valid_acc_aux
              (EvalMemoryBank.best_valid_acc_aux (eval_memory_bank s))
         then [Stdout L_better_aux] else []) ++
        [Stdout (L_best_aux
                   (EvalMemoryBank.best_valid_acc_aux (eval_memory_bank s)))]) /\
  (forall args (data : Data Batch) mode ratio (w : W),
      EvalMemoryBank.best_valid_acc_aux
        (eval_memory_bank (init args data mode ratio w)) = (-1)%float) /\
  (forall (s : State),
      (forall valid_loss valid_acc,
          keeps_best_aux s (update valid_loss valid_acc s)) /\
      (forall is_test, keeps_best_aux s (evaluate is_test s)) /\
      keeps_best_aux s (train s) /\
      (forall burning_epoch, keeps_best_aux s (run burning_epoch s))) /\
  (forall args (data : Data Batch) mode ratio (w : W) burning_epoch x,
      In (Stdout (L_best_aux x))
         (trace (run burning_epoch (init args data mode ratio w))) ->
      x = (-1)%float).
Proof.
  split; [| split; [| split]].
  - intros valid_acc_aux s. cbv zeta.
    unfold update_aux, bind, get, when, print, emit, ret. simpl.
    destruct (float_ge _ _); simpl; auto.
  - reflexivity.
  - intros s. unfold keeps_best_aux.
    pose proof (best_aux_respects
                  (EvalMemoryBank.best_valid_acc_aux (eval_memory_bank s))) as HR.
    assert (HQ : forall e : Event, (forall x, e <> Stdout (L_best_aux x)) -> True)
      by auto.
    assert (HA : forall s0 : State,
               EvalMemoryBank.best_valid_acc_aux (eval_memory_bank s0) =
               EvalMemoryBank.best_valid_acc_aux (eval_memory_bank s) -> True)
      by auto.
    split; [intros valid_loss valid_acc;
            apply (keeps_update _ _ HR HQ); reflexivity |].
    split; [intros is_test; apply (keeps_evaluate _ _ HR HQ); reflexivity |].
    split; [apply (keeps_train _ _ HR HQ HA); reflexivity |].
    intros burning_epoch. apply (keeps_run _ _ HR HQ HA); reflexivity.
  - intros args data mode ratio w burning_epoch x Hin.
    pose proof (best_aux_respects (-1)%float) as HR.
    pose proof (keeps_run
                  (fun s : State =>
                     EvalMemoryBank.best_valid_acc_aux (eval_memory_bank s) =
                     (-1)%float)
                  (fun e => forall y, e = Stdout (L_best_aux y) -> y = (-1)%float)
                  HR) as K.
    destruct (K ltac:(intros e He y ->; exfalso; apply (He y); reflexivity)
                ltac:(intros s0 H0 y Hy; injection Hy as <-; exact H0)
                burning_epoch (init args data mode ratio w) eq_refl) as [_ HT].
    rewrite Forall_forall in HT. apply (HT _ Hin). reflexivity.
Qed.

(** ** When a training pass evaluates *)

Lemma evaluation_due_in_phase (report_interval i n_steps : Z) :
  0 < report_interval ->
  (n_steps - 1 - i) mod report_interval = 0 ->
  evaluation_due report_interval i n_steps =
  (n_steps mod (10 * report_interval) =? 0).
Proof.
  intros Hr Hn. unfold evaluation_due.
  destruct (Z.eqb_spec (n_steps mod (10 * report_interval)) 0) as [H | H];
    [| apply andb_false_r].
  rewrite andb_true_r. apply Z.eqb_eq.
  apply Z.mod_divide in H; [| lia]. destruct H as [k Hk].
  apply Z.mod_divide in Hn; [| lia]. destruct Hn as [q Hq].
  symmetry. apply (Z.mod_unique_pos _ _ (10 * k - q - 1)); [lia | nia].
Qed.

(** While the batch index and the step count are in phase, every multiple
    of ten reporting intervals is a batch at which an evaluation is due. *)
Lemma evaluations_due_in_phase (report_interval : Z) (len : nat) :
  0 < report_interval ->
  forall i n_steps,
    (n_steps - i) mod report_interval = 0 ->
    evaluations_due report_interval i n_steps len =
    multiples_reached report_interval n_steps len.
Proof.
  intros Hr. induction len as [| len IH]; intros i n_steps Hn; [reflexivity |].
  cbn [evaluations_due multiples_reached].
  rewrite evaluation_due_in_phase;
    [| exact Hr | replace (n_steps + 1 - 1 - i) with (n_steps - i) by lia; exact Hn].
  rewrite IH; [reflexivity |].
  replace (n_steps + 1 - (i + 1)) with (n_steps - i) by lia. exact Hn.
Qed.

(** ** The schedule of the teacher-forcing ratio *)

Lemma In_count_up (len : nat) :
  forall start e, start <= e < start + Z.of_nat len -> In e (count_up start len).
Proof.
  induction len as [| len IH]; intros start e H; [lia |].
  cbn [count_up]. destruct (Z.eq_dec start e) as [-> | Hne]; [left; reflexivity |].
  right. apply IH. lia.
Qed.

Lemma In_py_range (n e : Z) : 0 <= e < n -> In e (py_range n).
Proof. intros H. apply In_count_up. lia. Qed.

Lemma schedule_checked :
  forallb schedule_check (py_range checked_epochs) = true.
Proof. vm_compute. reflexivity. Qed.

Lemma schedule_pairs_checked :
  forallb (fun e1 => forallb (schedule_pair_check e1) (py_range 20))
          (py_range 20) = true.
Proof. vm_compute. reflexivity. Qed.

Lemma schedule_check_holds (e : Z) :
  0 <= e < checked_epochs -> schedule_check e = true.
Proof.
  intros H. pose proof schedule_checked as C.
  rewrite forallb_forall in C. apply C, In_py_range, H.
Qed.

Lemma decayed_tfr_exact_lower (e : Z) : (1 # 5 <= decayed_tfr_exact e)%Q.
Proof. unfold decayed_tfr_exact. apply Q.le_max_r. Qed.

Lemma decayed_tfr_exact_monotone (e1 e2 : Z) :
  e1 <= e2 -> (decayed_tfr_exact e2 <= decayed_tfr_exact e1)%Q.
Proof.
  intros H. unfold decayed_tfr_exact. apply Q.max_le_compat_r.
  rewrite Zle_Qle in H. unfold Qdiv. change (/ 50)%Q with (1 # 50)%Q. lra.
Qed.

Lemma decayed_tfr_checked (e : Z) :
  0 <= e < checked_epochs ->
  is_finite (decayed_tfr e) = true /\
  float_le 0.2%float (decayed_tfr e) = true /\
  (Qabs (Q_of_float (decayed_tfr e) - decayed_tfr_exact e)
   <= 1 # 4503599627370496)%Q /\
  forall e', e <= e' < checked_epochs ->
             float_le (decayed_tfr e') (decayed_tfr e) = true.
Proof.
  intros H. pose proof (schedule_check_holds e H) as C.
  unfold schedule_check in C. cbv zeta in C.
  apply andb_prop in C. destruct C as [C C4].
  apply andb_prop in C. destruct C as [C C3].
  apply andb_prop in C. destruct C as [C1 C2].
  split; [exact C1 |]. split; [exact C2 |].
  split; [apply Qle_bool_iff; exact C3 |].
  intros e' H'. destruct (Z.ltb_spec e' 20) as [Hlt | Hge].
  - pose proof schedule_pairs_checked as P.
    rewrite forallb_forall in P.
    assert (P1 := P e (In_py_range 20 e ltac:(lia))).
    rewrite forallb_forall in P1.
    assert (P2 := P1 e' (In_py_range 20 e' ltac:(lia))).
    unfold schedule_pair_check in P2.
    destruct (Z.leb_spec e e'); [exact P2 | lia].
  - pose proof (schedule_check_holds e' ltac:(lia)) as C'.
    unfold schedule_check in C'. cbv zeta in C'.
    apply andb_prop in C'. destruct C' as [_ C'].
    destruct (Z.leb_spec 20 e'); [| lia].
    apply FloatAxioms.Leibniz.eqb_spec in C'. rewrite C'. exact C2.
Qed.

(** ** The order of binary64 values *)

Lemma SFleb_key (f1 f2 : spec_float) :
  f1 <> S754_nan -> f2 <> S754_nan ->
  (SFleb f1 f2 = true <-> key_le (SFkey f1) (SFkey f2)).
Proof.
  intros N1 N2. unfold SFleb.
  destruct f1 as [s1 | s1 | | s1 m1 e1], f2 as [s2 | s2 | | s2 m2 e2];
    try congruence;
    try destruct s1; try destruct s2; simpl;
    try (split; [intros _; lia | reflexivity]);
    try (split; [discriminate | intros H; exfalso; lia]).
  - change (PosDef.Pos.compare_cont Eq m1 m2) with (Pos.compare m1 m2).
    destruct (Z.compare_spec e1 e2); [destruct (Pos.compare_spec m1 m2) |..]; simpl;
      split; intros; try discriminate; try reflexivity; lia.
  - change (PosDef.Pos.compare_cont Eq m1 m2) with (Pos.compare m1 m2).
    destruct (Z.compare_spec e1 e2); [destruct (Pos.compare_spec m1 m2) |..]; simpl;
      split; intros; try discriminate; try reflexivity; lia.
Qed.

Lemma SFleb_not_nan (f1 f2 : spec_float) :
  SFleb f1 f2 = true -> f1 <> S754_nan /\ f2 <> S754_nan.
Proof.
  unfold SFleb. destruct f1, f2; simpl; try discriminate; split; discriminate.
Qed.

Lemma is_nan_spec (x : float) :
  PrimFloat.is_nan x = true <-> Prim2SF x = S754_nan.
Proof.
  unfold PrimFloat.is_nan. rewrite FloatAxioms.eqb_spec. unfold SFeqb.
  destruct (Prim2SF x) as [s | s | | s m e]; simpl.
  - split; discriminate.
  - destruct s; split; discriminate.
  - split; reflexivity.
  - rewrite Z.compare_refl.
    change (PosDef.Pos.compare_cont Eq m m) with (Pos.compare m m).
    rewrite Pos.compare_refl. destruct s; split; discriminate.
Qed.

Lemma is_nan_false (x : float) :
  PrimFloat.is_nan x = false <-> Prim2SF x <> S754_nan.
Proof.
  rewrite <- is_nan_spec. destruct (PrimFloat.is_nan x); split; congruence.
Qed.

(** No comparison with [nan] holds. *)
Lemma float_le_nan (x y : float) :
  PrimFloat.is_nan x = true \/ PrimFloat.is_nan y = true ->
  float_le x y = false.
Proof.
  unfold float_le. rewrite FloatAxioms.leb_spec, !is_nan_spec.
  intros [H | H]; rewrite H; unfold SFleb; simpl; [reflexivity |].
  destruct (Prim2SF x); reflexivity.
Qed.

Lemma float_le_true (x y : float) :
  float_le x y = true ->
  PrimFloat.is_nan x = false /\ PrimFloat.is_nan y = false.
Proof.
  unfold float_le. rewrite FloatAxioms.leb_spec, !is_nan_false.
  apply SFleb_not_nan.
Qed.

Lemma float_le_refl (x : float) :
  PrimFloat.is_nan x = false -> float_le x x = true.
Proof.
  unfold float_le. rewrite FloatAxioms.leb_spec, is_nan_false. intros N.
  apply SFleb_key; [exact N | exact N |].
  unfold key_le. destruct (SFkey (Prim2SF x)) as [[a b] c]. lia.
Qed.

Lemma float_le_total (x y : float) :
  PrimFloat.is_nan x = false -> PrimFloat.is_nan y = false ->
  float_le x y = false -> float_le y x = true.
Proof.
  unfold float_le. rewrite !FloatAxioms.leb_spec, !is_nan_false. intros Nx Ny H.
  apply SFleb_key; [exact Ny | exact Nx |].
  destruct (SFleb (Prim2SF x) (Prim2SF y)) eqn:E; [discriminate |].
  assert (K : ~ key_le (SFkey (Prim2SF x)) (SFkey (Prim2SF y))).
  { intros K. apply (SFleb_key _ _ Nx Ny) in K. congruence. }
  unfold key_le in *.
  destruct (SFkey (Prim2SF x)) as [[a b] c], (SFkey (Prim2SF y)) as [[a' b'] c'].
  lia.
Qed.

Lemma float_le_trans (x y z : float) :
  float_le x y = true -> float_le y z = true -> float_le x z = true.
Proof.
  unfold float_le. rewrite !FloatAxioms.leb_spec. intros H1 H2.
  destruct (SFleb_not_nan _ _ H1) as (Nx & Ny).
  destruct (SFleb_not_nan _ _ H2) as (_ & Nz).
  apply (SFleb_key _ _ Nx Ny) in H1. apply (SFleb_key _ _ Ny Nz) in H2.
  apply (SFleb_key _ _ Nx Nz).
  unfold key_le in *.
  destruct (SFkey (Prim2SF x)) as [[a b] c], (SFkey (Prim2SF y)) as [[a' b'] c'],
    (SFkey (Prim2SF z)) as [[a'' b''] c''].
  lia.
Qed.

Lemma bind_inv {A B} (m : M W Batch A) (f : A -> M W Batch B) (s : State) (b : B) :
  outcome (bind m f s) = Return b ->
  exists a,
    outcome (m s) = Return a /\
    outcome (f a (final (m s))) = Return b /\
    final (bind m f s) = final (f a (final (m s))) /\
    trace (bind m f s) = trace (m s) ++ trace (f a (final (m s))).
Proof.
  unfold bind. destruct (m s) as [[a | e] s' t]; simpl; [| discriminate].
  destruct (f a s') as [o s'' t'] eqn:E; simpl. intros ->.
  exists a. rewrite E. simpl. auto.
Qed.

(** The record [update] leaves, field by field. *)
Lemma update_records (valid_loss valid_acc : float) (s : State) :
  let b := eval_memory_bank s in
  let b' := eval_memory_bank (final (update valid_loss valid_acc s)) in
  let loss_improved := float_le valid_loss (EvalMemoryBank.best_valid_loss b) in
  let acc_improved := float_ge valid_acc (EvalMemoryBank.best_valid_acc b) in
  EvalMemoryBank.best_valid_loss b' =
    (if loss_improved then valid_loss else EvalMemoryBank.best_valid_loss b) /\
  EvalMemoryBank.early_stopping_patience b' =
    (if loss_improved then early_stopping_patience s
     else Z.max (EvalMemoryBank.early_stopping_patience b - 1) 0) /\
  EvalMemoryBank.best_valid_acc b' =
    (if acc_improved then valid_acc else EvalMemoryBank.best_valid_acc b) /\
  EvalMemoryBank.acc_valid_loss b' =
    (if acc_improved then valid_loss else EvalMemoryBank.acc_valid_loss b) /\
  EvalMemoryBank.best_valid_epoch b' =
    (if acc_improved then TrainMemoryBank.n_epoch (train_memory_bank s)
     else EvalMemoryBank.best_valid_epoch b) /\
  EvalMemoryBank.best_train_step b' =
    (if acc_improved then TrainMemoryBank.n_steps (train_memory_bank s)
     else EvalMemoryBank.best_train_step b) /\
  early_stopping_patience (final (update valid_loss valid_acc s)) =
    early_stopping_patience s.
Proof.
  cbv zeta.
  update_cases valid_loss valid_acc s.
  all: repeat split; reflexivity.
Qed.

(** The checkpoints [update] writes, in order. *)
Lemma update_saves (valid_loss valid_acc : float) (s : State) :
  let b := eval_memory_bank s in
  let n := TrainMemoryBank.exp_num (train_memory_bank s) in
  let criterion := ArgsFeeder.valid_criterion (args_feeder s) in
  filter is_torch_save (trace (update valid_loss valid_acc s)) =
    (if float_le valid_loss (EvalMemoryBank.best_valid_loss b) && is_loss criterion
     then [TorchSave loss_model n] else []) ++
    (if float_ge valid_acc (EvalMemoryBank.best_valid_acc b) && is_acc criterion
     then [TorchSave acc_model n] else []).
Proof.
  cbv zeta.
  update_cases valid_loss valid_acc s.
  all: reflexivity.
Qed.

Lemma In_torch_save (c : Checkpoint) (n : Z) (t : list Event) :
  In (TorchSave c n) t <-> In (TorchSave c n) (filter is_torch_save t).
Proof. rewrite filter_In. simpl. tauto. Qed.

(** X9: a [nan] never counts as an improvement, neither as the new value
    nor as the record held: the call leaves the record as it is, costs one
    unit of patience when it is the loss, and writes no checkpoint for
    it. *)
Theorem update_ignores_nan (valid_loss valid_acc : float) (s : State) :
  let r := update valid_loss valid_acc s in
  let b := eval_memory_bank s in
  let b' := eval_memory_bank (final r) in
  (PrimFloat.is_nan valid_loss = true \/
   PrimFloat.is_nan (EvalMemoryBank.best_valid_loss b) = true ->
   EvalMemoryBank.best_valid_loss b' = EvalMemoryBank.best_valid_loss b /\
   EvalMemoryBank.early_stopping_patience b' =
     Z.max (EvalMemoryBank.early_stopping_patience b - 1) 0 /\
   forall n, ~ In (TorchSave loss_model n) (trace r)) /\
  (PrimFloat.is_nan valid_acc = true \/
   PrimFloat.is_nan (EvalMemoryBank.best_valid_acc b) = true ->
   EvalMemoryBank.best_valid_acc b' = EvalMemoryBank.best_valid_acc b /\
   EvalMemoryBank.acc_valid_loss b' = EvalMemoryBank.acc_valid_loss b /\
   EvalMemoryBank.best_valid_epoch b' = EvalMemoryBank.best_valid_epoch b /\
   EvalMemoryBank.best_train_step b' = EvalMemoryBank.best_train_step b /\
   forall n, ~ In (TorchSave acc_model n) (trace r)).
Proof.
  cbv zeta.
  destruct (update_records valid_loss valid_acc s) as (R1 & R2 & R3 & R4 & R5 & R6 & _).
  pose proof (update_saves valid_loss valid_acc s) as Sv. cbv zeta in Sv.
  split; intros N.
  - apply float_le_nan in N. rewrite N in *. rewrite R1, R2.
    split; [reflexivity |]. split; [reflexivity |].
    intros n Hin. apply In_torch_save in Hin. rewrite Sv in Hin. simpl in Hin.
    destruct (float_ge valid_acc _ && is_acc _); simpl in Hin;
      [destruct Hin as [Hin | []]; discriminate | destruct Hin].
  - assert (N' : float_ge valid_acc
                   (EvalMemoryBank.best_valid_acc (eval_memory_bank s)) = false).
    { unfold float_ge. apply float_le_nan. tauto. }
    rewrite N' in *. rewrite R3, R4, R5, R6.
    repeat (split; [reflexivity |]).
    intros n Hin. apply In_torch_save in Hin. rewrite Sv in Hin.
    rewrite app_nil_r in Hin.
    destruct (float_le valid_loss _ && is_loss _); simpl in Hin;
      [destruct Hin as [Hin | []]; discriminate | destruct Hin].
Qed.

Local Abbreviation updates := (@updates W Batch math_exp_overflows).

Lemma updates_cons (valid_loss valid_acc : float) (rest : list (float * float))
    (s : State) :
  outcome (updates ((valid_loss, valid_acc) :: rest) s) = Return tt ->
  outcome (update valid_loss valid_acc s) = Return tt /\
  outcome (updates rest (final (update valid_loss valid_acc s))) = Return tt /\
  final (updates ((valid_loss, valid_acc) :: rest) s) =
    final (updates rest (final (update valid_loss valid_acc s))).
Proof.
  change (updates ((valid_loss, valid_acc) :: rest) s)
    with (bind (update valid_loss valid_acc) (fun _ => updates rest) s).
  intros H. apply bind_inv in H.
  destruct H as ([] & H1 & H2 & H3 & _). auto.
Qed.

Lemma updates_best_loss (values : list (float * float)) :
  forall s : State,
    outcome (updates values s) = Return tt ->
    PrimFloat.is_nan (EvalMemoryBank.best_valid_loss (eval_memory_bank s)) = false ->
    let best := EvalMemoryBank.best_valid_loss (eval_memory_bank s) in
    let best' := EvalMemoryBank.best_valid_loss
                   (eval_memory_bank (final (updates values s))) in
    float_le best' best = true /\
    (forall valid_loss valid_acc,
        In (valid_loss, valid_acc) values ->
        PrimFloat.is_nan valid_loss = false ->
        float_le best' valid_loss = true) /\
    (best' = best \/ exists valid_acc, In (best', valid_acc) values).
Proof.
  induction values as [| [v a] rest IH]; intros s Hret Hnan; cbv zeta.
  - simpl. split; [apply float_le_refl; exact Hnan |].
    split; [intros ? ? [] | left; reflexivity].
  - apply updates_cons in Hret. destruct Hret as (_ & Hrest & ->).
    destruct (update_records v a s) as (R1 & _).
    set (s1 := final (update v a s)) in *.
    set (best := EvalMemoryBank.best_valid_loss (eval_memory_bank s)) in *.
    assert (N1 : PrimFloat.is_nan
                   (EvalMemoryBank.best_valid_loss (eval_memory_bank s1)) = false).
    { rewrite R1. destruct (float_le v best) eqn:E; [| exact Hnan].
      apply float_le_true in E. tauto. }
    assert (L1 : float_le (EvalMemoryBank.best_valid_loss (eval_memory_bank s1))
                          best = true).
    { rewrite R1. destruct (float_le v best) eqn:E; [exact E |].
      apply float_le_refl. exact Hnan. }
    assert (L2 : PrimFloat.is_nan v = false ->
                 float_le (EvalMemoryBank.best_valid_loss (eval_memory_bank s1))
                          v = true).
    { intros Nv. rewrite R1. destruct (float_le v best) eqn:E.
      - apply float_le_refl. exact Nv.
      - apply float_le_total; assumption. }
    destruct (IH s1 Hrest N1) as (I1 & I2 & I3).
    split; [eapply float_le_trans; eassumption |]. split.
    + intros vl va [Heq | Hin] Nv.
      * injection Heq as <- <-. eapply float_le_trans; [exact I1 | auto].
      * eapply I2; eassumption.
    + destruct I3 as [I3 | (va & Hin)].
      * rewrite I3, R1. destruct (float_le v best).
        -- right. exists a. left. reflexivity.
        -- left. reflexivity.
      * right. exists va. right. exact Hin.
Qed.

Lemma updates_best_acc (values : list (float * float)) :
  forall s : State,
    outcome (updates values s) = Return tt ->
    PrimFloat.is_nan (EvalMemoryBank.best_valid_acc (eval_memory_bank s)) = false ->
    let b := eval_memory_bank s in
    let b' := eval_memory_bank (final (updates values s)) in
    float_ge (EvalMemoryBank.best_valid_acc b') (EvalMemoryBank.best_valid_acc b) = true /\
    (forall valid_loss valid_acc,
        In (valid_loss, valid_acc) values ->
        PrimFloat.is_nan valid_acc = false ->
        float_ge (EvalMemoryBank.best_valid_acc b') valid_acc = true) /\
    (EvalMemoryBank.best_valid_acc b' = EvalMemoryBank.best_valid_acc b /\
     EvalMemoryBank.acc_valid_loss b' = EvalMemoryBank.acc_valid_loss b \/
     In (EvalMemoryBank.acc_valid_loss b', EvalMemoryBank.best_valid_acc b') values).
Proof.
  change float_ge with (fun a b => float_le b a). cbv beta.
  induction values as [| [v a] rest IH]; intros s Hret Hnan; cbv zeta.
  - simpl. split; [apply float_le_refl; exact Hnan |].
    split; [intros ? ? [] | left; split; reflexivity].
  - apply updates_cons in Hret. destruct Hret as (_ & Hrest & ->).
    destruct (update_records v a s) as (_ & _ & R3 & R4 & _).
    change float_ge with (fun a b => float_le b a) in R3, R4. cbv beta in R3, R4.
    set (s1 := final (update v a s)) in *.
    set (best := EvalMemoryBank.best_valid_acc (eval_memory_bank s)) in *.
    assert (N1 : PrimFloat.is_nan
                   (EvalMemoryBank.best_valid_acc (eval_memory_bank s1)) = false).
    { rewrite R3. destruct (float_le best a) eqn:E; [| exact Hnan].
      apply float_le_true in E. tauto. }
    assert (L1 : float_le best
                   (EvalMemoryBank.best_valid_acc (eval_memory_bank s1)) = true).
    { rewrite R3. destruct (float_le best a) eqn:E; [exact E |].
      apply float_le_refl. exact Hnan. }
    assert (L2 : PrimFloat.is_nan a = false ->
                 float_le a
                   (EvalMemoryBank.best_valid_acc (eval_memory_bank s1)) = true).
    { intros Na. rewrite R3. destruct (float_le best a) eqn:E.
      - apply float_le_refl. exact Na.
      - apply float_le_total; assumption. }
    destruct (IH s1 Hrest N1) as (I1 & I2 & I3).
    split; [eapply float_le_trans; eassumption |]. split.
    + intros vl va [Heq | Hin] Nv.
      * injection Heq as <- <-. eapply float_le_trans; [| exact I1]. auto.
      * eapply I2; eassumption.
    + destruct I3 as [(I3 & I4) | Hin].
      * rewrite I3, I4, R3, R4. destruct (float_le best a).
        -- right. left. reflexivity.
        -- left. split; reflexivity.
      * right. right. exact Hin.
Qed.

(** X10: over a sequence of calls of [update] that all return, the record
    is the best value seen: the best validation loss ends at most at the
    value it started from and at most at every loss passed that is a
    number, and it is one of these values; likewise the best accuracy is
    the greatest, and the loss recorded with it is the loss that was passed
    together with it. *)
Theorem updates_keep_the_best (values : list (float * float)) (s : State) :
  outcome (updates values s) = Return tt ->
  let b := eval_memory_bank s in
  let b' := eval_memory_bank (final (updates values s)) in
  (PrimFloat.is_nan (EvalMemoryBank.best_valid_loss b) = false ->
   float_le (EvalMemoryBank.best_valid_loss b') (EvalMemoryBank.best_valid_loss b) = true /\
   (forall valid_loss valid_acc,
       In (valid_loss, valid_acc) values ->
       PrimFloat.is_nan valid_loss = false ->
       float_le (EvalMemoryBank.best_valid_loss b') valid_loss = true) /\
   (EvalMemoryBank.best_valid_loss b' = EvalMemoryBank.best_valid_loss b \/
    exists valid_acc, In (EvalMemoryBank.best_valid_loss b', valid_acc) values)) /\
  (PrimFloat.is_nan (EvalMemoryBank.best_valid_acc b) = false ->
   float_ge (EvalMemoryBank.best_valid_acc b') (EvalMemoryBank.best_valid_acc b) = true /\
   (forall valid_loss valid_acc,
       In (valid_loss, valid_acc) values ->
       PrimFloat.is_nan valid_acc = false ->
       float_ge (EvalMemoryBank.best_valid_acc b') valid_acc = true) /\
   (EvalMemoryBank.best_valid_acc b' = EvalMemoryBank.best_valid_acc b /\
    EvalMemoryBank.acc_valid_loss b' = EvalMemoryBank.acc_valid_loss b \/
    In (EvalMemoryBank.acc_valid_loss b', EvalMemoryBank.best_valid_acc b') values)).
Proof.
  intros Hret. cbv zeta. split; intros Hnan.
  - apply (updates_best_loss values s Hret Hnan).
  - apply (updates_best_acc values s Hret Hnan).
Qed.

(** X11: the patience counts the calls in a row that bring no improvement
    of the loss: after [k] of them it is the patience held before, less
    [k], and 0 once [k] reaches it; the best loss stays. *)
Theorem updates_patience_countdown (values : list (float * float)) (s : State) :
  outcome (updates values s) = Return tt ->
  0 <= patience s ->
  (forall valid_loss valid_acc,
      In (valid_loss, valid_acc) values ->
      float_le valid_loss
        (EvalMemoryBank.best_valid_loss (eval_memory_bank s)) = false) ->
  let s' := final (updates values s) in
  patience s' = Z.max (patience s - Z.of_nat (List.length values)) 0 /\
  EvalMemoryBank.best_valid_loss (eval_memory_bank s') =
    EvalMemoryBank.best_valid_loss (eval_memory_bank s).
Proof.
  revert s. induction values as [| [v a] rest IH]; intros s Hret Hp Hworse; cbv zeta.
  - simpl. split; [lia | reflexivity].
  - apply updates_cons in Hret. destruct Hret as (_ & Hrest & ->).
    destruct (update_records v a s) as (R1 & R2 & _).
    rewrite (Hworse v a (or_introl eq_refl)) in R1, R2.
    set (s1 := final (update v a s)) in *.
    assert (P1 : patience s1 = Z.max (patience s - 1) 0) by exact R2.
    destruct (IH s1 Hrest) as (I1 & I2).
    + rewrite P1. lia.
    + intros vl va Hin. rewrite R1. apply (Hworse vl va). right. exact Hin.
    + rewrite I1, I2, P1, R1. split; [| reflexivity].
      cbn [List.length]. lia.
Qed.

(** ** Accounting for forward calls and for the lines of [run] *)

Lemma wp_conj {A} (m : M W Batch A)
    (post post' : Outcome A -> State -> list Event -> Prop) (s : State) :
  wp m post s -> wp m post' s -> wp m (fun o s' t => post o s' t /\ post' o s' t) s.
Proof. unfold wp. auto. Qed.

Lemma count_cons (f : Event -> bool) (e : Event) (t : list Event) :
  count f (e :: t) = ((if f e then 1 else 0) + count f t)%nat.
Proof. unfold count. simpl. destruct (f e); reflexivity. Qed.

Lemma count_nil (f : Event -> bool) : count f [] = 0%nat.
Proof. reflexivity. Qed.

Lemma count_zero (f : Event -> bool) (P : Event -> Prop) (t : list Event) :
  (forall e, P e -> f e = false) -> Forall P t -> count f t = 0%nat.
Proof.
  intros HP Ht. induction Ht as [| e t He _ IH]; [reflexivity |].
  rewrite count_cons, (HP e He), IH. reflexivity.
Qed.

Lemma evaluate_event_inner (e : Event) : evaluate_event e -> inner_event e.
Proof. destruct e as [[] | | |]; simpl; auto. Qed.

Lemma evaluate_event_not_training (e : Event) :
  evaluate_event e -> is_training_call e = false.
Proof.
  destruct e as [l | c n | [] ratio | m]; simpl; intros H; try reflexivity.
  destruct H; discriminate.
Qed.

Lemma inner_event_lines (e : Event) :
  inner_event e -> is_epoch_line e = false /\ is_early_stopping e = false.
Proof. destruct e as [[] | | |]; simpl; intros H; try destruct H; auto. Qed.

(** Splits the count over a trace into the counts over its parts and
    uses the counts known for them. *)
Ltac count_parts :=
  rewrite ?app_nil_r;
  repeat first [rewrite count_app | rewrite count_cons | rewrite count_nil];
  cbn [is_training_call is_evaluation_call is_epoch_line is_early_stopping];
  repeat match goal with
         | H : count _ _ = _ |- _ => rewrite H; clear H
         end;
  try lia.

Ltac inner_trace :=
  simpl; rewrite ?app_nil_r;
  repeat first
    [ assumption
    | apply Forall_nil
    | apply Forall_cons; [exact I |]
    | apply Forall_app; split ].

Lemma update_inner (valid_loss valid_acc : float) (s : State) :
  Forall inner_event (trace (update valid_loss valid_acc s)) /\
  count is_training_call (trace (update valid_loss valid_acc s)) = 0%nat /\
  count is_evaluation_call (trace (update valid_loss valid_acc s)) = 0%nat.
Proof.
  update_cases valid_loss valid_acc s.
  all: split; [repeat constructor | split; reflexivity].
Qed.

Lemma update_aux_inner (valid_acc_aux : float) (s : State) :
  Forall inner_event (trace (update_aux valid_acc_aux s)) /\
  count is_training_call (trace (update_aux valid_acc_aux s)) = 0%nat /\
  count is_evaluation_call (trace (update_aux valid_acc_aux s)) = 0%nat.
Proof.
  unfold update_aux, bind, get, when, print, emit, ret. simpl.
  destruct (float_ge _ _); simpl.
  all: split; [repeat constructor | split; reflexivity].
Qed.

Lemma evaluate_loop_calls (batches : list Batch) :
  forall (acc : float * Z * Z) (s : State),
    model_training s = false ->
    wp (evaluate_loop batches acc)
       (fun o _ t =>
          forall x, o = Return x ->
                    count is_evaluation_call t = List.length batches) s.
Proof.
  induction batches as [| batch rest IH]; intros acc s Hm; simpl.
  - wp_run. reflexivity.
  - wp_run.
    all: try (eapply wp_weaken;
              [ apply IH; simpl; assumption
              | cbv beta; intros o s' t H x Hx; specialize (H x Hx) ]).
    all: try (intros; discriminate).
    all: rewrite Hm; count_parts.
Qed.

Lemma evaluate_count (is_test : bool) (s : State) :
  wp (evaluate is_test)
     (fun o _ t =>
        forall x, o = Return x ->
          count is_evaluation_call t =
          List.length (if negb is_test then valid_iter (data_container s)
                       else test_iter (data_container s))) s.
Proof.
  unfold evaluate. wp_run. fields.
  eapply wp_weaken; [apply evaluate_loop_calls; reflexivity |].
  cbv beta. intros o s' t H.
  destruct o as [[[epoch_loss correct] correct_aux] | e]; wp_run.
  all: try (intros; discriminate).
  all: intros x _; specialize (H _ eq_refl).
  all: simpl; count_parts.
Qed.

Lemma evaluate_calls (is_test : bool) (s : State) :
  wp (evaluate is_test)
     (fun o _ t =>
        Forall inner_event t /\
        count is_training_call t = 0%nat /\
        forall x, o = Return x ->
          count is_evaluation_call t =
          List.length (if negb is_test then valid_iter (data_container s)
                       else test_iter (data_container s))) s.
Proof.
  pose proof (evaluate_spec is_test s) as H1.
  pose proof (evaluate_count is_test s) as H2.
  unfold wp in *. destruct H1 as (_ & _ & _ & t' & E & Ht).
  split; [| split; [| exact H2]]; rewrite E.
  - constructor; [exact I |].
    eapply Forall_impl; [| exact Ht]. exact evaluate_event_inner.
  - rewrite count_cons. simpl.
    apply (count_zero _ _ _ evaluate_event_not_training Ht).
Qed.

Lemma periodic_evaluation_calls (s : State) :
  wp periodic_evaluation
     (fun o _ t =>
        Forall inner_event t /\
        count is_training_call t = 0%nat /\
        forall x, o = Return x ->
          count is_evaluation_call t =
          (List.length (valid_iter (data_container s)) +
           List.length (test_iter (data_container s)))%nat) s.
Proof.
  unfold periodic_evaluation. wp_run.
  eapply wp_weaken;
    [apply wp_conj; [apply (evaluate_spec false) | apply (evaluate_calls false)] |].
  cbv beta. intros o1 s1 t1 [(F1 & _) (I1 & T1 & E1)].
  assert (D1 : data_container s1 = data_container s) by apply F1.
  destruct o1 as [[[valid_loss valid_acc] valid_acc_aux] | e1]; wp_run.
  2: { split; [inner_trace | split; [count_parts | discriminate]]. }
  specialize (E1 _ eq_refl). cbn [negb] in E1.
  eapply wp_weaken; [apply (evaluate_calls true) |].
  cbv beta. intros o2 s2 t2 (I2 & T2 & E2). rewrite D1 in E2.
  destruct o2 as [x2 | e2]; wp_run.
  2: { split; [inner_trace | split; [count_parts | discriminate]]. }
  specialize (E2 _ eq_refl). cbn [negb] in E2.
  eapply wp_weaken; [apply wp_exact |].
  cbv beta. intros o3 s3 t3 (-> & -> & ->).
  destruct (update_inner valid_loss valid_acc s2) as (I3 & T3 & E3).
  destruct (outcome (update valid_loss valid_acc s2)) as [x3 | e3]; wp_run.
  3: { split; [inner_trace | split; [count_parts | discriminate]]. }
  - eapply wp_weaken; [apply wp_exact |].
    cbv beta. intros o4 s4 t4 (-> & -> & ->).
    destruct (update_aux_inner valid_acc_aux (final (update valid_loss valid_acc s2)))
      as (I4 & T4 & E4).
    destruct (outcome (update_aux valid_acc_aux _)) as [x4 | e4]; wp_run.
    + split; [inner_trace | split; [count_parts | intros _ _; count_parts]].
    + split; [inner_trace | split; [count_parts | discriminate]].
  - split; [inner_trace | split; [count_parts | intros _ _; count_parts]].
Qed.

Lemma report_calls (i : Z) (running_loss : float) (s : State) :
  wp (report i running_loss)
     (fun o _ t =>
        Forall inner_event t /\
        count is_training_call t = 0%nat /\
        forall x, o = Return x ->
          count is_evaluation_call t =
          if TrainMemoryBank.n_steps (train_memory_bank s)
             mod (10 * TrainMemoryBank.report_interval (train_memory_bank s)) =? 0
          then (List.length (valid_iter (data_container s)) +
                List.length (test_iter (data_container s)))%nat
          else 0%nat) s.
Proof.
  unfold report. wp_run.
  - split; [inner_trace | split; [count_parts | discriminate]].
  - eapply wp_weaken; [apply periodic_evaluation_calls |].
    cbv beta. intros o s' t (I1 & T1 & E1).
    split; [inner_trace | split; [count_parts |]].
    intros x ->. specialize (E1 _ eq_refl). count_parts.
  - split; [inner_trace | split; [count_parts | intros _ _; count_parts]].
Qed.

Lemma train_loop_calls (batches : list Batch) :
  forall (i : Z) (epoch_loss : float) (s : State),
    model_training s = true ->
    model_teacher_forcing_ratio s = tfr s ->
    wp (train_loop i batches epoch_loss)
       (fun o _ t =>
          Forall inner_event t /\
          forall x, o = Return x ->
            count is_training_call t = List.length batches /\
            count is_evaluation_call t =
              (evaluations_due
                 (TrainMemoryBank.report_interval (train_memory_bank s))
                 i (TrainMemoryBank.n_steps (train_memory_bank s))
                 (List.length batches) *
               (List.length (valid_iter (data_container s)) +
                List.length (test_iter (data_container s))))%nat) s.
Proof.
  induction batches as [| batch rest IH]; intros i epoch_loss s Hm Hr.
  - simpl. wp_run. split; [constructor | intros _ _; split; reflexivity].
  - cbn [train_loop]. wp_run.
    all: repeat match goal with
         | H : py_mod _ _ = Return _ |- _ =>
             apply py_mod_return in H; destruct H as [? ?]
         end; fields.
    + eapply wp_weaken;
        [apply wp_conj;
         [apply (report_spec i _ (tfr s)); fields; congruence
         | apply report_calls] |].
      cbv beta. intros o s' t [(F & _ & HR) (I1 & T1 & E1)]. fields.
      destruct o as [x | e].
      * destruct (HR x eq_refl) as (H1 & H2 & _). specialize (E1 _ eq_refl).
        destruct F as (_ & F2 & _ & _ & F5 & F6). fields.
        eapply wp_weaken; [apply (IH (i + 1)); [exact H1 | congruence] |].
        cbv beta. intros o' s'' t' [I2 HR'].
        split; [inner_trace |].
        intros y ->. destruct (HR' y eq_refl) as (A1 & A2).
        rewrite F5, F2 in A2. fields.
        rewrite Hm. cbn [List.length evaluations_due].
        unfold evaluation_due. subst a. rewrite Heqb. cbn [andb].
        destruct (_ =? 0); split; count_parts.
      * split; [inner_trace | discriminate].
    + eapply wp_weaken; [apply (IH (i + 1)); fields; assumption |].
      cbv beta. intros o' s'' t' [I2 HR'].
      split; [inner_trace |].
      intros y ->. destruct (HR' y eq_refl) as (A1 & A2). fields.
      rewrite Hm. cbn [List.length evaluations_due].
      unfold evaluation_due. subst a. rewrite Heqb. cbn [andb].
      split; count_parts.
    + split; [inner_trace | discriminate].
Qed.

Lemma train_calls (s : State) :
  wp train
     (fun o _ t =>
        Forall inner_event t /\
        forall x, o = Return x ->
          count is_training_call t = List.length (train_iter (data_container s)) /\
          count is_evaluation_call t =
            (evaluations_due
               (TrainMemoryBank.report_interval (train_memory_bank s))
               0 (TrainMemoryBank.n_steps (train_memory_bank s))
               (List.length (train_iter (data_container s))) *
             (List.length (valid_iter (data_container s)) +
              List.length (test_iter (data_container s))))%nat) s.
Proof.
  unfold train. wp_run. fields.
  eapply wp_weaken; [apply (train_loop_calls _ 0); reflexivity |].
  cbv beta. intros o s' t [I1 HR]. fields.
  destruct o as [x | e]; wp_run.
  - split; [inner_trace | intros _ _].
    destruct (HR x eq_refl) as (A1 & A2). split; count_parts.
  - split; [inner_trace | discriminate].
  - split; [inner_trace | discriminate].
Qed.

Lemma inner_counts (t : list Event) :
  Forall inner_event t ->
  count is_epoch_line t = 0%nat /\ count is_early_stopping t = 0%nat.
Proof.
  intros H. split.
  - apply (count_zero _ _ _ (fun e He => proj1 (inner_event_lines e He)) H).
  - apply (count_zero _ _ _ (fun e He => proj2 (inner_event_lines e He)) H).
Qed.

Lemma update_account (valid_loss valid_acc : float) (s : State) :
  wp (update valid_loss valid_acc)
     (fun _ s' t =>
        same_settings s s' /\
        Forall inner_event t /\
        count is_training_call t = 0%nat /\
        count is_evaluation_call t = 0%nat) s.
Proof.
  pose proof (update_spec valid_loss valid_acc 0%float s) as H.
  unfold wp in *. destruct H as (H & _).
  split; [exact H | apply update_inner].
Qed.

Lemma update_aux_account (valid_acc_aux : float) (s : State) :
  wp (update_aux valid_acc_aux)
     (fun o s' t =>
        o = Return tt /\ s' = s /\
        Forall inner_event t /\
        count is_training_call t = 0%nat /\
        count is_evaluation_call t = 0%nat) s.
Proof.
  destruct (update_aux_final valid_acc_aux s) as (H1 & H2 & _).
  unfold wp. split; [exact H2 | split; [exact H1 | apply update_aux_inner]].
Qed.

Lemma epoch_body_account (epoch : Z) (s : State) :
  wp (epoch_body epoch)
     (fun o s' t =>
        count is_early_stopping t = 0%nat /\
        forall x, o = Return x -> epoch_done s s' t) s.
Proof.
  unfold epoch_body. wp_run.
  eapply wp_weaken;
    [apply wp_conj;
     [apply (train_spec (decayed_tfr epoch)); reflexivity | apply train_calls] |].
  cbv beta. intros o1 s1 t1 [(_ & _ & HR1) (I1 & C1)]. fields.
  destruct (inner_counts _ I1) as [EL1 ES1].
  destruct o1 as [train_loss | e1]; wp_run.
  2: { split; [count_parts | discriminate]. }
  destruct (HR1 _ eq_refl) as (A1 & _). destruct (C1 _ eq_refl) as (T1 & _).
  clear HR1 C1.
  eapply wp_weaken;
    [apply wp_conj; [apply (evaluate_spec false) | apply (evaluate_calls false)] |].
  cbv beta. intros o2 s2 t2 [(F2 & _) (I2 & T2 & _)].
  destruct (inner_counts _ I2) as [EL2 ES2].
  destruct o2 as [[[valid_loss valid_acc] valid_acc_aux] | e2]; wp_run.
  2: { split; [count_parts | discriminate]. }
  eapply wp_weaken; [apply (update_account valid_loss valid_acc) |].
  cbv beta. intros o3 s3 t3 (F3 & I3 & T3 & _).
  destruct (inner_counts _ I3) as [EL3 ES3].
  destruct o3 as [x3 | e3]; wp_run.
  all: try (split; [count_parts | discriminate]).
  all: try (eapply wp_weaken; [apply (update_aux_account valid_acc_aux) |];
            cbv beta; intros o4 s4 t4 (-> & -> & I4 & T4 & _);
            destruct (inner_counts _ I4) as [EL4 ES4]; wp_run).
  all: try (split; [count_parts | discriminate]).
  all: split; [count_parts | intros _ _].
  all: unfold epoch_done; split; [count_parts | split; [count_parts |]].
  all: frames.
Qed.

Lemma length_count_up (len : nat) (start : Z) :
  List.length (count_up start len) = len.
Proof.
  revert start. induction len as [| len IH]; intros start; simpl;
    [| rewrite IH]; reflexivity.
Qed.

(** How a loop over the epochs ends when it returns: every epoch was
    completed, or the loop stopped early at the head of an epoch with the
    patience at 0; [k] epochs completed took [k] passes over the training
    batches. *)
Lemma run_loop_account (burning_epoch : Z) (epochs : list Z) :
  forall s : State,
    wp (run_loop burning_epoch epochs)
       (fun o s' t =>
          forall x, o = Return x ->
            let k := count is_epoch_line t in
            let n := List.length (train_iter (data_container s)) in
            (k <= List.length epochs)%nat /\
            count is_training_call t = (k * n)%nat /\
            TrainMemoryBank.n_steps (train_memory_bank s') =
              TrainMemoryBank.n_steps (train_memory_bank s) +
              Z.of_nat k * Z.of_nat n /\
            data_container s' = data_container s /\
            (count is_early_stopping t = 0%nat /\ k = List.length epochs \/
             count is_early_stopping t = 1%nat /\
             (k < List.length epochs)%nat /\ patience s' = 0)) s.
Proof.
  induction epochs as [| epoch rest IH]; intros s.
  - simpl. wp_run. intros _ _. cbv zeta. rewrite !count_nil. simpl.
    repeat split; lia.
  - cbn [run_loop]. wp_run.
    eapply wp_weaken; [apply wp_exact |].
    cbv beta. intros o1 s1 t1 (-> & -> & ->).
    assert (H1 : exists stop t1,
               epoch_head burning_epoch epoch s =
                 mkRes (Return stop) (final (epoch_head burning_epoch epoch s)) t1 /\
               count is_epoch_line t1 = 0%nat /\
               count is_training_call t1 = 0%nat /\
               count is_early_stopping t1 = (if stop then 1 else 0)%nat /\
               (stop = true ->
                patience (final (epoch_head burning_epoch epoch s)) = 0) /\
               data_container (final (epoch_head burning_epoch epoch s)) =
                 data_container s /\
               TrainMemoryBank.n_steps
                 (train_memory_bank (final (epoch_head burning_epoch epoch s))) =
                 TrainMemoryBank.n_steps (train_memory_bank s)).
    { destruct (Z.leb_spec epoch burning_epoch) as [Hb | Hb].
      - rewrite (epoch_head_burning _ _ s Hb). cbn [final].
        eexists. eexists. split; [reflexivity |].
        unfold renewed, patience. fields.
        destruct (Z.eqb_spec (early_stopping_patience s) 0);
          repeat split; try reflexivity; try discriminate; auto.
      - rewrite (epoch_head_past _ _ s Hb). cbn [final].
        eexists. eexists. split; [reflexivity |].
        unfold patience. fields.
        destruct (Z.eqb_spec
                    (EvalMemoryBank.early_stopping_patience (eval_memory_bank s)) 0);
          repeat split; try reflexivity; try discriminate; auto. }
    destruct H1 as (stop & t1 & E & EL1 & T1 & ES1 & P1 & D1 & N1).
    rewrite E. cbn [outcome final trace].
    set (s1 := final (epoch_head burning_epoch epoch s)) in *.
    destruct stop; wp_run.
    + intros _ _. cbv zeta. rewrite app_nil_r, EL1, T1, ES1. cbn [List.length].
      split; [lia |]. split; [lia |]. split; [lia |]. split; [exact D1 |].
      right. split; [reflexivity | split; [lia | apply P1; reflexivity]].
    + eapply wp_weaken; [apply epoch_body_account |].
      cbv beta. intros o2 s2 t2 (ES2 & D2).
      destruct o2 as [x2 | e2]; [| intros; discriminate].
      destruct (D2 _ eq_refl) as (EL2 & T2 & _ & DC2 & _ & _ & TM2). clear D2.
      eapply wp_weaken; [apply IH |].
      cbv beta. intros o3 s3 t3 H3 x ->.
      specialize (H3 _ eq_refl). cbv zeta in H3.
      destruct H3 as (K3 & T3 & N3 & DC3 & Hend).
      rewrite DC2, D1 in *. rewrite TM2 in N3. fields. rewrite N1 in N3.
      cbv zeta. cbn [List.length].
      set (n := List.length (train_iter (data_container s))) in *.
      repeat rewrite count_app. rewrite EL1, EL2, T1, T2, ES1, ES2, T3.
      set (k := count is_epoch_line t3) in *.
      split; [lia |]. split; [lia |]. split; [lia |].
      split; [congruence |].
      destruct Hend as [(E0 & Hk) | (E1 & Hk & P)]; [left | right]; rewrite ?E0, ?E1;
        repeat split; try lia; auto.
Qed.

Lemma run_unfold (burning_epoch : Z) (s : State) :
  run burning_epoch s =
  run_loop burning_epoch
    (py_range (TrainMemoryBank.total_epochs (train_memory_bank s))) s.
Proof.
  unfold run, bind, get.
  destruct (run_loop burning_epoch _ s) as [o s' t]. reflexivity.
Qed.

Lemma In_count_up_inv (len : nat) :
  forall start e, In e (count_up start len) -> start <= e < start + Z.of_nat len.
Proof.
  induction len as [| len IH]; intros start e; simpl; [intros [] |].
  intros [<- | H]; [lia |]. apply IH in H. lia.
Qed.

Lemma length_py_range (n : Z) : List.length (py_range n) = Z.to_nat n.
Proof. apply length_count_up. Qed.

Lemma py_range_below (n : Z) : Forall (fun e => e <= n - 1) (py_range n).
Proof.
  apply Forall_forall. intros e H. apply In_count_up_inv in H. lia.
Qed.

Lemma run_loop_burning (burning_epoch : Z) (epochs : list Z) :
  Forall (fun e => e <= burning_epoch) epochs ->
  forall s : State,
    early_stopping_patience s <> 0 ->
    wp (run_loop burning_epoch epochs)
       (fun _ _ t => count is_early_stopping t = 0%nat) s.
Proof.
  induction 1 as [| epoch rest Hb _ IH]; intros s Hp.
  - simpl. wp_run. reflexivity.
  - cbn [run_loop]. wp_run.
    eapply wp_weaken; [apply wp_exact |].
    cbv beta. intros o1 s1 t1 (-> & -> & ->).
    rewrite (epoch_head_burning _ _ s Hb). cbn [outcome final trace].
    destruct (Z.eqb_spec (early_stopping_patience s) 0) as [| _]; [contradiction |].
    wp_run.
    eapply wp_weaken; [apply epoch_body_account |].
    cbv beta. intros o2 s2 t2 (ES2 & D2).
    destruct o2 as [x2 | e2]; [| count_parts].
    destruct (D2 _ eq_refl) as (_ & _ & _ & _ & _ & P2 & _). clear D2.
    unfold renewed in P2. fields.
    eapply wp_weaken; [apply IH; congruence |].
    cbv beta. intros o3 s3 t3 ES3. count_parts.
Qed.

(** X12: a run that returns ended in one of two ways: it completed every
    epoch, or it stopped early, once, at the head of an epoch, with the
    patience at 0.  In both cases each completed epoch made one
    training-mode forward call per training batch, and the step count
    went up by as much: it is not reset from one epoch to the next. *)
Theorem run_completes_or_stops (burning_epoch : Z) (s : State) :
  outcome (run burning_epoch s) = Return tt ->
  let r := run burning_epoch s in
  let k := count is_epoch_line (trace r) in
  let n := List.length (train_iter (data_container s)) in
  let total := Z.to_nat (TrainMemoryBank.total_epochs (train_memory_bank s)) in
  count is_training_call (trace r) = (k * n)%nat /\
  TrainMemoryBank.n_steps (train_memory_bank (final r)) =
    TrainMemoryBank.n_steps (train_memory_bank s) + Z.of_nat k * Z.of_nat n /\
  (count is_early_stopping (trace r) = 0%nat /\ k = total \/
   count is_early_stopping (trace r) = 1%nat /\ (k < total)%nat /\
   patience (final r) = 0).
Proof.
  intros Hret. cbv zeta. rewrite run_unfold in *.
  pose proof (run_loop_account burning_epoch
                (py_range (TrainMemoryBank.total_epochs (train_memory_bank s))) s) as H.
  unfold wp in H. specialize (H tt Hret). cbv zeta in H.
  rewrite !length_py_range in H.
  destruct H as (_ & H1 & H2 & _ & H3).
  split; [exact H1 | split; [exact H2 | exact H3]].
Qed.

(** X13: while every epoch lies in the burning phase, early stopping is
    off: with a configured patience other than 0 the run never stops
    early, whatever the validation results, and a run that returns has
    completed all its epochs. *)
Theorem run_burning_phase_never_stops (burning_epoch : Z) (s : State) :
  early_stopping_patience s <> 0 ->
  TrainMemoryBank.total_epochs (train_memory_bank s) - 1 <= burning_epoch ->
  let r := run burning_epoch s in
  count is_early_stopping (trace r) = 0%nat /\
  (outcome r = Return tt ->
   count is_epoch_line (trace r) =
   Z.to_nat (TrainMemoryBank.total_epochs (train_memory_bank s))).
Proof.
  intros Hp Hb. cbv zeta. rewrite run_unfold.
  assert (Hall : Forall (fun e => e <= burning_epoch)
                   (py_range (TrainMemoryBank.total_epochs (train_memory_bank s)))).
  { eapply Forall_impl; [| apply py_range_below]. cbv beta. intros e He. lia. }
  pose proof (run_loop_burning burning_epoch _ Hall s Hp) as ES. unfold wp in ES.
  split; [exact ES |]. intros Hret.
  pose proof (run_loop_account burning_epoch
                (py_range (TrainMemoryBank.total_epochs (train_memory_bank s))) s) as H.
  unfold wp in H. specialize (H tt Hret). cbv zeta in H.
  rewrite !length_py_range in H.
  destruct H as (_ & _ & _ & _ & [(_ & H) | (H & _)]); [exact H | congruence].
Qed.

Lemma py_range_pos (n : Z) : 0 < n -> exists rest, py_range n = 0 :: rest.
Proof.
  intros H. unfold py_range.
  destruct (Z.to_nat n) as [| len] eqn:E; [lia |].
  simpl. eexists. reflexivity.
Qed.

(** X14: with a configured patience of 0 nothing is trained: the run stops
    at the head of its first epoch, in the burning phase or not, before
    any forward call. *)
Theorem run_zero_patience :
  (forall (burning_epoch : Z) (s : State),
      early_stopping_patience s = 0 ->
      patience s = 0 ->
      0 < TrainMemoryBank.total_epochs (train_memory_bank s) ->
      let r := run burning_epoch s in
      outcome r = Return tt /\
      trace r = (if 0 <=? burning_epoch then [Stdout L_renew_records] else []) ++
                [Stdout L_early_stopping] /\
      count is_model_call (trace r) = 0%nat) /\
  (forall args (data : Data Batch) mode ratio (w : W) (burning_epoch : Z),
      ArgsFeeder.early_stopping_patience args = 0 ->
      0 < ArgsFeeder.total_epochs args ->
      let r := run burning_epoch (init args data mode ratio w) in
      outcome r = Return tt /\
      count is_model_call (trace r) = 0%nat /\
      TrainMemoryBank.n_steps (train_memory_bank (final r)) = 0).
Proof.
  assert (G : forall (burning_epoch : Z) (s : State),
             early_stopping_patience s = 0 ->
             patience s = 0 ->
             0 < TrainMemoryBank.total_epochs (train_memory_bank s) ->
             run burning_epoch s =
             mkRes (Return tt) (final (epoch_head burning_epoch 0 s))
               ((if 0 <=? burning_epoch then [Stdout L_renew_records] else []) ++
                [Stdout L_early_stopping])).
  { intros burning_epoch s He Hp Ht. rewrite run_unfold.
    destruct (py_range_pos _ Ht) as [rest ->].
    assert (Hstop : outcome (epoch_head burning_epoch 0 s) = Return true /\
                    trace (epoch_head burning_epoch 0 s) =
                      (if 0 <=? burning_epoch then [Stdout L_renew_records] else []) ++
                      [Stdout L_early_stopping]).
    { destruct (Z.leb_spec 0 burning_epoch) as [Hb | Hb].
      - rewrite (epoch_head_burning _ _ s Hb), He. split; reflexivity.
      - rewrite (epoch_head_past _ _ s Hb), Hp. split; reflexivity. }
    destruct Hstop as [Ho Htr].
    rewrite (run_loop_stops _ _ _ _ Ho), Htr. reflexivity. }
  split.
  - intros burning_epoch s He Hp Ht. cbv zeta. rewrite (G _ _ He Hp Ht).
    cbn [outcome trace]. split; [reflexivity | split; [reflexivity |]].
    destruct (0 <=? burning_epoch); reflexivity.
  - intros args data mode ratio w burning_epoch He Ht. cbv zeta.
    rewrite (G burning_epoch (init args data mode ratio w)); [| exact He | exact He | exact Ht].
    cbn [outcome trace final]. split; [reflexivity |]. split.
    + destruct (0 <=? burning_epoch); reflexivity.
    + destruct (Z.leb_spec 0 burning_epoch) as [Hb | Hb].
      * rewrite (epoch_head_burning _ _ _ Hb). reflexivity.
      * rewrite (epoch_head_past _ _ _ Hb). reflexivity.
Qed.

(** X15: a completed training pass makes one training-mode forward call
    per training batch, each with the trainer's ratio, and one
    evaluation-mode call per validation and per test batch for each of its
    periodic evaluations; it hands the model back in training mode. *)
Theorem train_forward_calls (s : State) (train_loss : float) :
  outcome (train s) = Return train_loss ->
  let r := train s in
  let data := data_container s in
  let due := evaluations_due
               (TrainMemoryBank.report_interval (train_memory_bank s)) 0
               (TrainMemoryBank.n_steps (train_memory_bank s))
               (List.length (train_iter data)) in
  count is_training_call (trace r) = List.length (train_iter data) /\
  count is_evaluation_call (trace r) =
    (due * (List.length (valid_iter data) + List.length (test_iter data)))%nat /\
  (forall ratio, In (ModelCall true ratio) (trace r) -> ratio = tfr s) /\
  model_training (final r) = true /\
  model_teacher_forcing_ratio (final r) = tfr s.
Proof.
  intros Hret. cbv zeta.
  pose proof (train_calls s) as H1.
  pose proof (train_spec (tfr s) s eq_refl) as H2.
  unfold wp in H1, H2.
  destruct H1 as (_ & H1). destruct (H1 _ Hret) as (C1 & C2).
  destruct H2 as (U & _ & H2). destruct (H2 _ Hret) as (_ & M1 & M2 & _).
  split; [exact C1 | split; [exact C2 | split; [| split; [exact M1 | exact M2]]]].
  intros ratio Hin. rewrite Forall_forall in U. apply (U _ Hin).
Qed.

(** X16: the two ways a training pass divides by zero.  Without training
    batches it raises [ZeroDivisionError] when it averages the loss, after
    announcing the ratio and before any step.  With a report interval of 0
    it raises in its first batch, at the test of the batch index, after
    the optimisation step of that batch has been taken and counted. *)
Theorem train_division_by_zero :
  (forall s : State,
      train_iter (data_container s) = [] ->
      train s =
      mkRes (Raise ZeroDivisionError)
            (set_model_teacher_forcing_ratio (tfr s) (set_model_training true s))
            [Stdout (L_train_tfr (tfr s))]) /\
  (forall (s : State) batch rest,
      train_iter (data_container s) = batch :: rest ->
      TrainMemoryBank.report_interval (train_memory_bank s) = 0 ->
      let r := train s in
      outcome r = Raise ZeroDivisionError /\
      trace r = [Stdout (L_train_tfr (tfr s)); ModelCall true (tfr s)] /\
      TrainMemoryBank.n_steps (train_memory_bank (final r)) =
        TrainMemoryBank.n_steps (train_memory_bank s) + 1 /\
      torch (final r) = fst (train_step (torch s) true (tfr s) batch)).
Proof.
  split.
  - intros s Hempty.
    unfold train, bind, modify, get, print, emit, lift. simpl.
    rewrite Hempty. reflexivity.
  - intros s batch rest Hiter Hzero. cbv zeta.
    unfold train, bind, modify, get, print, emit, lift. simpl.
    rewrite Hiter. cbn [train_loop].
    unfold bind, modify, get, print, emit, lift, modify_train_memory_bank. simpl.
    destruct (train_step (torch s) true (tfr s) batch) as [w loss]. simpl.
    rewrite Hzero. simpl. auto.
Qed.

Lemma evaluations_due_none (report_interval : Z) (len : nat) :
  forall i n_steps,
    0 <= i ->
    report_interval < 0 \/ i + Z.of_nat len < report_interval ->
    evaluations_due report_interval i n_steps len = 0%nat.
Proof.
  induction len as [| len IH]; intros i n_steps Hi Hr; [reflexivity |].
  cbn [evaluations_due]. rewrite IH by lia.
  unfold evaluation_due.
  replace (i mod report_interval =? report_interval - 1) with false; [reflexivity |].
  symmetry. apply Z.eqb_neq.
  destruct Hr as [Hr | Hr].
  - pose proof (Z.mod_neg_bound i report_interval Hr). lia.
  - rewrite Z.mod_small by lia. lia.
Qed.

(** X17: a training pass evaluates only when it reports: with a negative
    report interval, or one greater than the number of training batches,
    no batch index closes an interval, and a completed pass runs no
    evaluation, no update and no scheduler step, whatever the step count
    reaches. *)
Theorem train_never_evaluates (s : State) (train_loss : float) :
  outcome (train s) = Return train_loss ->
  let interval := TrainMemoryBank.report_interval (train_memory_bank s) in
  interval < 0 \/
  Z.of_nat (List.length (train_iter (data_container s))) < interval ->
  tally (trace (train s)) = (0, 0, 0)%nat /\
  count is_evaluation_call (trace (train s)) = 0%nat.
Proof.
  intros Hret interval Hr.
  pose proof (train_calls s) as H1.
  pose proof (train_spec (tfr s) s eq_refl) as H2.
  unfold wp in H1, H2.
  destruct H1 as (_ & H1). destruct (H1 _ Hret) as (_ & C2).
  destruct H2 as (_ & _ & H2). destruct (H2 _ Hret) as (_ & _ & _ & T).
  cbv zeta in T.
  rewrite evaluations_due_none in C2, T by (subst interval; lia).
  split; [exact T | exact C2].
Qed.

(** ** The values an evaluation returns *)

Lemma matching_comparable (itos : list string) (p r : list (list nat)) :
  comparable itos p r -> matching p r itos = Return (matching_spec p r itos).
Proof.
  intros (Hp & Hr & Hlen). apply (matching_loop_spec itos p [] r 0 Hp Hr Hlen).
Qed.

Lemma evaluate_loop_result (batches : list Batch) :
  forall (epoch_loss : float) (correct correct_aux : Z) (s : State),
    model_training s = false ->
    model_teacher_forcing_ratio s = 0%float ->
    let outs := eval_outputs eval_step (torch s) batches in
    Forall (fun out => comparable (trg_itos (data_container s)) (pred out) (ref out))
           outs ->
    (is_multi (task s) = true ->
     Forall (fun out => comparable (auxiliary_itos (data_container s))
                          (pred_aux out) (ref_aux out)) outs) ->
    wp (evaluate_loop batches (epoch_loss, correct, correct_aux))
       (fun o _ _ =>
          o = Return
                (loss_total outs epoch_loss,
                 correct_total (trg_itos (data_container s)) outs correct,
                 if is_multi (task s)
                 then correct_aux_total (auxiliary_itos (data_container s))
                        outs correct_aux
                 else correct_aux)) s.
Proof.
  induction batches as [| batch rest IH];
    intros epoch_loss correct correct_aux s Hm Hr outs Hmain Haux.
  - simpl. wp_run. destruct (is_multi (task s)); reflexivity.
  - subst outs. cbn [eval_outputs] in *.
    cbn [evaluate_loop]. wp_run; fields.
    all: rewrite Hm, Hr in *.
    all: match goal with
         | H : eval_step _ _ _ _ = _ |- _ => rewrite H in *
         end.
    all: inversion Hmain as [| ? ? Hm1 Hm2]; subst.
    all: pose proof (matching_comparable _ _ _ Hm1) as M1.
    all: rewrite M1 in *; try discriminate.
    all: try (specialize (Haux eq_refl); inversion Haux as [| ? ? Ha1 Ha2]; subst;
              pose proof (matching_comparable _ _ _ Ha1) as M2;
              rewrite M2 in *; try discriminate).
    all: repeat match goal with
                | H : Return _ = Return _ |- _ => injection H as <-
                end.
    all: eapply wp_weaken;
           [apply IH; fields;
            first [assumption | exact Hm2 | intros _; exact Ha2 | congruence] |].
    all: cbv beta; intros o s' t ->; fields; rewrite Heqb; reflexivity.
Qed.

Lemma float_div_int_nonzero (x : float) (n : Z) :
  n <> 0 -> float_div_int x n = Return (x / float_of_int n)%float.
Proof. unfold float_div_int. destruct (Z.eqb_spec n 0); [contradiction | reflexivity]. Qed.

Lemma py_truediv_nonzero (a b : Z) :
  b <> 0 -> py_truediv a b = Return (float_of_int a / float_of_int b)%float.
Proof. unfold py_truediv. destruct (Z.eqb_spec b 0); [contradiction | reflexivity]. Qed.

(** X18: what [evaluate] returns.  When every output of the pass can be
    decoded and compared, there is at least one batch and the dataset is
    not empty, [evaluate] returns the sum of the batch losses divided by
    the number of batches, and the number of exact matches over all
    batches, for the main and for the auxiliary task, divided by the
    number of examples of the dataset; in single-task mode the auxiliary
    count is 0.  Without batches it raises [ZeroDivisionError] at the first
    division, before it prints a count. *)
Theorem evaluate_result (is_test : bool) (s : State) :
  let data := data_container s in
  let iterator := if negb is_test then valid_iter data else test_iter data in
  let n_examples := n_examples_of is_test s in
  let outs := eval_outputs eval_step (torch s) iterator in
  (Forall (fun out => comparable (trg_itos data) (pred out) (ref out)) outs ->
   (is_multi (task s) = true ->
    Forall (fun out => comparable (auxiliary_itos data) (pred_aux out) (ref_aux out))
           outs) ->
   iterator <> [] ->
   n_examples <> 0 ->
   outcome (evaluate is_test s) =
   Return
     ((loss_total outs 0 / float_of_int (Z.of_nat (List.length iterator)))%float,
      (float_of_int (correct_total (trg_itos data) outs 0) /
       float_of_int n_examples)%float,
      (float_of_int (if is_multi (task s)
                     then correct_aux_total (auxiliary_itos data) outs 0
                     else 0) /
       float_of_int n_examples)%float)) /\
  (iterator = [] ->
   evaluate is_test s =
   mkRes (Raise ZeroDivisionError)
         (set_model_teacher_forcing_ratio 0%float (set_model_training false s))
         [Stdout (L_eval_start 0)]).
Proof.
  cbv zeta. split.
  - intros Hmain Haux Hne Hn.
    change (wp (evaluate is_test)
              (fun o _ _ =>
                 o = Return
                   ((loss_total
                       (eval_outputs eval_step (torch s)
                          (if negb is_test then valid_iter (data_container s)
                           else test_iter (data_container s))) 0 /
                     float_of_int
                       (Z.of_nat
                          (List.length
                             (if negb is_test then valid_iter (data_container s)
                              else test_iter (data_container s)))))%float,
                    (float_of_int
                       (correct_total (trg_itos (data_container s))
                          (eval_outputs eval_step (torch s)
                             (if negb is_test then valid_iter (data_container s)
                              else test_iter (data_container s))) 0) /
                     float_of_int (n_examples_of is_test s))%float,
                    (float_of_int
                       (if is_multi (task s)
                        then correct_aux_total (auxiliary_itos (data_container s))
                               (eval_outputs eval_step (torch s)
                                  (if negb is_test then valid_iter (data_container s)
                                   else test_iter (data_container s))) 0
                        else 0) /
                     float_of_int (n_examples_of is_test s))%float)) s).
    unfold evaluate. wp_step. wp_step. wp_step. wp_step. wp_step. wp_step.
    wp_step. wp_step. wp_step. fields.
    eapply wp_weaken;
      [apply evaluate_loop_result; fields;
       first [reflexivity | exact Hmain | exact Haux] |].
    cbv beta. intros o s' t ->. fields.
    assert (Hlen : Z.of_nat
                     (List.length
                        (if negb is_test then valid_iter (data_container s)
                         else test_iter (data_container s))) <> 0).
    { destruct (if negb is_test then valid_iter (data_container s)
                else test_iter (data_container s)); [contradiction | simpl; lia]. }
    unfold n_examples_of in *.
    rewrite (float_div_int_nonzero _ _ Hlen).
    wp_run.
    all: rewrite py_truediv_nonzero in * by assumption.
    all: repeat match goal with
                | H : Return _ = Return _ |- _ => injection H as <-
                | H : Return _ = Raise _ |- _ => discriminate H
                end.
    all: reflexivity.
  - intros Hempty.
    unfold evaluate, bind, modify, get, print, emit, lift. simpl.
    rewrite Hempty. reflexivity.
Qed.

(** ** The checkpoints of a run *)

Section Checkpoints.

(** The state the run started from. *)
Variable s0 : State.

Ltac cfg_state :=
  match goal with
  | H : same_configuration s0 _ |- same_configuration s0 _ =>
      unfold same_configuration in *; fields;
      destruct H as (? & ? & ? & ?);
      repeat split; congruence
  end.

Ltac cfg_trace :=
  simpl; rewrite ?app_nil_r;
  repeat first
    [ assumption
    | apply Forall_nil
    | apply Forall_cons; [exact I |]
    | apply Forall_app; split ].

Ltac cfg_done := split; [first [assumption | cfg_state] | cfg_trace].

Lemma configured_update (valid_loss valid_acc : float) (s : State) :
  same_configuration s0 s ->
  wp (update valid_loss valid_acc)
     (fun _ s' t => same_configuration s0 s' /\ Forall (configured_save s0) t) s.
Proof.
  intros H. unfold wp. split.
  - pose proof (update_spec valid_loss valid_acc 0%float s) as U.
    unfold wp in U. destruct U as ((F1 & _ & _ & _ & F5 & _) & _).
    destruct H as (H1 & H2 & H3 & H4).
    unfold same_configuration. rewrite F1, F5. auto.
  - destruct H as (H1 & H2 & _).
    update_cases valid_loss valid_acc s.
    all: repeat (apply Forall_cons; [try exact I |]); try apply Forall_nil.
    all: simpl; rewrite <- H1, <- H2;
         match goal with
         | E : ArgsFeeder.valid_criterion _ = _ |- _ => rewrite E
         end;
         split; reflexivity.
Qed.

Lemma configured_update_aux (valid_acc_aux : float) (s : State) :
  same_configuration s0 s ->
  wp (update_aux valid_acc_aux)
     (fun _ s' t => same_configuration s0 s' /\ Forall (configured_save s0) t) s.
Proof.
  intros H. unfold update_aux. wp_run; cfg_done.
Qed.

Lemma configured_evaluate (is_test : bool) (s : State) :
  same_configuration s0 s ->
  wp (evaluate is_test)
     (fun _ s' t => same_configuration s0 s' /\ Forall (configured_save s0) t) s.
Proof.
  intros H. eapply wp_weaken; [apply evaluate_spec |].
  cbv beta. intros o s' t (F & _ & _ & t' & -> & Ht). split.
  - destruct F as [(F1 & _ & _ & _ & F5 & _) _].
    destruct H as (H1 & H2 & H3 & H4).
    unfold same_configuration. rewrite F1, F5. auto.
  - constructor; [exact I |].
    eapply Forall_impl; [| exact Ht].
    intros e He. destruct e as [l | c n | training ratio | m];
      try exact I. destruct He.
Qed.

Lemma configured_periodic_evaluation (s : State) :
  same_configuration s0 s ->
  wp periodic_evaluation
     (fun _ s' t => same_configuration s0 s' /\ Forall (configured_save s0) t) s.
Proof.
  intros H. unfold periodic_evaluation. wp_run.
  eapply wp_weaken; [apply (configured_evaluate false); exact H |].
  cbv beta. intros o1 s1 t1 [H1 T1].
  destruct o1 as [[[valid_loss valid_acc] valid_acc_aux] | e1]; wp_run;
    [| cfg_done].
  eapply wp_weaken; [apply (configured_evaluate true); exact H1 |].
  cbv beta. intros o2 s2 t2 [H2 T2].
  destruct o2 as [x2 | e2]; wp_run; [| cfg_done].
  eapply wp_weaken; [apply (configured_update valid_loss valid_acc); exact H2 |].
  cbv beta. intros o3 s3 t3 [H3 T3].
  destruct o3 as [x3 | e3]; wp_run; try cfg_done.
  eapply wp_weaken; [apply (configured_update_aux valid_acc_aux); exact H3 |].
  cbv beta. intros o4 s4 t4 [H4 T4].
  destruct o4 as [x4 | e4]; wp_run; cfg_done.
Qed.

Lemma configured_report (i : Z) (running_loss : float) (s : State) :
  same_configuration s0 s ->
  wp (report i running_loss)
     (fun _ s' t => same_configuration s0 s' /\ Forall (configured_save s0) t) s.
Proof.
  intros H. unfold report. wp_run; [cfg_done | | cfg_done].
  eapply wp_weaken; [apply configured_periodic_evaluation; exact H |].
  cbv beta. intros o s' t [H' T']. cfg_done.
Qed.

Lemma configured_train_loop (batches : list Batch) :
  forall (i : Z) (epoch_loss : float) (s : State),
    same_configuration s0 s ->
    wp (train_loop i batches epoch_loss)
       (fun _ s' t => same_configuration s0 s' /\ Forall (configured_save s0) t) s.
Proof.
  induction batches as [| batch rest IH]; intros i epoch_loss s H.
  - simpl. wp_run. cfg_done.
  - cbn [train_loop]. wp_run.
    + eapply wp_weaken; [apply configured_report; cfg_state |].
      cbv beta. intros o s' t [H' T'].
      destruct o as [x | e]; [| cfg_done].
      eapply wp_weaken; [apply IH; exact H' |].
      cbv beta. intros o' s'' t' [H'' T'']. cfg_done.
    + eapply wp_weaken; [apply IH; cfg_state |].
      cbv beta. intros o' s'' t' [H'' T'']. cfg_done.
    + cfg_done.
Qed.

Lemma configured_train (s : State) :
  same_configuration s0 s ->
  wp train
     (fun _ s' t => same_configuration s0 s' /\ Forall (configured_save s0) t) s.
Proof.
  intros H. unfold train. wp_run.
  eapply wp_weaken; [apply configured_train_loop; cfg_state |].
  cbv beta. intros o s' t [H' T'].
  destruct o as [x | e]; wp_run; cfg_done.
Qed.

Lemma configured_epoch_head (burning_epoch epoch : Z) (s : State) :
  same_configuration s0 s ->
  wp (epoch_head burning_epoch epoch)
     (fun _ s' t => same_configuration s0 s' /\ Forall (configured_save s0) t) s.
Proof.
  intros H. unfold epoch_head. wp_run; cfg_done.
Qed.

Lemma configured_epoch_body (epoch : Z) (s : State) :
  same_configuration s0 s ->
  wp (epoch_body epoch)
     (fun _ s' t => same_configuration s0 s' /\ Forall (configured_save s0) t) s.
Proof.
  intros H. unfold epoch_body. wp_run.
  eapply wp_weaken; [apply configured_train; cfg_state |].
  cbv beta. intros o1 s1 t1 [H1 T1].
  destruct o1 as [train_loss | e1]; wp_run; [| cfg_done].
  eapply wp_weaken; [apply (configured_evaluate false); exact H1 |].
  cbv beta. intros o2 s2 t2 [H2 T2].
  destruct o2 as [[[valid_loss valid_acc] valid_acc_aux] | e2]; wp_run;
    [| cfg_done].
  eapply wp_weaken; [apply (configured_update valid_loss valid_acc); exact H2 |].
  cbv beta. intros o3 s3 t3 [H3 T3].
  destruct o3 as [x3 | e3]; wp_run; try cfg_done.
  all: eapply wp_weaken; [apply (configured_update_aux valid_acc_aux); exact H3 |].
  all: cbv beta; intros o4 s4 t4 [H4 T4].
  all: destruct o4 as [x4 | e4]; wp_run; cfg_done.
Qed.

Lemma configured_run_loop (burning_epoch : Z) (epochs : list Z) :
  forall s : State,
    same_configuration s0 s ->
    wp (run_loop burning_epoch epochs)
       (fun _ s' t => same_configuration s0 s' /\ Forall (configured_save s0) t) s.
Proof.
  induction epochs as [| epoch rest IH]; intros s H.
  - simpl. wp_run. cfg_done.
  - cbn [run_loop]. wp_run.
    eapply wp_weaken; [apply configured_epoch_head; exact H |].
    cbv beta. intros o1 s1 t1 [H1 T1].
    destruct o1 as [[] | e1]; wp_run; try cfg_done.
    eapply wp_weaken; [apply configured_epoch_body; exact H1 |].
    cbv beta. intros o2 s2 t2 [H2 T2].
    destruct o2 as [x2 | e2]; [| cfg_done].
    eapply wp_weaken; [apply IH; exact H2 |].
    cbv beta. intros o3 s3 t3 [H3 T3]. cfg_done.
Qed.

End Checkpoints.

Lemma same_configuration_refl (s : State) : same_configuration s s.
Proof. unfold same_configuration. auto. Qed.

(** X22: whatever a run or a training pass writes is the checkpoint of
    the configured criterion, under the configured experiment number: with
    the criterion LOSS the accuracy checkpoint is never written, and with
    ACC never the loss checkpoint.  The criterion, the experiment number,
    the number of epochs and the report interval are not changed on the
    way. *)
Theorem run_writes_configured_checkpoint (burning_epoch : Z) (s : State) :
  (Forall (configured_save s) (trace (run burning_epoch s)) /\
   same_configuration s (final (run burning_epoch s))) /\
  (Forall (configured_save s) (trace (train s)) /\
   same_configuration s (final (train s))) /\
  (forall c n,
      In (TorchSave c n) (trace (run burning_epoch s)) ->
      c = checkpoint_of (ArgsFeeder.valid_criterion (args_feeder s)) /\
      n = TrainMemoryBank.exp_num (train_memory_bank s)).
Proof.
  assert (R : Forall (configured_save s) (trace (run burning_epoch s)) /\
              same_configuration s (final (run burning_epoch s))).
  { rewrite run_unfold.
    pose proof (configured_run_loop s burning_epoch
                  (py_range (TrainMemoryBank.total_epochs (train_memory_bank s)))
                  s (same_configuration_refl s)) as H.
    unfold wp in H. destruct H as [H1 H2]. split; assumption. }
  split; [exact R | split].
  - pose proof (configured_train s s (same_configuration_refl s)) as H.
    unfold wp in H. destruct H as [H1 H2]. split; assumption.
  - intros c n Hin. destruct R as [R _].
    rewrite Forall_forall in R. exact (R _ Hin).
Qed.

(** ** What the trainer reads of the task and of the auxiliary vocabulary *)

Section ReadsAlike.

Variable phi : State -> State.
Hypothesis phi_reads : reads_alike phi.
Hypothesis phi_writes : writes_alike phi.

Lemma alike_bind {A B} (m1 m2 : M W Batch A) (f1 f2 : A -> M W Batch B) (s : State) :
  unchanged_under phi m1 m2 s ->
  (forall a, outcome (m2 s) = Return a ->
             unchanged_under phi (f1 a) (f2 a) (final (m2 s))) ->
  unchanged_under phi (bind m1 f1) (bind m2 f2) s.
Proof.
  unfold unchanged_under, bind. intros H1 H2. rewrite H1.
  destruct (m2 s) as [[a | e] s' t]; cbn [outcome final trace] in *; [| reflexivity].
  rewrite (H2 a eq_refl). destruct (f2 a s'); reflexivity.
Qed.

Lemma alike_get {A} (f1 f2 : State -> M W Batch A) (s : State) :
  unchanged_under phi (f1 (phi s)) (f2 s) s ->
  unchanged_under phi (bind get f1) (bind get f2) s.
Proof.
  unfold unchanged_under, bind, get. intros H. rewrite H.
  destruct (f2 s s); reflexivity.
Qed.

Lemma alike_ret {A} (a : A) (s : State) : unchanged_under phi (ret a) (ret a) s.
Proof. reflexivity. Qed.

Lemma alike_emit (e : Event) (s : State) : unchanged_under phi (emit e) (emit e) s.
Proof. reflexivity. Qed.

Lemma alike_raise {A} (e : Exn) (s : State) :
  unchanged_under phi (@raise W Batch A e) (raise e) s.
Proof. reflexivity. Qed.

Lemma alike_lift {A} (o : Outcome A) (s : State) :
  unchanged_under phi (lift o) (lift o) s.
Proof. reflexivity. Qed.

Lemma alike_modify (f1 f2 : State -> State) (s : State) :
  f1 (phi s) = phi (f2 s) ->
  unchanged_under phi (modify f1) (modify f2) s.
Proof. unfold unchanged_under, modify. intros ->. reflexivity. Qed.

(** Rewrites what the operations read of the changed state [s]. *)
Ltac alike_fields s :=
  let E := fresh "E" in
  pose proof (phi_reads s) as E;
  destruct E as (?E & ?E & ?E & ?E & ?E & ?E & ?E & ?E & ?E & ?E & ?E & ?E & ?E &
                 ?E & ?E & ?E & ?E);
  repeat match goal with
         | H : _ (phi s) = _ |- _ => rewrite !H
         | H : _ (_ (phi s)) = _ |- _ => rewrite !H
         end.

Ltac alike_write :=
  match goal with
  | |- _ (phi ?s) = phi _ =>
      destruct (phi_writes s) as (?W & ?W & ?W & ?W & ?W & ?W);
      destruct (phi_reads s) as (?E & ?E & ?E & ?E & ?E & ?E & ?E & ?E & ?E & ?E &
                                 ?E & ?E & ?E & ?E & ?E & ?E & ?E);
      repeat match goal with
             | H : _ (phi s) = _ |- _ => rewrite !H
             end;
      solve [auto]
  end.

Ltac alike_aux :=
  try match goal with
      | H : true = true -> _ = _ |- _ => rewrite !(H eq_refl)
      end.

Ltac alike_step :=
  cbv beta iota;
  lazymatch goal with
  | |- unchanged_under _ (bind get _) (bind get _) ?s =>
      apply alike_get; cbv beta; alike_fields s
  | |- unchanged_under _ (bind _ _) (bind _ _) _ =>
      apply alike_bind; [| intros ? _]
  | |- unchanged_under _ (ret _) _ _ => apply alike_ret
  | |- unchanged_under _ (emit _) _ _ => apply alike_emit
  | |- unchanged_under _ (print _) _ _ => unfold print; apply alike_emit
  | |- unchanged_under _ (raise _) _ _ => apply alike_raise
  | |- unchanged_under _ (lift _) _ _ => apply alike_lift
  | |- unchanged_under _ (modify _) _ _ => apply alike_modify; alike_write
  | |- unchanged_under _ (modify_eval_memory_bank _) _ _ =>
      unfold modify_eval_memory_bank; apply alike_modify; alike_write
  | |- unchanged_under _ (modify_train_memory_bank _) _ _ =>
      unfold modify_train_memory_bank; apply alike_modify; alike_write
  | |- unchanged_under _ (math_exp ?f ?x) _ _ => unfold math_exp; destruct (f x)
  | |- unchanged_under _ (when ?b _) _ _ => unfold when; destruct b eqn:?; alike_aux
  | |- unchanged_under _ (if ?b then _ else _) _ _ => destruct b eqn:?; alike_aux
  | |- unchanged_under _ (match ?x with _ => _ end) _ _ => destruct x eqn:?
  end.

Lemma update_alike (valid_loss valid_acc : float) (s : State) :
  unchanged_under phi (update valid_loss valid_acc) (update valid_loss valid_acc) s.
Proof. unfold update. repeat alike_step. Qed.

Lemma update_aux_alike (valid_acc_aux : float) (s : State) :
  unchanged_under phi (update_aux valid_acc_aux) (update_aux valid_acc_aux) s.
Proof. unfold update_aux. repeat alike_step. Qed.

Lemma evaluate_loop_alike (batches : list Batch) :
  forall (acc : float * Z * Z) (s : State),
    unchanged_under phi (evaluate_loop batches acc) (evaluate_loop batches acc) s.
Proof.
  induction batches as [| batch rest IH]; intros [[epoch_loss correct] correct_aux] s.
  - apply alike_ret.
  - cbn [evaluate_loop]. repeat alike_step. all: apply IH.
Qed.

Lemma evaluate_alike (is_test : bool) (s : State) :
  unchanged_under phi (evaluate is_test) (evaluate is_test) s.
Proof.
  unfold evaluate. repeat alike_step.
  all: try apply evaluate_loop_alike.
  all: repeat alike_step.
Qed.

Lemma periodic_evaluation_alike (s : State) :
  unchanged_under phi periodic_evaluation periodic_evaluation s.
Proof.
  unfold periodic_evaluation. repeat alike_step.
  all: first [apply evaluate_alike | apply update_alike | apply update_aux_alike
             | idtac].
  all: repeat alike_step.
  all: first [apply evaluate_alike | apply update_alike | apply update_aux_alike
             | idtac].
  all: repeat alike_step.
Qed.

Lemma report_alike (i : Z) (running_loss : float) (s : State) :
  unchanged_under phi (report i running_loss) (report i running_loss) s.
Proof.
  unfold report. repeat alike_step. all: apply periodic_evaluation_alike.
Qed.

Lemma train_loop_alike (batches : list Batch) :
  forall (i : Z) (epoch_loss : float) (s : State),
    unchanged_under phi (train_loop i batches epoch_loss)
                        (train_loop i batches epoch_loss) s.
Proof.
  induction batches as [| batch rest IH]; intros i epoch_loss s.
  - apply alike_ret.
  - cbn [train_loop]. repeat alike_step.
    all: first [apply report_alike | apply IH].
Qed.

Lemma train_alike (s : State) : unchanged_under phi train train s.
Proof.
  unfold train. repeat alike_step. all: apply train_loop_alike.
Qed.

Lemma epoch_head_alike (burning_epoch epoch : Z) (s : State) :
  unchanged_under phi (epoch_head burning_epoch epoch)
                      (epoch_head burning_epoch epoch) s.
Proof. unfold epoch_head. repeat alike_step. Qed.

Lemma epoch_body_alike (epoch : Z) (s : State) :
  unchanged_under phi (epoch_body epoch) (epoch_body epoch) s.
Proof.
  unfold epoch_body. repeat alike_step.
  all: first [apply train_alike | apply evaluate_alike | apply update_alike
             | apply update_aux_alike | idtac].
  all: repeat alike_step.
  all: first [apply train_alike | apply evaluate_alike | apply update_alike
             | apply update_aux_alike | idtac].
  all: repeat alike_step.
Qed.

Lemma run_loop_alike (burning_epoch : Z) (epochs : list Z) :
  forall s : State,
    unchanged_under phi (run_loop burning_epoch epochs)
                        (run_loop burning_epoch epochs) s.
Proof.
  induction epochs as [| epoch rest IH]; intros s.
  - apply alike_ret.
  - cbn [run_loop]. repeat alike_step.
    all: first [apply epoch_head_alike | apply epoch_body_alike | apply IH].
Qed.

Lemma run_alike (burning_epoch : Z) (s : State) :
  unchanged_under phi (run burning_epoch) (run burning_epoch) s.
Proof.
  unfold run. repeat alike_step. apply run_loop_alike.
Qed.
End ReadsAlike.

Lemma auxiliary_itos_reads_alike (v : list string) :
  reads_alike (@single_task_with_auxiliary_itos W Batch v).
Proof.
  intros s. unfold single_task_with_auxiliary_itos.
  destruct (is_multi (task s)) eqn:E.
  - repeat split; auto.
  - repeat split; auto. discriminate.
Qed.

Lemma auxiliary_itos_writes_alike (v : list string) :
  writes_alike (@single_task_with_auxiliary_itos W Batch v).
Proof.
  intros s. unfold single_task_with_auxiliary_itos.
  repeat split; intros x; fields; destruct (is_multi (task s)); reflexivity.
Qed.

Lemma task_reads_alike (t : Task) : reads_alike (@same_kind_with_task W Batch t).
Proof.
  intros s. unfold same_kind_with_task.
  destruct (Bool.eqb (is_multi t) (is_multi (task s))) eqn:E.
  - apply eqb_prop in E. repeat split; auto.
  - repeat split; auto.
Qed.

Lemma task_writes_alike (t : Task) : writes_alike (@same_kind_with_task W Batch t).
Proof.
  intros s. unfold same_kind_with_task.
  repeat split; intros x; fields;
    destruct (Bool.eqb (is_multi t) (is_multi (task s))); reflexivity.
Qed.

Lemma task_respects (t : Task) :
  respects_writes (fun s : State => task s = t).
Proof.
  intros s s' (_ & _ & H & _) Hs. congruence.
Qed.

Lemma run_keeps_task (burning_epoch : Z) (s : State) :
  task (final (run burning_epoch s)) = task s.
Proof.
  pose proof (keeps_run (fun s' => task s' = task s) (fun _ => True)
                (task_respects (task s)) (fun _ _ => I) (fun _ _ => I)
                burning_epoch s eq_refl) as H.
  unfold wp in H. apply H.
Qed.

Lemma train_keeps_task (s : State) : task (final (train s)) = task s.
Proof.
  pose proof (keeps_train (fun s' => task s' = task s) (fun _ => True)
                (task_respects (task s)) (fun _ _ => I) (fun _ _ => I)
                s eq_refl) as H.
  unfold wp in H. apply H.
Qed.

Lemma evaluate_keeps_task (is_test : bool) (s : State) :
  task (final (evaluate is_test s)) = task s.
Proof.
  pose proof (evaluate_spec is_test s) as H. unfold wp in H.
  destruct H as (((_ & _ & H & _) & _) & _). exact H.
Qed.

(** Reads a result obtained under a change of the state. *)
Lemma unchanged_under_result {A} (phi : State -> State) (m : M W Batch A)
    (s s1 : State) :
  unchanged_under phi m m s ->
  phi s = s1 ->
  outcome (m s1) = outcome (m s) /\
  trace (m s1) = trace (m s) /\
  final (m s1) = phi (final (m s)).
Proof.
  unfold unchanged_under. intros H <-. rewrite H. auto.
Qed.

(** X23: in single-task mode the vocabulary of the auxiliary field is
    never read: with any other vocabulary in its place, an evaluation and
    a whole run return or raise the same, emit the same events and leave
    the same state. *)
Theorem single_task_ignores_auxiliary_vocabulary (s : State) (v : list string) :
  is_multi (task s) = false ->
  (forall is_test,
      let r := evaluate is_test s in
      let r' := evaluate is_test (with_auxiliary_itos v s) in
      outcome r' = outcome r /\ trace r' = trace r /\
      final r' = with_auxiliary_itos v (final r)) /\
  (forall burning_epoch,
      let r := run burning_epoch s in
      let r' := run burning_epoch (with_auxiliary_itos v s) in
      outcome r' = outcome r /\ trace r' = trace r /\
      final r' = with_auxiliary_itos v (final r)).
Proof.
  intros Hs.
  assert (E : single_task_with_auxiliary_itos v s = with_auxiliary_itos v s)
    by (unfold single_task_with_auxiliary_itos; rewrite Hs; reflexivity).
  split.
  - intros is_test. cbv zeta.
    destruct (unchanged_under_result _ _ s _
                (evaluate_alike _ (auxiliary_itos_reads_alike v)
                   (auxiliary_itos_writes_alike v) is_test s) E)
      as (H1 & H2 & H3).
    split; [exact H1 | split; [exact H2 |]]. rewrite H3.
    unfold single_task_with_auxiliary_itos.
    rewrite evaluate_keeps_task, Hs. reflexivity.
  - intros burning_epoch. cbv zeta.
    destruct (unchanged_under_result _ _ s _
                (run_alike _ (auxiliary_itos_reads_alike v)
                   (auxiliary_itos_writes_alike v) burning_epoch s) E)
      as (H1 & H2 & H3).
    split; [exact H1 | split; [exact H2 |]]. rewrite H3.
    unfold single_task_with_auxiliary_itos.
    rewrite run_keeps_task, Hs. reflexivity.
Qed.

(** X24: of the task, only the test for the multi-task mode is read: a
    trainer that differs from another in its task alone, both multi-task
    or both single-task, evaluates, trains and runs as the other does.  In
    particular the two single-task modes are treated alike. *)
Theorem task_is_read_as_multi_or_not (s : State) (t : Task) :
  is_multi t = is_multi (task s) ->
  (forall is_test,
      let r := evaluate is_test s in
      let r' := evaluate is_test (with_task t s) in
      outcome r' = outcome r /\ trace r' = trace r /\
      final r' = with_task t (final r)) /\
  (let r := train s in
   let r' := train (with_task t s) in
   outcome r' = outcome r /\ trace r' = trace r /\
   final r' = with_task t (final r)) /\
  (forall burning_epoch,
      let r := run burning_epoch s in
      let r' := run burning_epoch (with_task t s) in
      outcome r' = outcome r /\ trace r' = trace r /\
      final r' = with_task t (final r)).
Proof.
  intros Ht.
  assert (E : same_kind_with_task t s = with_task t s)
    by (unfold same_kind_with_task; rewrite Ht, eqb_reflx; reflexivity).
  split; [| split].
  - intros is_test. cbv zeta.
    destruct (unchanged_under_result _ _ s _
                (evaluate_alike _ (task_reads_alike t) (task_writes_alike t)
                   is_test s) E)
      as (H1 & H2 & H3).
    split; [exact H1 | split; [exact H2 |]]. rewrite H3.
    unfold same_kind_with_task.
    rewrite evaluate_keeps_task, Ht, eqb_reflx. reflexivity.
  - cbv zeta.
    destruct (unchanged_under_result _ _ s _
                (train_alike _ (task_reads_alike t) (task_writes_alike t) s) E)
      as (H1 & H2 & H3).
    split; [exact H1 | split; [exact H2 |]]. rewrite H3.
    unfold same_kind_with_task.
    rewrite train_keeps_task, Ht, eqb_reflx. reflexivity.
  - intros burning_epoch. cbv zeta.
    destruct (unchanged_under_result _ _ s _
                (run_alike _ (task_reads_alike t) (task_writes_alike t)
                   burning_epoch s) E)
      as (H1 & H2 & H3).
    split; [exact H1 | split; [exact H2 |]]. rewrite H3.
    unfold same_kind_with_task.
    rewrite run_keeps_task, Ht, eqb_reflx. reflexivity.
Qed.

(** ** The forward passes of an evaluation *)

Lemma filter_calls_app (t1 t2 : list Event) :
  filter is_model_call (t1 ++ t2) = filter is_model_call t1 ++ filter is_model_call t2.
Proof. apply filter_app. Qed.

(** The loop of [evaluate] makes its forward calls in evaluation mode
    with ratio 0, one per batch until it returns or raises, and hands the
    torch state from one call to the next. *)
Lemma evaluate_loop_passes (batches : list Batch) :
  forall (acc : float * Z * Z) (s : State),
    model_training s = false ->
    model_teacher_forcing_ratio s = 0%float ->
    wp (evaluate_loop batches acc)
       (fun o s' t =>
          exists k : nat,
            (k <= List.length batches)%nat /\
            filter is_model_call t = repeat (ModelCall false 0%float) k /\
            torch s' = eval_torch eval_step (torch s) (firstn k batches) /\
            (forall x, o = Return x -> k = List.length batches)) s.
Proof.
  induction batches as [| batch rest IH]; intros acc s Hm Hr.
  - simpl. wp_run. exists 0%nat. repeat split; auto.
  - cbn [evaluate_loop]. wp_run; fields.
    all: try (eapply wp_weaken;
              [ apply IH; fields; assumption
              | cbv beta; intros o s' t (k & Hk & Hf & Ht & Hx); fields;
                exists (S k); cbn [List.length firstn eval_torch repeat];
                rewrite Hm, Hr in *;
                match goal with
                | H : eval_step _ _ _ _ = _ |- _ => rewrite H in *
                end;
                cbn [fst];
                split; [lia |];
                split; [simpl; rewrite ?Hf; reflexivity |];
                split; [exact Ht |];
                intros x Hx'; rewrite (Hx x Hx'); reflexivity ]).
    all: exists 1%nat; cbn [List.length firstn eval_torch repeat];
         rewrite Hm, Hr in *;
         match goal with
         | H : eval_step _ _ _ _ = _ |- _ => rewrite H in *
         end;
         cbn [fst];
         split; [lia |];
         split; [reflexivity |];
         split; [destruct rest; reflexivity |];
         intros; discriminate.
Qed.

Lemma evaluate_passes (is_test : bool) (s : State) :
  wp (evaluate is_test)
     (fun o s' t =>
        let iterator := if negb is_test then valid_iter (data_container s)
                        else test_iter (data_container s) in
        exists k : nat,
          (k <= List.length iterator)%nat /\
          filter is_model_call t = repeat (ModelCall false 0%float) k /\
          torch s' = eval_torch eval_step (torch s) (firstn k iterator) /\
          (forall x, o = Return x ->
             k = List.length iterator /\
             exists t', t = t' ++ [Stdout (L_eval_end (tfr s))])) s.
Proof.
  unfold evaluate. wp_run. fields.
  eapply wp_weaken;
    [apply wp_conj; [apply evaluate_loop_passes; reflexivity
                    | apply evaluate_loop_spec; reflexivity] |].
  cbv beta. intros o s' t [(k & Hk & Hf & Ht & Hx) (Hrec & _)]. fields.
  assert (Htfr : tfr s' = tfr s) by (destruct Hrec as [(?&?&?&?&?&?) ?]; fields; congruence).
  destruct o as [[[epoch_loss correct] correct_aux] | e]; wp_run.
  all: cbv zeta; exists k.
  all: split; [exact Hk |].
  all: split; [simpl; rewrite ?filter_calls_app, Hf; simpl; rewrite ?app_nil_r; reflexivity |].
  all: split; [fields; exact Ht |].
  all: try (intros; discriminate).
  all: intros x _; split; [apply (Hx _ eq_refl) |].
  all: fields; rewrite Htfr.
  all: simpl; rewrite ?app_nil_r.
  all: match goal with
       | |- exists t', ?a :: ?t ++ ?l = _ => exists (a :: t ++ removelast l)
       end.
  all: simpl; rewrite <- app_assoc; reflexivity.
Qed.

(** C9: [evaluate] puts the model in evaluation mode with teacher-forcing
    ratio 0 before anything else: its first line shows ratio 0, every
    forward call it makes is in evaluation mode with ratio 0, the calls
    are made one per batch of the iterator for as long as the pass goes on
    (all of them when it returns), and the torch state it leaves is the one
    these calls produce.  When it returns, the model holds the trainer's
    ratio again and the closing line shows it; when it raises, the model is
    left with ratio 0.  The trainer's own ratio, the evaluation record, the
    training progress, the configuration and the data are the same after
    the call on every exit. *)
Theorem evaluate_teacher_forcing (is_test : bool) (s : State) :
  let r := evaluate is_test s in
  let iterator := if negb is_test then valid_iter (data_container s)
                  else test_iter (data_container s) in
  (exists t', trace r = Stdout (L_eval_start 0) :: t') /\
  (forall training ratio,
      In (ModelCall training ratio) (trace r) ->
      training = false /\ ratio = 0%float) /\
  (exists k : nat,
      (k <= List.length iterator)%nat /\
      filter is_model_call (trace r) = repeat (ModelCall false 0%float) k /\
      torch (final r) = eval_torch eval_step (torch s) (firstn k iterator) /\
      (forall x, outcome r = Return x -> k = List.length iterator)) /\
  (forall x, outcome r = Return x ->
             model_teacher_forcing_ratio (final r) = tfr s /\
             filter is_model_call (trace r) =
               repeat (ModelCall false 0%float) (List.length iterator) /\
             torch (final r) = eval_torch eval_step (torch s) iterator /\
             exists t', trace r = t' ++ [Stdout (L_eval_end (tfr s))]) /\
  (forall e, outcome r = Raise e ->
             model_teacher_forcing_ratio (final r) = 0%float) /\
  model_training (final r) = false /\
  tfr (final r) = tfr s /\
  eval_memory_bank (final r) = eval_memory_bank s /\
  train_memory_bank (final r) = train_memory_bank s /\
  early_stopping_patience (final r) = early_stopping_patience s /\
  args_feeder (final r) = args_feeder s /\
  data_container (final r) = data_container s /\
  task (final r) = task s.
Proof.
  cbv zeta. pose proof (evaluate_spec is_test s) as H. unfold wp in H.
  destruct H as ([(Ha & Hd & Hk & Hp & Hb & Ht) He] & Hm & Hr & t' & Htr & Hev).
  pose proof (evaluate_passes is_test s) as P. unfold wp in P. cbv zeta in P.
  destruct P as (k & Pk & Pf & Pt & Px).
  split; [exists t'; exact Htr |].
  split.
  { intros training ratio Hin. rewrite Htr in Hin.
    destruct Hin as [Hin | Hin]; [discriminate |].
    rewrite Forall_forall in Hev. apply (Hev _ Hin). }
  split.
  { exists k. split; [exact Pk |]. split; [exact Pf |]. split; [exact Pt |].
    intros x Hx. apply (Px x Hx). }
  split.
  { intros x Hx. destruct (Px x Hx) as [Ek Et].
    rewrite Hx in Hr. split; [exact Hr |].
    rewrite Ek in Pf, Pt. rewrite firstn_all in Pt. auto. }
  split.
  { intros e He'. rewrite He' in Hr. exact Hr. }
  repeat split; auto.
Qed.

(** ** The two parts of [evaluate] *)

Lemma evaluate_in_parts (is_test : bool) (s : State) :
  evaluate is_test s =
  bind (evaluate_to_accuracy eval_step is_test)
       (fun x => let '(epoch_loss, acc, correct_aux, n_examples) := x in
                 evaluate_from_auxiliary_accuracy epoch_loss acc correct_aux
                   n_examples) s.
Proof.
  unfold evaluate, evaluate_to_accuracy, evaluate_from_auxiliary_accuracy.
  unfold bind, modify, get, print, emit, lift, when, ret. cbn [outcome final trace].
  fields.
  destruct (evaluate_loop _ _ _) as [[[[epoch_loss correct] correct_aux] | e] s' t];
    [| reflexivity].
  destruct (float_div_int _ _) as [l | e]; [| reflexivity].
  destruct (is_multi (task s)); destruct (py_truediv correct _) as [a | e];
    try reflexivity.
  all: destruct (py_truediv correct_aux _) as [x | e]; simpl;
       rewrite <- ?app_assoc; simpl; rewrite ?app_nil_r; reflexivity.
Qed.

(** What the first part hands on when it returns, and how it raises: the
    loop can only raise [IndexError]; the divisions raise
    [ZeroDivisionError], the first for an iterator without batches, the
    second for a dataset without examples. *)
Lemma evaluate_to_accuracy_values (is_test : bool) (s : State) :
  wp (evaluate_to_accuracy eval_step is_test)
     (fun o _ t =>
        match o with
        | Return (_, acc, correct_aux, n) =>
            n = n_examples_of is_test s /\ n <> 0 /\
            (exists correct,
                acc = (float_of_int correct / float_of_int n)%float /\
                In (Stdout (L_correct correct)) t) /\
            (is_multi (task s) = true ->
             In (Stdout (L_correct_aux correct_aux)) t) /\
            (is_multi (task s) = false -> correct_aux = 0)
        | Raise e =>
            e = IndexError \/
            e = ZeroDivisionError /\
            ((if negb is_test then valid_iter (data_container s)
              else test_iter (data_container s)) = [] /\
             t = [Stdout (L_eval_start 0)] \/
             n_examples_of is_test s = 0 /\
             exists correct, In (Stdout (L_correct correct)) t)
        end) s.
Proof.
  unfold evaluate_to_accuracy. wp_run.
  eapply wp_weaken; [apply wp_conj; [apply evaluate_loop_values | apply wp_exact] |].
  cbv beta. intros o s' t [[Hk Hv] (Ho & _ & Ht)]. simpl in Hk, Hv.
  destruct o as [[[epoch_loss correct] correct_aux] | e]; [| auto].
  unfold n_examples_of. wp_run; simpl;
    repeat match goal with
           | H : _ = _ |- _ => progress simpl in H
           end.
  all: repeat match goal with
       | H : py_truediv _ _ = Return _ |- _ => apply py_truediv_return in H; destruct H
       | H : py_truediv _ _ = Raise _ |- _ => apply py_truediv_raise in H; destruct H
       | H : float_div_int _ _ = Raise _ |- _ => apply float_div_int_raise in H; destruct H
       end; subst.
  all: try (split; [reflexivity |]; split; [assumption |];
            split; [exists correct; split; [reflexivity |];
                    rewrite !in_app_iff; simpl; auto 10 |];
            split; [intros; rewrite !in_app_iff; simpl; auto 10; congruence
                   | intros; auto; congruence]).
  all: try (right; split; [reflexivity |]; right; split; [assumption |];
            exists correct; rewrite !in_app_iff; simpl; auto 10; fail).
  all: right; split; [reflexivity |]; left.
  all: match goal with
       | H : Z.of_nat (List.length ?l) = 0 |- _ =>
           destruct l; [| discriminate H]
       end.
  all: split; reflexivity.
Qed.

(** C8 (as amended): the auxiliary accuracy is the quotient of the
    auxiliary tally by the example count of the chosen dataset, the count
    that divides the main tally on the line before; nothing guards the
    quotient, but it is never taken with a zero count.  [evaluate] is its
    first part, which ends with the main accuracy, followed by its second,
    which starts with the auxiliary accuracy; the first part returns only
    with a count that is not zero, and then the auxiliary quotient returns;
    with a zero count the first part raises, at the mean loss (no batch),
    at the main accuracy, or earlier while decoding, and [evaluate] ends
    there, in the state and with the lines of the first part. *)
Theorem evaluate_auxiliary_division (is_test : bool) (s : State) :
  let r := evaluate is_test s in
  let m := evaluate_to_accuracy eval_step is_test s in
  let n_examples := n_examples_of is_test s in
  r = bind (evaluate_to_accuracy eval_step is_test)
           (fun x => let '(epoch_loss, acc, correct_aux, n) := x in
                     evaluate_from_auxiliary_accuracy epoch_loss acc correct_aux n)
           s /\
  (forall epoch_loss acc correct_aux n,
      outcome m = Return (epoch_loss, acc, correct_aux, n) ->
      n = n_examples /\ n <> 0 /\
      py_truediv correct_aux n =
        Return (float_of_int correct_aux / float_of_int n_examples)%float /\
      outcome r =
        Return (epoch_loss, acc,
                (float_of_int correct_aux / float_of_int n_examples)%float) /\
      (is_multi (task s) = true ->
       In (Stdout (L_correct_aux correct_aux)) (trace r)) /\
      (is_multi (task s) = false -> correct_aux = 0)) /\
  (forall e, outcome m = Raise e -> r = mkRes (Raise e) (final m) (trace m)) /\
  (n_examples = 0 ->
   exists e, outcome m = Raise e /\
             (e = ZeroDivisionError \/ e = IndexError)) /\
  (forall e, outcome m = Raise e ->
     e = IndexError \/
     e = ZeroDivisionError /\
     ((if negb is_test then valid_iter (data_container s)
       else test_iter (data_container s)) = [] /\
      trace m = [Stdout (L_eval_start 0)] \/
      n_examples = 0 /\
      exists correct, In (Stdout (L_correct correct)) (trace m))) /\
  (forall epoch_loss acc acc_aux,
      outcome r = Return (epoch_loss, acc, acc_aux) ->
      n_examples <> 0 /\
      exists correct correct_aux,
        acc = (float_of_int correct / float_of_int n_examples)%float /\
        acc_aux = (float_of_int correct_aux / float_of_int n_examples)%float /\
        py_truediv correct_aux n_examples = Return acc_aux /\
        In (Stdout (L_correct correct)) (trace r) /\
        (is_multi (task s) = true ->
         In (Stdout (L_correct_aux correct_aux)) (trace r)) /\
        (is_multi (task s) = false -> correct_aux = 0)) /\
  (n_examples = 0 ->
   outcome r = Raise ZeroDivisionError \/ outcome r = Raise IndexError) /\
  (forall correct_aux, py_truediv correct_aux 0 = Raise ZeroDivisionError).
Proof.
  cbv zeta.
  pose proof (evaluate_in_parts is_test s) as E.
  pose proof (evaluate_to_accuracy_values is_test s) as V. unfold wp in V.
  pose proof (evaluate_values is_test s) as H. unfold wp in H.
  split; [exact E |].
  split.
  { intros epoch_loss acc correct_aux n Ho. rewrite Ho in V.
    destruct V as (Hn & Hz & _ & Hm & Hs).
    split; [exact Hn |]. split; [exact Hz |].
    assert (D : py_truediv correct_aux n =
                Return (float_of_int correct_aux /
                        float_of_int (n_examples_of is_test s))%float)
      by (rewrite <- Hn; apply py_truediv_nonzero; exact Hz).
    split; [exact D |].
    rewrite E, (bind_return _ _ _ _ Ho). cbn [outcome trace].
    unfold evaluate_from_auxiliary_accuracy.
    unfold bind, lift, get, modify, print, emit, ret. rewrite D. simpl.
    split; [reflexivity |].
    split; [intros Hmul; apply in_or_app; left; exact (Hm Hmul) | exact Hs]. }
  split.
  { intros e He. rewrite E. unfold bind.
    destruct (evaluate_to_accuracy eval_step is_test s) as [o s' t].
    simpl in He. subst o. reflexivity. }
  split.
  { intros Hn.
    destruct (outcome (evaluate_to_accuracy eval_step is_test s))
      as [[[[l a] c] n] | e].
    - destruct V as (V1 & V2 & _). congruence.
    - exists e. split; [reflexivity |].
      destruct V as [-> | [-> _]]; auto. }
  split.
  { intros e He. rewrite He in V. exact V. }
  split.
  { intros epoch_loss acc acc_aux Ho. rewrite Ho in H.
    destruct H as (Hn & correct & correct_aux & Ha & Hx & Hrest).
    split; [exact Hn |].
    exists correct, correct_aux. repeat split; try apply Hrest; auto.
    rewrite Hx. apply py_truediv_nonzero. exact Hn. }
  split.
  { intros Hn. destruct (outcome (evaluate is_test s)) as [[[l a] x] | e].
    - destruct H as [H _]. contradiction.
    - destruct H as [-> | ->]; auto. }
  intros correct_aux. reflexivity.
Qed.

(** ** A training pass, batch by batch *)

(** A report that completes: its two lines, then the periodic evaluation
    when the step count is a multiple of ten reporting intervals, run from
    the state in which the report started. *)
Lemma report_content (i : Z) (running_loss : float) (s : State) :
  wp (report i running_loss)
     (fun o _ t =>
        forall x, o = Return x ->
          exists lines,
            Forall is_report_line lines /\
            if TrainMemoryBank.n_steps (train_memory_bank s)
               mod (10 * TrainMemoryBank.report_interval (train_memory_bank s)) =? 0
            then t = lines ++ trace (periodic_evaluation s) /\
                 outcome (periodic_evaluation s) = Return tt
            else t = lines) s.
Proof.
  unfold report. wp_run.
  - intros; discriminate.
  - eapply wp_weaken; [apply wp_exact |].
    cbv beta. intros o s' t (-> & _ & ->). intros x Hx.
    exists [Stdout (L_progress
                      (TrainMemoryBank.n_epoch (train_memory_bank s))
                      ((i + 1) * ArgsFeeder.batch_size (args_feeder s))
                      (train_examples (data_container s))
                      (TrainMemoryBank.n_steps (train_memory_bank s)));
            Stdout (L_running running_loss)].
    split; [repeat constructor |].
    split; [reflexivity |].
    destruct (outcome (periodic_evaluation s)) as [[] |]; [reflexivity | discriminate].
  - intros x _.
    exists [Stdout (L_progress
                      (TrainMemoryBank.n_epoch (train_memory_bank s))
                      ((i + 1) * ArgsFeeder.batch_size (args_feeder s))
                      (train_examples (data_container s))
                      (TrainMemoryBank.n_steps (train_memory_bank s)));
            Stdout (L_running running_loss)].
    split; [repeat constructor | reflexivity].
Qed.

(** The events of the batches of a training pass that completes. *)
Lemma train_loop_segments (batches : list Batch) :
  forall (i : Z) (epoch_loss d : float) (s : State),
    model_training s = true ->
    model_teacher_forcing_ratio s = d ->
    tfr s = d ->
    wp (train_loop i batches epoch_loss)
       (fun o _ t =>
          forall x, o = Return x ->
            exists segments,
              t = List.concat segments /\
              List.length segments = List.length batches /\
              batch_segments eval_step scheduler_step math_exp_overflows
                (TrainMemoryBank.report_interval (train_memory_bank s))
                i (TrainMemoryBank.n_steps (train_memory_bank s)) d segments) s.
Proof.
  induction batches as [| batch rest IH]; intros i epoch_loss d s Hm Hr Ht.
  - simpl. wp_run. intros _ _. exists []. repeat split.
  - cbn [train_loop]. wp_run.
    all: repeat match goal with
         | H : py_mod _ _ = Return _ |- _ =>
             apply py_mod_return in H; destruct H as [? ?]
         end; fields.
    + eapply wp_weaken;
        [apply wp_conj;
         [apply wp_conj;
          [apply (report_spec i _ d); fields; congruence | apply report_calls]
         | apply report_content] |].
      cbv beta. intros o s' t [[(F & _ & HR) (_ & T1 & _)] HC]. fields.
      destruct o as [x | e]; [| intros; discriminate].
      destruct (HR x eq_refl) as (H1 & H2 & H3).
      destruct (HC x eq_refl) as (lines & HL & HE). fields.
      destruct F as (_ & _ & _ & _ & F5 & F6). fields.
      eapply wp_weaken; [apply (IH (i + 1) _ d); [exact H1 | congruence | congruence] |].
      cbv beta. intros o' s'' t' HS y ->.
      destruct (HS y eq_refl) as (segments & E & L & B).
      rewrite F5 in B. fields.
      exists ((ModelCall true d :: t) :: segments).
      split; [rewrite Hm, Hr, E; simpl; reflexivity |].
      split; [simpl; rewrite L; reflexivity |].
      cbn [batch_segments]. split; [| exact B].
      exists t. split; [reflexivity |]. split; [exact T1 |].
      unfold evaluation_due. subst a. rewrite Heqb. cbn [andb].
      destruct (_ =? 0) eqn:Hdue.
      * destruct HE as [E1 E2]. exists lines.
        eexists. split; [exact E1 |]. split; [exact HL |].
        split; [exact E2 |]. split; [fields; reflexivity | exact H3].
      * exact H3.
    + eapply wp_weaken; [apply (IH (i + 1) _ d); fields; assumption |].
      cbv beta. intros o' s'' t' HS y ->.
      destruct (HS y eq_refl) as (segments & E & L & B). fields.
      exists ([ModelCall true d] :: segments).
      split; [rewrite Hm, Hr, E; simpl; reflexivity |].
      split; [simpl; rewrite L; reflexivity |].
      cbn [batch_segments]. split; [| exact B].
      exists []. split; [reflexivity |]. split; [reflexivity |].
      unfold evaluation_due. subst a. rewrite Heqb. cbn [andb]. reflexivity.
    + intros; discriminate.
Qed.

Lemma train_segments (s : State) :
  wp train
     (fun o _ t =>
        forall x, o = Return x ->
          exists segments,
            t = Stdout (L_train_tfr (tfr s)) :: List.concat segments /\
            List.length segments = List.length (train_iter (data_container s)) /\
            batch_segments eval_step scheduler_step math_exp_overflows
              (TrainMemoryBank.report_interval (train_memory_bank s))
              0 (TrainMemoryBank.n_steps (train_memory_bank s)) (tfr s)
              segments) s.
Proof.
  unfold train. wp_run. fields.
  eapply wp_weaken; [apply (train_loop_segments _ 0 _ (tfr s)); reflexivity |].
  cbv beta. intros o s' t HS. fields.
  destruct o as [x | e]; wp_run.
  - intros y _. destruct (HS x eq_refl) as (segments & E & L & B).
    exists segments. split; [| split; [exact L | exact B]].
    rewrite E. simpl. rewrite app_nil_r. reflexivity.
  - intros; discriminate.
  - intros; discriminate.
Qed.

(** C7: what the code does.  In a training pass that completes, the
    trace is the line announcing the ratio followed by one segment per
    batch, each opening with the forward call of the batch; the periodic
    evaluation is run in the segment of batch [i] exactly when [i] closes
    a reporting interval ([i % report_interval == report_interval - 1])
    and the step count reached with the batch is a multiple of
    [10 * report_interval], and it is run at that step count; the other
    segments hold no evaluation, no update and no scheduler step.  A
    periodic evaluation that completes consists of a validation pass, a
    test pass, the policy update on the validation results and a
    scheduler step on the validation accuracy.  When the step count at the
    start of the pass is a multiple of [report_interval], the batches that
    evaluate are all those at which the step count reaches a multiple of
    [10 * report_interval]; otherwise they need not be. *)
Theorem train_evaluation_schedule (s : State) (train_loss : float) :
  outcome (train s) = Return train_loss ->
  let bank := train_memory_bank s in
  let n_batches := List.length (train_iter (data_container s)) in
  let due := evaluations_due (TrainMemoryBank.report_interval bank) 0
               (TrainMemoryBank.n_steps bank) n_batches in
  (exists segments,
      trace (train s) = Stdout (L_train_tfr (tfr s)) :: List.concat segments /\
      List.length segments = n_batches /\
      batch_segments eval_step scheduler_step math_exp_overflows
        (TrainMemoryBank.report_interval bank) 0 (TrainMemoryBank.n_steps bank)
        (tfr s) segments) /\
  (count is_eval_start (trace (train s)) = (2 * due)%nat /\
   count is_update_start (trace (train s)) = due /\
   count is_scheduler_step (trace (train s)) = due /\
   TrainMemoryBank.n_steps (train_memory_bank (final (train s))) =
     TrainMemoryBank.n_steps bank + Z.of_nat n_batches) /\
  (0 < TrainMemoryBank.report_interval bank ->
   TrainMemoryBank.n_steps bank mod TrainMemoryBank.report_interval bank = 0 ->
   due = multiples_reached (TrainMemoryBank.report_interval bank)
           (TrainMemoryBank.n_steps bank) n_batches) /\
  (forall s1 : State,
      outcome (periodic_evaluation s1) = Return tt ->
      exists valid_loss valid_acc valid_acc_aux test_result,
        outcome (evaluate false s1) =
          Return (valid_loss, valid_acc, valid_acc_aux) /\
        let s2 := final (evaluate false s1) in
        outcome (evaluate true s2) = Return test_result /\
        let s3 := final (evaluate true s2) in
        outcome (update valid_loss valid_acc s3) = Return tt /\
        let s4 := final (update valid_loss valid_acc s3) in
        trace (periodic_evaluation s1) =
          [Stdout L_val_banner] ++ trace (evaluate false s1) ++
          [Stdout L_tst_banner] ++ trace (evaluate true s2) ++
          trace (update valid_loss valid_acc s3) ++
          (if is_multi (task s4) then trace (update_aux valid_acc_aux s4)
           else []) ++
          [SchedulerStep valid_acc] /\
        final (periodic_evaluation s1) =
          set_model_training true
            (set_torch (scheduler_step (torch s4) valid_acc) s4)).
Proof.
  intros Ho. cbv zeta.
  split.
  { pose proof (train_segments s) as S. unfold wp in S. exact (S _ Ho). }
  split; [| split; [| exact periodic_evaluation_content]].
  2: { intros Hr Hn. apply evaluations_due_in_phase; [exact Hr |].
       rewrite Z.sub_0_r. exact Hn. }
  pose proof (train_spec (tfr s) s eq_refl) as H. unfold wp in H.
  destruct H as (_ & _ & H). destruct (H _ Ho) as (A1 & _ & _ & A4).
  cbv zeta in A4. unfold tally in A4. injection A4 as C1 C2 C3.
  repeat split; auto.
  destruct A1 as (_ & _ & _ & _ & _ & ->). reflexivity.
Qed.

(** ** Rounding keeps the magnitude *)

Lemma digits2_pos_size (p : positive) : digits2_pos p = Pos.size p.
Proof. induction p; simpl; congruence. Qed.

Lemma digits2_log2 (p : positive) :
  Zpos (digits2_pos p) = Z.log2 (Zpos p) + 1.
Proof.
  rewrite digits2_pos_size. destruct p; simpl; try rewrite Pos2Z.inj_succ; lia.
Qed.

Lemma Zdigits2_log2 (m : Z) : 0 < m -> Zdigits2 m = Z.log2 m + 1.
Proof. destruct m as [| p | p]; try lia. intros _. apply digits2_log2. Qed.

Lemma shr_1_m (mrs : shr_record) :
  0 <= shr_m mrs -> shr_m (shr_1 mrs) = Z.shiftr (shr_m mrs) 1.
Proof.
  destruct mrs as [m r s]. simpl. rewrite <- Z.div2_spec.
  destruct m as [| [p | p |] | p]; simpl; try reflexivity; lia.
Qed.

Lemma shiftr_nonneg (a n : Z) : 0 <= a -> 0 <= Z.shiftr a n.
Proof. intros H. apply Z.shiftr_nonneg. exact H. Qed.

Lemma iter_shr_1_m (q : positive) :
  forall mrs, 0 <= shr_m mrs ->
              shr_m (iter_pos shr_1 q mrs) = Z.shiftr (shr_m mrs) (Zpos q).
Proof.
  induction q as [q IH | q IH |]; intros mrs H; simpl.
  - assert (H1 : 0 <= shr_m (shr_1 mrs))
      by (rewrite shr_1_m by exact H; apply shiftr_nonneg; exact H).
    assert (H2 : 0 <= shr_m (iter_pos shr_1 q (shr_1 mrs)))
      by (rewrite IH by exact H1; apply shiftr_nonneg; exact H1).
    rewrite IH, IH, shr_1_m by assumption.
    rewrite !Z.shiftr_shiftr by lia. f_equal. lia.
  - assert (H2 : 0 <= shr_m (iter_pos shr_1 q mrs))
      by (rewrite IH by exact H; apply shiftr_nonneg; exact H).
    rewrite IH, IH by assumption.
    rewrite !Z.shiftr_shiftr by lia. f_equal. lia.
  - apply shr_1_m. exact H.
Qed.

Lemma shr_record_of_loc_m (m : Z) (l : location) :
  shr_m (shr_record_of_loc m l) = m.
Proof. destruct l as [| []]; reflexivity. Qed.

(** [shr] shifts the mantissa right by [n] bits when [n] is positive. *)
Lemma shr_spec (mrs : shr_record) (e n : Z) :
  0 <= shr_m mrs ->
  shr_m (fst (shr mrs e n)) = Z.shiftr (shr_m mrs) (Z.max 0 n) /\
  snd (shr mrs e n) = e + Z.max 0 n.
Proof.
  intros H. destruct n as [| p | p]; simpl.
  - split; [reflexivity | lia].
  - split; [apply iter_shr_1_m; exact H | reflexivity].
  - split; [reflexivity | lia].
Qed.

Lemma round_nearest_even_bounds (m : Z) (l : location) :
  m <= round_nearest_even m l <= m + 1.
Proof.
  destruct l as [| []]; simpl; try lia. destruct (Z.even m); lia.
Qed.

Lemma shiftr_pos (a n : Z) :
  0 < a -> 0 <= n <= Z.log2 a ->
  0 < Z.shiftr a n /\ Z.log2 (Z.shiftr a n) = Z.log2 a - n.
Proof.
  intros Ha Hn.
  assert (H : 0 < Z.shiftr a n).
  { rewrite Z.shiftr_div_pow2 by lia.
    apply Z.div_str_pos. split; [apply Z.pow_pos_nonneg; lia |].
    apply Z.log2_le_pow2; lia. }
  split; [exact H |]. rewrite Z.log2_shiftr by exact Ha. lia.
Qed.

(** The result of rounding a positive mantissa [p] with exponent [ex],
    the number [p * 2^ex] being above the least subnormal: a finite number
    or an infinity of the sign given, of at least the magnitude of the
    number rounded, and canonical when the mantissa was not too short. *)
Lemma binary_round_aux_spec (sx : bool) (p : positive) (ex : Z) (l : location) :
  -1074 < Zpos (digits2_pos p) + ex ->
  exists (m3 : positive) (e3 : Z),
    binary_round_aux prec emax sx (Zpos p) ex l =
      (if e3 <=? emax - prec then S754_finite sx m3 e3 else S754_infinity sx) /\
    Zpos (digits2_pos p) + ex <= Zpos (digits2_pos m3) + e3 /\
    (ex <= fexp64 (Zpos (digits2_pos p) + ex) ->
     fexp64 (Zpos (digits2_pos m3) + e3) = e3).
Proof.
  intros HD. unfold binary_round_aux.
  set (D := Zpos (digits2_pos p) + ex) in *.
  unfold shr_fexp.
  change (fexp prec emax (Zdigits2 (Zpos p) + ex) - ex) with (fexp64 D - ex).
  set (n1 := fexp64 D - ex).
  pose proof (shr_spec (shr_record_of_loc (Zpos p) l) ex n1) as S1.
  rewrite shr_record_of_loc_m in S1. specialize (S1 ltac:(lia)).
  destruct (shr (shr_record_of_loc (Zpos p) l) ex n1) as [mrs1 e1].
  cbn [fst snd] in S1. destruct S1 as [M1 E1].
  assert (Hp : Zpos (digits2_pos p) = Z.log2 (Zpos p) + 1) by apply digits2_log2.
  assert (K1 : 0 <= Z.max 0 n1 <= Z.log2 (Zpos p))
    by (pose proof (Z.log2_nonneg (Zpos p)); unfold n1, fexp64, D; lia).
  destruct (shiftr_pos (Zpos p) (Z.max 0 n1) ltac:(lia) K1) as [P1 L1].
  rewrite <- M1 in P1, L1.
  set (m2 := round_nearest_even (shr_m mrs1) (loc_of_shr_record mrs1)).
  pose proof (round_nearest_even_bounds (shr_m mrs1) (loc_of_shr_record mrs1)) as B2.
  fold m2 in B2.
  assert (P2 : 0 < m2) by lia.
  assert (L2 : Z.log2 (shr_m mrs1) <= Z.log2 m2 <= Z.log2 (shr_m mrs1) + 1).
  { split; [apply Z.log2_le_mono; lia |].
    transitivity (Z.log2 (Z.succ (shr_m mrs1)));
      [apply Z.log2_le_mono; lia | apply Z.log2_succ_le]. }
  change (fexp prec emax (Zdigits2 m2 + e1)) with (fexp64 (Zdigits2 m2 + e1)).
  rewrite (Zdigits2_log2 m2 P2).
  set (n2 := fexp64 (Z.log2 m2 + 1 + e1) - e1).
  pose proof (shr_spec (shr_record_of_loc m2 loc_Exact) e1 n2) as S2.
  rewrite shr_record_of_loc_m in S2. specialize (S2 ltac:(lia)).
  destruct (shr (shr_record_of_loc m2 loc_Exact) e1 n2) as [mrs2 e2].
  cbn [fst snd] in S2. destruct S2 as [M2 E2].
  assert (K2 : 0 <= Z.max 0 n2 <= Z.log2 m2)
    by (pose proof (Z.log2_nonneg m2); unfold n2, fexp64; unfold n1, fexp64 in E1; lia).
  destruct (shiftr_pos m2 (Z.max 0 n2) P2 K2) as [P3 L3].
  rewrite <- M2 in P3, L3.
  destruct (shr_m mrs2) as [| m3 | m3] eqn:E3; try lia.
  exists m3, e2. split; [reflexivity |].
  rewrite (digits2_log2 m3).
  split; [unfold D; lia |].
  intros Hex. unfold fexp64 in *. unfold n1, n2, fexp64, D in *. lia.
Qed.

Lemma iter_xO_shiftl (p d : positive) :
  Zpos (Pos.iter xO p d) = Z.shiftl (Zpos p) (Zpos d).
Proof.
  cbn [Z.shiftl].
  apply (Pos.iter_swap_gen _ _ Zpos xO (Z.mul 2)). reflexivity.
Qed.

(** [shl_align] lowers the exponent to [ex'] when it is below [ex],
    shifting the mantissa left. *)
Lemma shl_align_spec (mx : positive) (ex ex' : Z) :
  snd (shl_align mx ex ex') = Z.min ex ex' /\
  Zpos (fst (shl_align mx ex ex')) = Z.shiftl (Zpos mx) (ex - Z.min ex ex').
Proof.
  unfold shl_align. destruct (ex' - ex) as [| d | d] eqn:E; cbn [fst snd].
  - replace (Z.min ex ex') with ex by lia. rewrite Z.sub_diag. split; reflexivity.
  - replace (Z.min ex ex') with ex by lia. rewrite Z.sub_diag. split; reflexivity.
  - replace (Z.min ex ex') with ex' by lia.
    replace (ex - ex') with (Zpos d) by lia.
    split; [reflexivity | apply iter_xO_shiftl].
Qed.

Lemma shl_align_digits (mx : positive) (ex ex' : Z) :
  Zpos (digits2_pos (fst (shl_align mx ex ex'))) + snd (shl_align mx ex ex') =
  Zpos (digits2_pos mx) + ex.
Proof.
  destruct (shl_align_spec mx ex ex') as [E M].
  rewrite !digits2_log2, M, E, Z.log2_shiftl by lia. lia.
Qed.

(** [binary_round] gives a valid value of the sign given and of at least
    the magnitude of the number rounded. *)
Lemma binary_round_spec (sx : bool) (p : positive) (ex : Z) :
  -1074 < Zpos (digits2_pos p) + ex ->
  valid_binary (binary_round prec emax sx p ex) = true /\
  magnitude_at_least sx (Zpos (digits2_pos p) + ex)
    (binary_round prec emax sx p ex).
Proof.
  intros HD. unfold binary_round.
  pose proof (shl_align_digits p ex (fexp prec emax (Zpos (digits2_pos p) + ex)))
    as Hd.
  destruct (shl_align_spec p ex (fexp prec emax (Zpos (digits2_pos p) + ex)))
    as [Hs _].
  destruct (shl_align p ex (fexp prec emax (Zpos (digits2_pos p) + ex)))
    as [mz ez].
  cbn [fst snd] in Hd, Hs.
  destruct (binary_round_aux_spec sx mz ez loc_Exact ltac:(lia))
    as (m3 & e3 & -> & Hm & Hc).
  rewrite Hd in Hm, Hc.
  change (fexp prec emax (Zpos (digits2_pos p) + ex))
    with (fexp64 (Zpos (digits2_pos p) + ex)) in Hs.
  specialize (Hc ltac:(lia)).
  destruct (Z.leb_spec e3 (emax - prec)) as [Hle | Hgt].
  - split; [| split; [reflexivity | exact Hm]].
    unfold valid_binary, bounded, canonical_mantissa.
    change (fexp prec emax (Zpos (digits2_pos m3) + e3))
      with (fexp64 (Zpos (digits2_pos m3) + e3)).
    rewrite Hc, Z.eqb_refl. apply Z.leb_le. exact Hle.
  - split; reflexivity.
Qed.

Lemma magnitude_weaken (sg : bool) (k k' : Z) (f : spec_float) :
  k' <= k -> magnitude_at_least sg k f -> magnitude_at_least sg k' f.
Proof.
  destruct f; cbn [magnitude_at_least]; auto.
  intros H [E L]. split; [exact E | lia].
Qed.

Lemma binary_round_aux_magnitude (sx : bool) (p : positive) (ex : Z)
    (l : location) (k : Z) :
  -1074 < k -> k <= Zpos (digits2_pos p) + ex ->
  magnitude_at_least sx k (binary_round_aux prec emax sx (Zpos p) ex l).
Proof.
  intros Hk HD.
  destruct (binary_round_aux_spec sx p ex l ltac:(lia)) as (m3 & e3 & -> & Hm & _).
  destruct (e3 <=? emax - prec); cbn [magnitude_at_least];
    [split; [reflexivity | lia] | reflexivity].
Qed.

(** ** The magnitude of [float(n)] *)

Lemma float_of_int_magnitude (p : positive) :
  magnitude_at_least false (Zpos (digits2_pos p)) (Prim2SF (float_of_int (Zpos p))).
Proof.
  unfold float_of_int. cbn [binary_normalize].
  destruct (binary_round_spec false p 0) as [V M];
    [pose proof (Pos2Z.is_pos (digits2_pos p)); lia |].
  rewrite (FloatAxioms.Prim2SF_SF2Prim _ V).
  rewrite Z.add_0_r in M. exact M.
Qed.

(** ** Magnitudes through the arithmetic of the schedule *)

Lemma canonical_exponent (s : bool) (m : positive) (e : Z) :
  valid_binary (S754_finite s m e) = true ->
  -1074 <= e /\ Zpos (digits2_pos m) <= 53.
Proof.
  unfold valid_binary, bounded, canonical_mantissa. intros H.
  apply andb_prop in H. destruct H as [H _]. apply Z.eqb_eq in H.
  change (fexp prec emax (Zpos (digits2_pos m) + e))
    with (fexp64 (Zpos (digits2_pos m) + e)) in H.
  unfold fexp64 in H. lia.
Qed.

(** [x * 1.5] *)
Lemma mul_magnitude (k : Z) (x : spec_float) :
  -1074 < k ->
  magnitude_at_least false k x ->
  magnitude_at_least false k (SF64mul x (Prim2SF 1.5)).
Proof.
  intros Hk Hx.
  change (Prim2SF 1.5) with (S754_finite false 6755399441055744 (-52)).
  destruct x as [| s | | s mx ex]; cbn [magnitude_at_least] in Hx; try contradiction.
  - subst s. reflexivity.
  - destruct Hx as [-> Hx]. unfold SF64mul, SFmul. cbn [xorb].
    apply binary_round_aux_magnitude; [exact Hk |].
    rewrite digits2_log2 in *. rewrite Pos2Z.inj_mul.
    pose proof (Z.log2_mul_below (Zpos mx) 6755399441055744 ltac:(lia) ltac:(lia)) as H.
    change (Z.log2 6755399441055744) with 52 in H. lia.
Qed.

(** [10 + x] *)
Lemma add_magnitude (k : Z) (x : spec_float) :
  -1074 < k ->
  magnitude_at_least false k x ->
  magnitude_at_least false k (SF64add (Prim2SF 10) x).
Proof.
  intros Hk Hx.
  change (Prim2SF 10) with (S754_finite false 5629499534213120 (-49)).
  destruct x as [| s | | s mx ex]; cbn [magnitude_at_least] in Hx; try contradiction.
  - subst s. reflexivity.
  - destruct Hx as [-> Hx]. unfold SF64add, SFadd. cbn [cond_Zopp].
    set (ez := Z.min (-49) ex).
    destruct (shl_align_spec 5629499534213120 (-49) ez) as [_ A].
    destruct (shl_align_spec mx ex ez) as [_ B].
    set (a := fst (shl_align 5629499534213120 (-49) ez)) in *.
    set (b := fst (shl_align mx ex ez)) in *.
    replace (Z.min (-49) ez) with ez in A by (unfold ez; lia).
    replace (Z.min ex ez) with ez in B by (unfold ez; lia).
    change (Zpos a + Zpos b) with (Zpos (a + b)). cbn [binary_normalize].
    assert (L : Zpos (digits2_pos mx) + ex <= Zpos (digits2_pos (a + b)) + ez).
    { rewrite !digits2_log2.
      assert (Z.log2 (Zpos b) <= Z.log2 (Zpos (a + b)))
        by (apply Z.log2_le_mono; lia).
      rewrite B, Z.log2_shiftl in H by (unfold ez; lia). lia. }
    destruct (binary_round_spec false (a + b) ez ltac:(lia)) as [_ M].
    eapply magnitude_weaken; [| exact M]. lia.
Qed.

Lemma log2_div_below (a b : Z) :
  0 < b -> Z.log2 b < Z.log2 a ->
  0 < a / b /\ Z.log2 a - Z.log2 b - 1 <= Z.log2 (a / b).
Proof.
  intros Hb Hl.
  assert (Ha : 0 < a).
  { destruct (Z.lt_trichotomy a 0) as [H | [H | H]]; [| | exact H].
    - rewrite (Z.log2_nonpos a) in Hl by lia. pose proof (Z.log2_nonneg b). lia.
    - subst a. simpl in Hl. pose proof (Z.log2_nonneg b). lia. }
  pose proof (Z.log2_spec a Ha) as [A1 _].
  pose proof (Z.log2_spec b Hb) as [_ B2].
  pose proof (Z.log2_nonneg b) as Hnb.
  assert (P : 2 ^ (Z.log2 a - Z.log2 b - 1) <= a / b).
  { apply Z.div_le_lower_bound; [exact Hb |].
    assert (E : 2 ^ Z.log2 a =
                2 ^ Z.succ (Z.log2 b) * 2 ^ (Z.log2 a - Z.log2 b - 1))
      by (rewrite <- Z.pow_add_r by lia; f_equal; lia).
    assert (0 < 2 ^ (Z.log2 a - Z.log2 b - 1)) by (apply Z.pow_pos_nonneg; lia).
    nia. }
  assert (Q : 0 < 2 ^ (Z.log2 a - Z.log2 b - 1)) by (apply Z.pow_pos_nonneg; lia).
  split; [lia |].
  apply Z.log2_le_pow2; [lia | exact P].
Qed.

(** [x / 50] *)
Lemma div_magnitude (k : Z) (x : spec_float) :
  -1000 < k ->
  valid_binary x = true ->
  magnitude_at_least false k x ->
  magnitude_at_least false (k - 6) (SF64div x (Prim2SF 50)).
Proof.
  intros Hk Hv Hx.
  change (Prim2SF 50) with (S754_finite false 7036874417766400 (-47)).
  destruct x as [| s | | s mx ex]; cbn [magnitude_at_least] in Hx; try contradiction.
  - subst s. reflexivity.
  - destruct Hx as [-> Hx]. destruct (canonical_exponent _ _ _ Hv) as [He Hd].
    unfold SF64div, SFdiv, SFdiv_core_binary. cbn [xorb].
    change (Zdigits2 (Zpos mx)) with (Zpos (digits2_pos mx)).
    change (Zdigits2 7036874417766400) with 53.
    change (fexp prec emax (Zpos (digits2_pos mx) + ex - (53 + -47)))
      with (fexp64 (Zpos (digits2_pos mx) + ex - (53 + -47))).
    set (e' := Z.min (fexp64 (Zpos (digits2_pos mx) + ex - (53 + -47))) (ex - -47)).
    set (s := ex - -47 - e').
    assert (Hs : 53 <= s) by (unfold s, e', fexp64; lia).
    set (m' := match s with
               | 0 => Zpos mx
               | Zpos _ => Z.shiftl (Zpos mx) s
               | Zneg _ => 0
               end).
    assert (Hm' : m' = Z.shiftl (Zpos mx) s)
      by (unfold m'; destruct s; try reflexivity; lia).
    assert (Lm' : Z.log2 m' = Z.log2 (Zpos mx) + s)
      by (rewrite Hm'; apply Z.log2_shiftl; lia).
    pose proof (Z.log2_nonneg (Zpos mx)) as Hnn.
    destruct (log2_div_below m' 7036874417766400 ltac:(lia)) as [Q1 Q2];
      [change (Z.log2 7036874417766400) with 52; lia |].
    change (Z.log2 7036874417766400) with 52 in Q2.
    unfold Z.div in Q1, Q2.
    destruct (Z.div_eucl m' 7036874417766400) as [q r].
    destruct q as [| pq | pq]; try lia.
    apply binary_round_aux_magnitude; [lia |].
    rewrite digits2_log2 in *. unfold s in *. lia.
Qed.

(** [1 - x] for [x] of magnitude at least 2: a negative number, or minus
    infinity. *)
Lemma sub_magnitude (k : Z) (x : spec_float) :
  2 <= k ->
  valid_binary x = true ->
  magnitude_at_least false k x ->
  exists j, magnitude_at_least true j (SF64sub (Prim2SF 1) x).
Proof.
  intros Hk Hv Hx.
  change (Prim2SF 1) with (S754_finite false 4503599627370496 (-52)).
  destruct x as [| s | | s mx ex]; cbn [magnitude_at_least] in Hx; try contradiction.
  - subst s. exists 0. reflexivity.
  - destruct Hx as [-> Hx]. destruct (canonical_exponent _ _ _ Hv) as [He Hd].
    unfold SF64sub, SFsub. cbn [cond_Zopp].
    set (ez := Z.min (-52) ex).
    destruct (shl_align_spec 4503599627370496 (-52) ez) as [_ A].
    destruct (shl_align_spec mx ex ez) as [_ B].
    set (a := fst (shl_align 4503599627370496 (-52) ez)) in *.
    set (b := fst (shl_align mx ex ez)) in *.
    replace (Z.min (-52) ez) with ez in A by (unfold ez; lia).
    replace (Z.min ex ez) with ez in B by (unfold ez; lia).
    assert (Hab : Zpos a < Zpos b).
    { apply Z.log2_lt_cancel.
      rewrite A, B, !Z.log2_shiftl by (unfold ez; lia).
      change (Z.log2 4503599627370496) with 52.
      rewrite digits2_log2 in Hx. lia. }
    destruct (Zpos a - Zpos b) as [| c | c] eqn:E; try lia.
    cbn [binary_normalize].
    destruct (binary_round_spec true c ez) as [_ M].
    { pose proof (Pos2Z.is_pos (digits2_pos c)). unfold ez. lia. }
    eexists. exact M.
Qed.

(** A negative number is below 0.2. *)
Lemma negative_below (j : Z) (x : spec_float) :
  magnitude_at_least true j x -> SFltb x (Prim2SF 0.2) = true.
Proof.
  change (Prim2SF 0.2) with (S754_finite false 7205759403792794 (-55)).
  destruct x as [| s | | s m e]; cbn [magnitude_at_least]; try contradiction.
  - intros ->. reflexivity.
  - intros [-> _]. reflexivity.
Qed.

(** ** The schedule from epoch 128 on

    [float(e)] is at least 128, so are [float(e) * 1.5] and
    [10 + float(e) * 1.5]; the quotient by 50 is at least 2, and 1 minus
    it is negative: the maximum with 0.2 is 0.2. *)

Lemma digits2_pos_large (p : positive) :
  128 <= Zpos p -> 8 <= Zpos (digits2_pos p).
Proof.
  intros H. rewrite digits2_log2.
  assert (7 <= Z.log2 (Zpos p)) by (apply Z.log2_le_pow2; [lia | exact H]).
  lia.
Qed.

Lemma decayed_tfr_floor (e : Z) : 128 <= e -> decayed_tfr e = 0.2%float.
Proof.
  intros He. destruct e as [| p | p]; try lia.
  pose proof (float_of_int_magnitude p) as M0.
  apply (magnitude_weaken _ _ 8) in M0; [| apply digits2_pos_large; exact He].
  apply (mul_magnitude 8) in M0; [| lia]. rewrite <- mul_spec in M0.
  apply (add_magnitude 8) in M0; [| lia]. rewrite <- add_spec in M0.
  apply (div_magnitude 8) in M0; [| lia | apply Prim2SF_valid].
  rewrite <- div_spec in M0.
  apply (sub_magnitude (8 - 6)) in M0; [| lia | apply Prim2SF_valid].
  rewrite <- sub_spec in M0. destruct M0 as [j M0].
  apply negative_below in M0. rewrite <- ltb_spec in M0.
  unfold decayed_tfr, py_max. rewrite M0. reflexivity.
Qed.

(** ** The binary64 schedule for every epoch *)

Lemma decayed_tfr_exact_floor (e : Z) :
  20 <= e -> (decayed_tfr_exact e == 1 # 5)%Q.
Proof.
  intros H. unfold decayed_tfr_exact. apply Q.max_r.
  rewrite Zle_Qle in H. change (inject_Z 20) with (20 # 1)%Q in H.
  unfold Qdiv. change (/ 50)%Q with (1 # 50)%Q. lra.
Qed.

Lemma decayed_tfr_from_20 (e : Z) : 20 <= e -> decayed_tfr e = 0.2%float.
Proof.
  intros H. destruct (Z.ltb_spec e checked_epochs) as [Hlt | Hge].
  - pose proof (schedule_check_holds e ltac:(lia)) as C.
    unfold schedule_check in C. cbv zeta in C.
    apply andb_prop in C. destruct C as [_ C].
    destruct (Z.leb_spec 20 e); [| lia].
    apply FloatAxioms.Leibniz.eqb_spec in C. exact C.
  - apply decayed_tfr_floor. unfold checked_epochs in Hge. lia.
Qed.

Lemma decayed_tfr_binary64 (e : Z) :
  0 <= e ->
  is_finite (decayed_tfr e) = true /\
  float_le 0.2%float (decayed_tfr e) = true /\
  (Qabs (Q_of_float (decayed_tfr e) - decayed_tfr_exact e)
   <= 1 # 4503599627370496)%Q /\
  (20 <= e -> decayed_tfr e = 0.2%float) /\
  forall e', e <= e' -> float_le (decayed_tfr e') (decayed_tfr e) = true.
Proof.
  intros H.
  assert (A : is_finite (decayed_tfr e) = true /\
              float_le 0.2%float (decayed_tfr e) = true /\
              (Qabs (Q_of_float (decayed_tfr e) - decayed_tfr_exact e)
               <= 1 # 4503599627370496)%Q).
  { destruct (Z.ltb_spec e 20) as [Hlt | Hge].
    - destruct (decayed_tfr_checked e) as (A1 & A2 & A3 & _);
        [unfold checked_epochs; lia | auto].
    - rewrite (decayed_tfr_from_20 e Hge).
      split; [reflexivity |]. split; [reflexivity |].
      rewrite (decayed_tfr_exact_floor e Hge).
      apply Qle_bool_iff. vm_compute. reflexivity. }
  destruct A as (A1 & A2 & A3).
  split; [exact A1 |]. split; [exact A2 |]. split; [exact A3 |].
  split; [apply decayed_tfr_from_20 |].
  intros e' H'. destruct (Z.ltb_spec e' 20) as [Hlt | Hge].
  - destruct (decayed_tfr_checked e) as (_ & _ & _ & M);
      [unfold checked_epochs; lia |].
    apply M. unfold checked_epochs. lia.
  - rewrite (decayed_tfr_from_20 e' Hge). exact A2.
Qed.

(** ** The schedule events of a run *)

Lemma evaluate_event_quiet (e : Event) :
  evaluate_event e -> is_schedule_event e = false.
Proof.
  destruct e as [[] | | [] ratio |]; simpl; try contradiction; try reflexivity.
  intros [H _]. discriminate.
Qed.

Lemma filter_quiet (P : Event -> Prop) (t : list Event) :
  (forall e, P e -> is_schedule_event e = false) ->
  Forall P t -> filter is_schedule_event t = [].
Proof.
  intros HP Ht. induction Ht as [| e t He _ IH]; [reflexivity |].
  simpl. rewrite (HP e He). exact IH.
Qed.

(** Brings the schedule events of a trace built by appending to those of
    its parts. *)
Ltac schedule_parts :=
  repeat first
    [ progress simpl
    | rewrite app_nil_r
    | rewrite filter_app
    | match goal with
      | H : filter is_schedule_event _ = _ |- _ => rewrite H
      end ];
  try reflexivity.

Lemma evaluate_schedule (is_test : bool) (s : State) :
  wp (evaluate is_test)
     (fun o s' t =>
        same_records s s' /\
        model_training s' = false /\
        model_teacher_forcing_ratio s' =
          match o with Return _ => tfr s | Raise _ => 0%float end /\
        filter is_schedule_event t = []) s.
Proof.
  eapply wp_weaken; [apply evaluate_spec |].
  cbv beta. intros o s' t (H1 & H2 & H3 & t' & -> & Ht).
  split; [exact H1 |]. split; [exact H2 |]. split; [exact H3 |].
  simpl. apply (filter_quiet _ _ evaluate_event_quiet Ht).
Qed.

Lemma update_quiet (valid_loss valid_acc : float) (s : State) :
  filter is_schedule_event (trace (update valid_loss valid_acc s)) = [].
Proof. update_cases valid_loss valid_acc s. all: reflexivity. Qed.

Lemma update_schedule (valid_loss valid_acc : float) (s : State) :
  wp (update valid_loss valid_acc)
     (fun _ s' t =>
        same_settings s s' /\
        model_training s' = model_training s /\
        model_teacher_forcing_ratio s' = model_teacher_forcing_ratio s /\
        filter is_schedule_event t = []) s.
Proof.
  pose proof (update_spec valid_loss valid_acc 0%float s) as H.
  unfold wp in *. destruct H as (H1 & H2 & H3 & _).
  split; [exact H1 |]. split; [exact H2 |]. split; [exact H3 |].
  apply update_quiet.
Qed.

Lemma update_aux_schedule (valid_acc_aux : float) (s : State) :
  wp (update_aux valid_acc_aux)
     (fun o s' t =>
        o = Return tt /\ s' = s /\ filter is_schedule_event t = []) s.
Proof.
  destruct (update_aux_final valid_acc_aux s) as (H1 & H2 & _).
  unfold wp. split; [exact H2 | split; [exact H1 |]].
  unfold update_aux, bind, get, when, print, emit, ret. simpl.
  destruct (float_ge _ _); reflexivity.
Qed.

Lemma periodic_evaluation_schedule (s : State) :
  wp periodic_evaluation
     (fun _ _ t => filter is_schedule_event t = []) s.
Proof.
  unfold periodic_evaluation. wp_run.
  eapply wp_weaken; [apply (evaluate_schedule false) |].
  cbv beta. intros o1 s1 t1 (_ & _ & _ & Q1).
  destruct o1 as [[[valid_loss valid_acc] valid_acc_aux] | e1]; wp_run.
  2: { schedule_parts. }
  eapply wp_weaken; [apply (evaluate_schedule true) |].
  cbv beta. intros o2 s2 t2 (_ & _ & _ & Q2).
  destruct o2 as [x2 | e2]; wp_run.
  2: { schedule_parts. }
  eapply wp_weaken; [apply (update_schedule valid_loss valid_acc) |].
  cbv beta. intros o3 s3 t3 (_ & _ & _ & Q3).
  destruct o3 as [x3 | e3]; wp_run.
  all: try (eapply wp_weaken; [apply (update_aux_schedule valid_acc_aux) |];
            cbv beta; intros o4 s4 t4 (-> & -> & Q4); wp_run).
  all: schedule_parts.
Qed.

Lemma report_schedule (i : Z) (running_loss : float) (s : State) :
  wp (report i running_loss)
     (fun _ _ t => filter is_schedule_event t = []) s.
Proof.
  unfold report. wp_run.
  - reflexivity.
  - eapply wp_weaken; [apply periodic_evaluation_schedule |].
    cbv beta. intros o s' t Q. schedule_parts.
  - reflexivity.
Qed.

(** The loop of [train] makes its forward calls in training mode with
    the ratio [d] the model and the trainer hold, one per batch for as
    long as it goes on, and leaves the trainer's ratio and the data as
    they were. *)
Lemma train_loop_schedule (batches : list Batch) :
  forall (i : Z) (epoch_loss d : float) (s : State),
    model_training s = true ->
    model_teacher_forcing_ratio s = d ->
    tfr s = d ->
    wp (train_loop i batches epoch_loss)
       (fun o s' t =>
          tfr s' = d /\
          data_container s' = data_container s /\
          exists j : nat,
            (j <= List.length batches)%nat /\
            filter is_schedule_event t = repeat (ModelCall true d) j /\
            (forall x, o = Return x ->
               j = List.length batches /\
               model_teacher_forcing_ratio s' = d)) s.
Proof.
  induction batches as [| batch rest IH]; intros i epoch_loss d s Hm Hr Ht.
  - simpl. wp_run. split; [exact Ht |]. split; [reflexivity |].
    exists 0%nat. repeat split; auto.
  - cbn [train_loop]. wp_run.
    all: repeat match goal with
         | H : py_mod _ _ = Return _ |- _ =>
             apply py_mod_return in H; destruct H as [? ?]
         end; fields.
    + eapply wp_weaken;
        [apply wp_conj;
         [apply (report_spec i _ d); fields; congruence | apply report_schedule] |].
      cbv beta. intros o s' t [(F & _ & HR) Q]. fields.
      destruct F as (_ & F2 & _ & _ & _ & F6). fields.
      destruct o as [x | e].
      * destruct (HR x eq_refl) as (H1 & H2 & _). fields.
        eapply wp_weaken;
          [apply (IH (i + 1) _ d); [exact H1 | congruence | congruence] |].
        cbv beta. intros o' s'' t' (T & D & j & Hj & Hf & Hx).
        split; [exact T |]. split; [congruence |].
        exists (S j). split; [simpl; lia |].
        split; [rewrite Hm, Hr; schedule_parts |].
        intros y Hy. destruct (Hx y Hy) as [-> E]. split; [reflexivity | exact E].
      * split; [congruence |]. split; [exact F2 |].
        exists 1%nat. split; [simpl; lia |].
        split; [rewrite Hm, Hr; schedule_parts | discriminate].
    + eapply wp_weaken; [apply (IH (i + 1) _ d); fields; assumption |].
      cbv beta. intros o' s'' t' (T & D & j & Hj & Hf & Hx). fields.
      split; [exact T |]. split; [exact D |].
      exists (S j). split; [simpl; lia |].
      split; [rewrite Hm, Hr; schedule_parts |].
      intros y Hy. destruct (Hx y Hy) as [-> E]. split; [reflexivity | exact E].
    + split; [exact Ht |]. split; [reflexivity |].
      exists 1%nat. split; [simpl; lia |].
      split; [rewrite Hm, Hr; schedule_parts | discriminate].
Qed.

Lemma train_schedule (s : State) :
  wp train
     (fun o s' t =>
        tfr s' = tfr s /\
        data_container s' = data_container s /\
        exists j : nat,
          (j <= List.length (train_iter (data_container s)))%nat /\
          filter is_schedule_event t =
            Stdout (L_train_tfr (tfr s)) :: repeat (ModelCall true (tfr s)) j /\
          (forall x, o = Return x ->
             j = List.length (train_iter (data_container s)) /\
             model_teacher_forcing_ratio s' = tfr s)) s.
Proof.
  unfold train. wp_run. fields.
  eapply wp_weaken; [apply (train_loop_schedule _ 0 _ (tfr s)); reflexivity |].
  cbv beta. intros o s' t (T & D & j & Hj & Hf & Hx). fields.
  destruct o as [x | e]; wp_run.
  all: split; [exact T |]; split; [exact D |]; exists j; split; [exact Hj |].
  all: split; [schedule_parts |].
  all: try (intros; discriminate).
  intros y _. apply (Hx x eq_refl).
Qed.

(** One epoch: the trainer's ratio is set to the scheduled value and
    stays so on every exit; the ratio is announced and then used by every
    forward call the training pass makes. *)
Lemma epoch_body_schedule (epoch : Z) (s : State) :
  wp (epoch_body epoch)
     (fun o s' t =>
        tfr s' = decayed_tfr epoch /\
        data_container s' = data_container s /\
        exists j : nat,
          (j <= List.length (train_iter (data_container s)))%nat /\
          filter is_schedule_event t =
            Stdout (L_train_tfr (decayed_tfr epoch)) ::
            repeat (ModelCall true (decayed_tfr epoch)) j /\
          (forall x, o = Return x ->
             j = List.length (train_iter (data_container s)) /\
             model_teacher_forcing_ratio s' = decayed_tfr epoch)) s.
Proof.
  unfold epoch_body. wp_run.
  eapply wp_weaken; [apply train_schedule |].
  cbv beta. intros o1 s1 t1 (T1 & D1 & j & Hj & Q1 & Hx). fields.
  destruct o1 as [train_loss | e1]; wp_run.
  2: { split; [exact T1 |]. split; [exact D1 |]. exists j.
       split; [exact Hj |]. split; [schedule_parts | discriminate]. }
  destruct (Hx _ eq_refl) as [-> _]. clear Hx.
  eapply wp_weaken; [apply (evaluate_schedule false) |].
  cbv beta. intros o2 s2 t2 ([(_ & F2 & _ & _ & _ & F6) _] & _ & R2 & Q2).
  destruct o2 as [[[valid_loss valid_acc] valid_acc_aux] | e2]; wp_run.
  2: { split; [congruence |]. split; [congruence |]. eexists.
       split; [reflexivity |]. split; [schedule_parts | discriminate]. }
  eapply wp_weaken; [apply (update_schedule valid_loss valid_acc) |].
  cbv beta. intros o3 s3 t3 ((_ & G2 & _ & _ & _ & G6) & _ & R3 & Q3).
  destruct o3 as [x3 | e3]; wp_run.
  all: try (eapply wp_weaken; [apply (update_aux_schedule valid_acc_aux) |];
            cbv beta; intros o4 s4 t4 (-> & -> & Q4); wp_run).
  all: split; [congruence |]; split; [congruence |]; eexists;
       split; [reflexivity |]; split; [schedule_parts |].
  all: try (intros; discriminate).
  all: intros _ _; split; [reflexivity | congruence].
Qed.

Lemma epoch_head_schedule (burning_epoch epoch : Z) (s : State) :
  wp (epoch_head burning_epoch epoch)
     (fun o s' t =>
        data_container s' = data_container s /\
        filter is_schedule_event t = [] /\
        count is_epoch_line t = 0%nat /\
        exists stop, o = Return stop) s.
Proof.
  unfold epoch_head. wp_run.
  all: fields; repeat split; eauto.
Qed.

Lemma firstn_count_up (len : nat) :
  forall (start : Z) (k : nat),
    (k <= len)%nat -> firstn k (count_up start len) = count_up start k.
Proof.
  induction len as [| len IH]; intros start k H.
  - replace k with 0%nat by lia. reflexivity.
  - destruct k as [| k]; [reflexivity |].
    cbn [count_up firstn]. rewrite IH by lia. reflexivity.
Qed.

Lemma firstn_py_range (n : Z) (k : nat) :
  (k <= List.length (py_range n))%nat ->
  firstn k (py_range n) = py_range (Z.of_nat k).
Proof.
  intros H. unfold py_range in *. rewrite length_count_up in H.
  rewrite Nat2Z.id. apply firstn_count_up. exact H.
Qed.

(** The schedule events of the loop over the epochs: those of the epochs
    in order, each with its scheduled ratio, up to where the loop ends;
    when it returns, those of the epochs it completed. *)
Lemma run_loop_schedule (burning_epoch : Z) (epochs : list Z) :
  forall s : State,
    wp (run_loop burning_epoch epochs)
       (fun o s' t =>
          let n := List.length (train_iter (data_container s)) in
          data_container s' = data_container s /\
          (exists rest,
              flat_map (epoch_schedule n) epochs =
              filter is_schedule_event t ++ rest) /\
          (forall x, o = Return x ->
             (count is_epoch_line t <= List.length epochs)%nat /\
             filter is_schedule_event t =
               flat_map (epoch_schedule n)
                        (firstn (count is_epoch_line t) epochs))) s.
Proof.
  induction epochs as [| epoch rest IH]; intros s.
  - simpl. wp_run. cbv zeta. split; [reflexivity |].
    split; [exists []; reflexivity |].
    intros _ _. split; [rewrite count_nil; simpl; lia | reflexivity].
  - cbn [run_loop]. wp_run.
    eapply wp_weaken; [apply epoch_head_schedule |].
    cbv beta. intros o1 s1 t1 (D1 & Q1 & L1 & stop & ->).
    destruct stop; wp_run.
    + cbv zeta. split; [exact D1 |]. rewrite app_nil_r, Q1, L1.
      split; [eexists; reflexivity |].
      intros _ _. split; [simpl; lia | reflexivity].
    + eapply wp_weaken;
        [apply wp_conj; [apply epoch_body_schedule | apply epoch_body_account] |].
      cbv beta. intros o2 s2 t2 [(_ & D2 & j & Hj & Q2 & Hx) (_ & A2)].
      rewrite D1 in *.
      set (n := List.length (train_iter (data_container s))) in *.
      destruct o2 as [x2 | e2]; wp_run.
      * destruct (Hx _ eq_refl) as [-> _].
        destruct (A2 _ eq_refl) as (L2 & _).
        eapply wp_weaken; [apply IH |].
        cbv beta zeta. intros o3 s3 t3 (D3 & (rest' & P3) & R3).
        rewrite D2 in *. fold n in P3, R3.
        split; [congruence |].
        rewrite !filter_app, Q1, Q2, !count_app, L1, L2. cbn [app flat_map].
        split.
        { exists rest'. rewrite P3. unfold epoch_schedule.
          rewrite <- app_assoc. reflexivity. }
        intros x Hx'. destruct (R3 x Hx') as [K3 F3].
        split; [simpl; lia |].
        cbn [Nat.add firstn flat_map]. rewrite <- F3. reflexivity.
      * cbv zeta. fold n. split; [exact D2 |]. rewrite !filter_app, Q1, Q2.
        split; [| discriminate].
        exists (repeat (ModelCall true (decayed_tfr epoch)) (n - j)
                ++ flat_map (epoch_schedule n) rest).
        cbn [flat_map app]. unfold epoch_schedule at 1.
        replace n with (j + (n - j))%nat at 1 by lia.
        rewrite repeat_app. cbn [app]. rewrite <- app_assoc. reflexivity.
Qed.

(** C3: for every epoch index [e] processed by [run], the ratio used is
    [max(1 - (10 + 1.5 e)/50, 0.2)].  One epoch sets the trainer's ratio to
    this value, on every exit; its training pass announces it and uses it
    in every forward call it makes in training mode, one per training
    batch when the epoch completes.  The schedule events of a whole run are
    those of its epochs 0, 1, ... in order, each with its own value, as far
    as the run goes; when it returns after [k] completed epochs, they are
    those of the epochs below [k].  In exact arithmetic the expression is at
    least 1/5 and non-increasing in [e]; so is its binary64 value for every
    [e >= 0], which is finite, within 2^-52 of the exact one, and equal to
    0.2 from epoch 20 on.  (For an [e] too large to convert to binary64
    Python raises instead of computing.) *)
Theorem teacher_forcing_schedule :
  (forall (epoch : Z) (s : State),
      let r := epoch_body epoch s in
      let d := decayed_tfr epoch in
      let n := List.length (train_iter (data_container s)) in
      tfr (final r) = d /\
      (exists t', trace r = Stdout (L_train_tfr d) :: t') /\
      (forall ratio, In (ModelCall true ratio) (trace r) -> ratio = d) /\
      (exists j : nat,
          (j <= n)%nat /\
          filter is_schedule_event (trace r) =
            Stdout (L_train_tfr d) :: repeat (ModelCall true d) j /\
          (forall x, outcome r = Return x ->
             j = n /\ model_teacher_forcing_ratio (final r) = d))) /\
  (forall (burning_epoch : Z) (s : State),
      let r := run burning_epoch s in
      let n := List.length (train_iter (data_container s)) in
      let total := TrainMemoryBank.total_epochs (train_memory_bank s) in
      (exists rest,
          flat_map (epoch_schedule n) (py_range total) =
          filter is_schedule_event (trace r) ++ rest) /\
      (forall x, outcome r = Return x ->
         let k := count is_epoch_line (trace r) in
         Z.of_nat k <= Z.max total 0 /\
         filter is_schedule_event (trace r) =
           flat_map (epoch_schedule n) (py_range (Z.of_nat k)))) /\
  (forall e, (1 # 5 <= decayed_tfr_exact e)%Q) /\
  (forall e1 e2, e1 <= e2 -> (decayed_tfr_exact e2 <= decayed_tfr_exact e1)%Q) /\
  (forall e, 0 <= e ->
      is_finite (decayed_tfr e) = true /\
      float_le 0.2%float (decayed_tfr e) = true /\
      (Qabs (Q_of_float (decayed_tfr e) - decayed_tfr_exact e)
       <= 1 # 4503599627370496)%Q /\
      (20 <= e -> decayed_tfr e = 0.2%float) /\
      forall e', e <= e' ->
                 float_le (decayed_tfr e') (decayed_tfr e) = true).
Proof.
  split; [| split; [| split; [| split]]].
  - intros epoch s. cbv zeta.
    pose proof (epoch_body_calls epoch s) as [U T].
    pose proof (epoch_body_schedule epoch s) as S. unfold wp in S.
    destruct S as (S1 & _ & S3).
    split; [exact S1 |]. split; [exact T |]. split; [| exact S3].
    intros ratio Hin. rewrite Forall_forall in U. apply (U _ Hin).
  - intros burning_epoch s. cbv zeta. rewrite run_unfold.
    pose proof (run_loop_schedule burning_epoch
                  (py_range (TrainMemoryBank.total_epochs (train_memory_bank s))) s)
      as S.
    unfold wp in S. cbv zeta in S. destruct S as (_ & S2 & S3).
    split; [exact S2 |].
    intros x Hx. destruct (S3 x Hx) as [K F].
    split.
    + rewrite length_py_range in K. lia.
    + rewrite F. rewrite firstn_py_range by exact K. reflexivity.
  - exact decayed_tfr_exact_lower.
  - exact decayed_tfr_exact_monotone.
  - exact decayed_tfr_binary64.
Qed.

End TrainerProofs.

(** * The theorems at work on the concrete trainer *)

(** C1: a call in which both the loss and the accuracy improve still
    writes one checkpoint only, the one of the configured criterion; no
    call writes two. *)
Lemma update_writes_one_checkpoint_when_both_improve :
  float_le 0.5 (EvalMemoryBank.best_valid_loss (eval_memory_bank Demo.trainer)) = true /\
  float_ge 0.9 (EvalMemoryBank.best_valid_acc (eval_memory_bank Demo.trainer)) = true /\
  filter is_torch_save (trace (Demo.update 0.5 0.9 Demo.trainer)) =
    [TorchSave loss_model 7] /\
  filter is_torch_save (trace (Demo.update 0.5 0.9 Demo.trainer_multi)) =
    [TorchSave acc_model 7] /\
  (forall (W Batch : Type) overflows valid_loss valid_acc (s : Trainer W Batch),
      count is_torch_save (trace (update overflows valid_loss valid_acc s))
      <> 2%nat).
Proof.
  repeat split; try (vm_compute; reflexivity).
  intros W Batch overflows valid_loss valid_acc s H.
  pose proof (update_saves_at_most_once overflows valid_loss valid_acc s). lia.
Qed.

(** C1 on the concrete trainer: the first update records its loss and
    accuracy and writes the loss checkpoint. *)
Lemma update_policy_witness :
  EvalMemoryBank.best_valid_loss (eval_memory_bank Demo.trained) = 0.5%float /\
  EvalMemoryBank.best_valid_acc (eval_memory_bank Demo.trained) = 0.9%float /\
  count is_torch_save (trace (Demo.update 0.5 0.9 Demo.trainer)) = 1%nat.
Proof.
  pose proof (update_policy Demo.math_exp_overflows 0.5 0.9 Demo.trainer) as H.
  cbv zeta in H. destruct H as ((H1 & _) & (H2 & _) & H3 & _).
  split; [exact H1 | split; [exact H2 | exact H3]].
Defined.

(** C2 on the concrete trainer: a whole run keeps the patience in range,
    and a non-improving update takes it from 2 to 1. *)
Lemma patience_stays_in_range_witness :
  patience_in_range Demo.trainer /\
  keeps_patience Demo.trainer (Demo.run 0 Demo.trainer) /\
  patience (final (Demo.update 0.7 0.1 Demo.trained)) = 1.
Proof.
  assert (H : patience_in_range Demo.trainer)
    by (change (0 <= 2 <= 2); lia).
  assert (H' : patience_in_range Demo.trained)
    by (change (0 <= 2 <= 2); lia).
  split; [exact H |]. split.
  - apply (proj2 (patience_stays_in_range Demo.train_step Demo.eval_step
                    Demo.scheduler_step Demo.math_exp_overflows)
             Demo.trainer H).
  - exact (proj2 (proj1 (proj2 (patience_stays_in_range Demo.train_step
                                  Demo.eval_step Demo.scheduler_step
                                  Demo.math_exp_overflows)
                           Demo.trained H') 0.7%float 0.1%float)).
Defined.


(** C5 on the trainer that has recorded loss 0.5: losses 1, 2 and 3
    exhaust the patience and the loop stops at the head of epoch 5. *)
Lemma early_stopping_halts_witness :
  let s1 := final (Demo.update 1 0.1 Demo.trained) in
  let s2 := final (Demo.update 2 0.1 s1) in
  let s3 := final (Demo.update 3 0.1 s2) in
  patience s3 = 0 /\
  trace (Demo.run_loop 0 [5; 6] s3) = [Stdout L_early_stopping].
Proof.
  cbv zeta.
  assert (Hmax : early_stopping_patience Demo.trained = 2) by reflexivity.
  assert (Hrange : patience_in_range Demo.trained)
    by (change (0 <= 2 <= 2); lia).
  pose proof (proj2 (early_stopping_halts Demo.train_step Demo.eval_step
                       Demo.scheduler_step Demo.math_exp_overflows)
                Demo.trained 1%float 0.1%float 2%float 0.1%float 3%float
                0.1%float Hmax Hrange) as H.
  cbv zeta in H.
  specialize (H eq_refl _ (conj eq_refl eq_refl) eq_refl _
                (conj eq_refl eq_refl) eq_refl).
  destruct H as [H0 Hrun]. split; [exact H0 |].
  apply (Hrun _ 0 5 [6] (conj eq_refl eq_refl)). lia.
Defined.

(** C6 on the vocabulary a, b, <eos>, c, d: [a, b, <eos>, c] matches
    [a, b, <eos>, d]. *)
Lemma matching_exact_match_witness :
  matching [[0; 1; 2; 3]%nat] [[0; 1; 2; 4]%nat] Demo.vocab = Return 1.
Proof.
  refine (proj1 matching_exact_match Demo.vocab
            [[0; 1; 2; 3]%nat] [[0; 1; 2; 4]%nat] _ _ _).
  - repeat constructor.
  - repeat constructor.
  - simpl. lia.
Defined.

(** C10 on the multi-task trainer. *)
Lemma update_aux_only_logs_witness :
  final (update_aux 0.3 Demo.trainer_multi) = Demo.trainer_multi /\
  trace (update_aux 0.3 Demo.trainer_multi) =
    [Stdout L_better_aux; Stdout (L_best_aux (-1))] /\
  EvalMemoryBank.best_valid_acc_aux
    (eval_memory_bank (final (Demo.run 10 Demo.trainer_multi))) = (-1)%float.
Proof.
  pose proof (update_aux_only_logs Demo.train_step Demo.eval_step
                Demo.scheduler_step Demo.math_exp_overflows)
    as (H1 & _ & H3 & _).
  destruct (H1 0.3%float Demo.trainer_multi) as (F & _ & T).
  split; [exact F | split; [exact T |]].
  exact (proj2 (proj2 (proj2 (H3 Demo.trainer_multi))) 10).
Defined.

(** X1 on the trainer with an empty validation set. *)
Lemma evaluate_raise_keeps_zero_witness :
  tfr Demo.trainer_empty = 0.8%float /\
  outcome (Demo.evaluate false Demo.trainer_empty) = Raise ZeroDivisionError /\
  model_teacher_forcing_ratio (final (Demo.evaluate false Demo.trainer_empty)) =
    0%float.
Proof.
  assert (H : outcome (Demo.evaluate false Demo.trainer_empty) =
              Raise ZeroDivisionError) by (vm_compute; reflexivity).
  split; [reflexivity | split; [exact H |]].
  exact (evaluate_raise_keeps_zero Demo.eval_step false Demo.trainer_empty _ H).
Defined.

(** X2 on the concrete trainer with validation loss 1000. *)
Lemma update_raises_after_writes_witness :
  outcome (Demo.update 1000 0.5 Demo.trainer) = Raise OverflowError /\
  EvalMemoryBank.best_valid_loss
    (eval_memory_bank (final (Demo.update 1000 0.5 Demo.trainer))) = 1000%float /\
  In (TorchSave loss_model 7) (trace (Demo.update 1000 0.5 Demo.trainer)).
Proof.
  assert (H : Demo.math_exp_overflows 1000 = true) by reflexivity.
  destruct (update_raises_after_writes Demo.math_exp_overflows 1000 0.5
              Demo.trainer H) as [Ho Hw].
  destruct (Hw eq_refl) as [Hb Hs].
  split; [exact Ho | split; [exact Hb | exact (Hs eq_refl)]].
Defined.

(** ** More on exact-match counting *)

Lemma obind_return {A B : Type} (o : Outcome A) (f : A -> Outcome B) (b : B) :
  obind o f = Return b -> exists a, o = Return a /\ f a = Return b.
Proof. destruct o as [a | e]; simpl; [eauto | discriminate]. Qed.

(** The tally is an accumulator: a loop started at [tally] returns what
    the loop started at 0 returns, plus [tally]. *)
Lemma matching_loop_tally (itos : list string) (rows : list (list nat)) :
  forall ref j tally,
    matching_loop itos rows ref j tally =
    obind (matching_loop itos rows ref j 0) (fun n => Return (tally + n)).
Proof.
  induction rows as [| pred_j rows IH]; intros ref j tally.
  - simpl. rewrite Z.add_0_r. reflexivity.
  - cbn [matching_loop].
    destruct (decode_row itos pred_j []) as [ptoks | e]; [| reflexivity].
    cbn [obind].
    destruct (nth_error ref j) as [ref_j |]; [| reflexivity].
    destruct (decode_row itos ref_j []) as [rtoks | e]; [| reflexivity].
    cbn [obind].
    rewrite (IH ref (S j) (if String.eqb (join ptoks) (join rtoks) then tally + 1 else tally)).
    rewrite (IH ref (S j) (if String.eqb (join ptoks) (join rtoks) then 0 + 1 else 0)).
    destruct (matching_loop itos rows ref (S j) 0) as [n | e]; [| reflexivity].
    cbn [obind]. destruct (String.eqb _ _); f_equal; lia.
Qed.

Lemma matching_loop_bounds (itos : list string) (rows : list (list nat)) :
  forall ref j tally n,
    matching_loop itos rows ref j tally = Return n ->
    tally <= n <= tally + Z.of_nat (List.length rows).
Proof.
  induction rows as [| pred_j rows IH]; intros ref j tally n H.
  - simpl in H. injection H as <-. simpl. lia.
  - cbn [matching_loop] in H.
    apply obind_return in H. destruct H as (ptoks & _ & H).
    destruct (nth_error ref j) as [ref_j |]; [| discriminate].
    apply obind_return in H. destruct H as (rtoks & _ & H).
    apply IH in H. cbn [List.length]. destruct (String.eqb _ _); lia.
Qed.

(** The row of the reference is looked up by its index in the whole
    reference: rows before index [j] play no part. *)
Lemma matching_loop_shift (itos : list string) (rows : list (list nat)) :
  forall done rest j tally,
    matching_loop itos rows (done ++ rest) (List.length done + j) tally =
    matching_loop itos rows rest j tally.
Proof.
  induction rows as [| pred_j rows IH]; intros done rest j tally.
  - reflexivity.
  - cbn [matching_loop].
    rewrite nth_error_app2 by lia.
    replace (List.length done + j - List.length done)%nat with j by lia.
    destruct (decode_row itos pred_j []) as [ptoks | e]; [| reflexivity].
    cbn [obind].
    destruct (nth_error rest j) as [ref_j |]; [| reflexivity].
    destruct (decode_row itos ref_j []) as [rtoks | e]; [| reflexivity].
    cbn [obind].
    replace (S (List.length done + j)) with (List.length done + S j)%nat by lia.
    apply IH.
Qed.

Lemma matching_loop_extra (itos : list string) (rows : list (list nat)) :
  forall ref extra j tally,
    (j + List.length rows <= List.length ref)%nat ->
    matching_loop itos rows (ref ++ extra) j tally =
    matching_loop itos rows ref j tally.
Proof.
  induction rows as [| pred_j rows IH]; intros ref extra j tally Hlen.
  - reflexivity.
  - cbn [matching_loop List.length] in *.
    rewrite nth_error_app1 by lia.
    destruct (decode_row itos pred_j []) as [ptoks | e]; [| reflexivity].
    cbn [obind].
    destruct (nth_error ref j) as [ref_j |]; [| reflexivity].
    destruct (decode_row itos ref_j []) as [rtoks | e]; [| reflexivity].
    cbn [obind]. apply IH. lia.
Qed.

Lemma matching_loop_short (itos : list string) (rows : list (list nat)) :
  forall ref j tally,
    (j <= List.length ref < j + List.length rows)%nat ->
    matching_loop itos rows ref j tally = Raise IndexError.
Proof.
  induction rows as [| pred_j rows IH]; intros ref j tally Hlen.
  - simpl in Hlen. lia.
  - cbn [matching_loop List.length] in *.
    destruct (decode_row itos pred_j []) as [ptoks | e] eqn:Hp.
    2:{ apply decode_row_raises in Hp. subst e. reflexivity. }
    cbn [obind].
    destruct (nth_error ref j) as [ref_j |] eqn:Hj; [| reflexivity].
    assert (j < List.length ref)%nat
      by (apply nth_error_Some; rewrite Hj; discriminate).
    destruct (decode_row itos ref_j []) as [rtoks | e] eqn:Hr.
    2:{ apply decode_row_raises in Hr. subst e. reflexivity. }
    cbn [obind]. apply IH. lia.
Qed.

Lemma matching_loop_app (itos : list string) (rows1 rows2 : list (list nat)) :
  forall ref j tally,
    matching_loop itos (rows1 ++ rows2) ref j tally =
    obind (matching_loop itos rows1 ref j tally)
          (fun a => matching_loop itos rows2 ref (j + List.length rows1) a).
Proof.
  induction rows1 as [| pred_j rows1 IH]; intros ref j tally.
  - simpl. rewrite Nat.add_0_r. reflexivity.
  - cbn [matching_loop app List.length].
    destruct (decode_row itos pred_j []) as [ptoks | e]; [| reflexivity].
    cbn [obind].
    destruct (nth_error ref j) as [ref_j |]; [| reflexivity].
    destruct (decode_row itos ref_j []) as [rtoks | e]; [| reflexivity].
    cbn [obind]. rewrite IH.
    replace (S j + List.length rows1)%nat with (j + S (List.length rows1))%nat by lia.
    reflexivity.
Qed.

(** Rows in lockstep: swapping the two sides changes nothing. *)
Lemma matching_loop_swap (itos : list string) (rows : list (list nat)) :
  forall rest done done' tally,
    List.length rows = List.length rest ->
    List.length done = List.length done' ->
    matching_loop itos rows (done ++ rest) (List.length done) tally =
    matching_loop itos rest (done' ++ rows) (List.length done') tally.
Proof.
  induction rows as [| p rows IH]; intros rest done done' tally Hlen Hd.
  - destruct rest; [reflexivity | discriminate].
  - destruct rest as [| r rest]; [discriminate |].
    cbn [matching_loop].
    rewrite !nth_error_app2 by lia. rewrite !Nat.sub_diag. cbn [nth_error].
    destruct (decode_row itos p []) as [ptoks | e] eqn:Hp;
      destruct (decode_row itos r []) as [rtoks | e'] eqn:Hr; cbn [obind];
      try (apply decode_row_raises in Hp; subst);
      try (apply decode_row_raises in Hr; subst);
      try reflexivity.
    rewrite (String.eqb_sym (join rtoks) (join ptoks)).
    change (done ++ r :: rest) with (done ++ [r] ++ rest).
    change (done' ++ p :: rows) with (done' ++ [p] ++ rows).
    rewrite !app_assoc.
    replace (S (List.length done)) with (List.length (done ++ [r]))
      by (rewrite length_app; simpl; lia).
    replace (S (List.length done')) with (List.length (done' ++ [p]))
      by (rewrite length_app; simpl; lia).
    apply IH; [simpl in Hlen; lia | rewrite !length_app; simpl; lia].
Qed.

Lemma matching_spec_refl (itos : list string) (rows : list (list nat)) :
  matching_spec rows rows itos = Z.of_nat (List.length rows).
Proof.
  unfold matching_spec. f_equal.
  induction rows as [| r rows IH]; [reflexivity |].
  cbn [combine filter fst snd]. rewrite String.eqb_refl.
  cbn [List.length]. rewrite IH. reflexivity.
Qed.

(** X3: the count [matching] returns lies between 0 and the number of
    predicted rows. *)
Theorem matching_bounds (pred ref : list (list nat)) (itos : list string) (n : Z) :
  matching pred ref itos = Return n ->
  0 <= n <= Z.of_nat (List.length pred).
Proof.
  unfold matching. intros H. apply matching_loop_bounds in H. lia.
Qed.

(** X4: the two arguments need not have the same number of rows, and the
    sides are not treated alike: reference rows beyond the last predicted
    row are never read, whereas a predicted row without a reference row
    makes [matching] raise [IndexError], whatever the rows hold. *)
Theorem matching_row_counts :
  (forall pred ref itos,
      (List.length ref < List.length pred)%nat ->
      matching pred ref itos = Raise IndexError) /\
  (forall pred ref extra itos,
      (List.length pred <= List.length ref)%nat ->
      matching pred (ref ++ extra) itos = matching pred ref itos).
Proof.
  split.
  - intros pred ref itos Hlen. apply matching_loop_short. lia.
  - intros pred ref extra itos Hlen. apply matching_loop_extra. simpl. lia.
Qed.

(** X5: counting is additive over a split of the rows: the count of a
    batch made of two batches is the sum of their counts, and it raises
    when one of them does. *)
Theorem matching_additive (pred1 pred2 ref1 ref2 : list (list nat))
    (itos : list string) :
  List.length pred1 = List.length ref1 ->
  matching (pred1 ++ pred2) (ref1 ++ ref2) itos =
  obind (matching pred1 ref1 itos) (fun a =>
  obind (matching pred2 ref2 itos) (fun b => Return (a + b))).
Proof.
  intros Hlen. unfold matching.
  rewrite matching_loop_app.
  rewrite matching_loop_extra by (simpl; lia).
  destruct (matching_loop itos pred1 ref1 0 0) as [a | e]; [| reflexivity].
  cbn [obind]. rewrite Hlen, (Nat.add_comm 0 (List.length ref1)).
  rewrite (matching_loop_shift itos pred2 ref1 ref2 0 a).
  apply matching_loop_tally.
Qed.

(** X6: exact match is symmetric and reflexive: with as many predicted as
    reference rows, swapping the two sides gives the same count or the
    same error, and rows compared with themselves all count. *)
Theorem matching_symmetric_reflexive :
  (forall pred ref itos,
      List.length pred = List.length ref ->
      matching pred ref itos = matching ref pred itos) /\
  (forall rows itos,
      in_vocab itos rows ->
      matching rows rows itos = Return (Z.of_nat (List.length rows))).
Proof.
  split.
  - intros pred ref itos Hlen.
    apply (matching_loop_swap itos pred ref [] [] 0 Hlen eq_refl).
  - intros rows itos Hv. unfold matching.
    pose proof (matching_loop_spec itos rows [] rows 0 Hv Hv (Nat.le_refl _)) as H.
    cbn [app List.length] in H. rewrite H, matching_spec_refl. reflexivity.
Qed.

Lemma append_nil_r (s : string) : (s ++ "")%string = s.
Proof. induction s as [| c s IH]; simpl; [| rewrite IH]; reflexivity. Qed.

Lemma append_assoc (s1 s2 s3 : string) :
  ((s1 ++ s2) ++ s3)%string = (s1 ++ (s2 ++ s3))%string.
Proof. induction s1 as [| c s1 IH]; simpl; [| rewrite IH]; reflexivity. Qed.

Lemma join_cons (tok : string) (toks : list string) :
  join (tok :: toks) = (tok ++ join toks)%string.
Proof.
  unfold join. destruct toks as [| tok' toks]; simpl.
  - rewrite append_nil_r. reflexivity.
  - reflexivity.
Qed.

Lemma decode_spec_cons (itos : list string) (t : nat) (row : list nat) :
  decode_spec itos (t :: row) =
  if String.eqb (nth t itos ""%string) eos then ""%string
  else (nth t itos "" ++ decode_spec itos row)%string.
Proof.
  unfold decode_spec. cbn [map take_until_eos].
  destruct (String.eqb _ eos); [reflexivity | apply join_cons].
Qed.

(** X7: [matching] compares the joined strings, not the token lists: a
    row that holds the two tokens [ta], [tb] and a row that holds in their
    place the single token [ta ++ tb] are counted as a match. *)
Theorem matching_ignores_token_boundaries
    (itos : list string) (a b c : nat) (ta tb : string) (pre suf : list nat) :
  nth_error itos a = Some ta ->
  nth_error itos b = Some tb ->
  nth_error itos c = Some (ta ++ tb)%string ->
  ta <> eos -> tb <> eos -> (ta ++ tb)%string <> eos ->
  Forall (fun t => (t < List.length itos)%nat) pre ->
  Forall (fun t => (t < List.length itos)%nat) suf ->
  matching [pre ++ a :: b :: suf] [pre ++ c :: suf] itos = Return 1.
Proof.
  intros Ha Hb Hc Na Nb Nc Hpre Hsuf.
  assert (La : (a < List.length itos)%nat) by (apply nth_error_Some; congruence).
  assert (Lb : (b < List.length itos)%nat) by (apply nth_error_Some; congruence).
  assert (Lc : (c < List.length itos)%nat) by (apply nth_error_Some; congruence).
  assert (H : matching [pre ++ a :: b :: suf] [pre ++ c :: suf] itos =
              Return (matching_spec [pre ++ a :: b :: suf] [pre ++ c :: suf] itos)).
  { apply (matching_loop_spec itos [pre ++ a :: b :: suf] [] [pre ++ c :: suf] 0).
    - constructor; [| constructor].
      apply Forall_app; split; [exact Hpre |]. repeat constructor; assumption.
    - constructor; [| constructor].
      apply Forall_app; split; [exact Hpre |]. repeat constructor; assumption.
    - simpl. lia. }
  rewrite H. unfold matching_spec. cbn [combine filter fst snd].
  assert (E : decode_spec itos (pre ++ a :: b :: suf) =
              decode_spec itos (pre ++ c :: suf)).
  { clear H Hpre. induction pre as [| t pre IH].
    - cbn [app]. rewrite !decode_spec_cons.
      rewrite (nth_error_nth itos a ""%string Ha),
        (nth_error_nth itos b ""%string Hb),
        (nth_error_nth itos c ""%string Hc).
      apply String.eqb_neq in Na, Nb, Nc. rewrite Na, Nb, Nc.
      symmetry. apply append_assoc.
    - cbn [app]. rewrite !decode_spec_cons, IH. reflexivity. }
  rewrite E, String.eqb_refl. reflexivity.
Qed.

(** X8: decoding a row raises exactly when an index outside the vocabulary
    comes before the first end-of-sequence token of the row; the error is
    [IndexError]. *)
Theorem decode_row_index_error (itos : list string) (row : list nat)
    (toks : list string) (e : Exn) :
  decode_row itos row toks = Raise e <->
  e = IndexError /\
  exists pre t suf,
    row = pre ++ t :: suf /\
    Forall (fun u => exists tok, nth_error itos u = Some tok /\ tok <> eos) pre /\
    (List.length itos <= t)%nat.
Proof.
  split.
  - intros H. split; [exact (decode_row_raises itos row toks e H) |].
    revert toks H. induction row as [| t rest IH]; intros toks H; simpl in H.
    + discriminate.
    + destruct (nth_error itos t) as [tok |] eqn:Ht.
      * destruct (String.eqb tok eos) eqn:Heos; [discriminate |].
        destruct (IH _ H) as (pre & u & suf & -> & Hpre & Hu).
        exists (t :: pre), u, suf. split; [reflexivity |]. split; [| exact Hu].
        constructor; [| exact Hpre]. exists tok. split; [exact Ht |].
        apply String.eqb_neq. exact Heos.
      * exists [], t, rest. split; [reflexivity |]. split; [constructor |].
        apply nth_error_None. exact Ht.
  - intros (-> & pre & t & suf & -> & Hpre & Ht).
    revert toks. induction Hpre as [| u pre (tok & Hu & Hne) _ IH]; intros toks; simpl.
    + apply nth_error_None in Ht. rewrite Ht. reflexivity.
    + rewrite Hu. apply String.eqb_neq in Hne. rewrite Hne. apply IH.
Qed.

(** ** The fields bound by the constructor *)

Lemma assign_fields_slots {Field : Type} (src_lang trg_lang auxiliary_name : string)
    (fields : list (string * Field)) :
  forall slots : FieldSlots Field,
    let r := assign_fields src_lang trg_lang auxiliary_name fields slots in
    src_field r =
      match last_named src_lang fields with
      | Some f => Some f
      | None => src_field slots
      end /\
    trg_field r =
      (if String.eqb trg_lang src_lang then trg_field slots
       else match last_named trg_lang fields with
            | Some f => Some f
            | None => trg_field slots
            end) /\
    auxiliary_field r =
      (if String.eqb auxiliary_name src_lang || String.eqb auxiliary_name trg_lang
       then auxiliary_field slots
       else match last_named auxiliary_name fields with
            | Some f => Some f
            | None => auxiliary_field slots
            end).
Proof.
  induction fields as [| [name field] rest IH]; intros slots; cbv zeta.
  - simpl. destruct (String.eqb trg_lang src_lang),
      (String.eqb auxiliary_name src_lang || String.eqb auxiliary_name trg_lang);
      auto.
  - cbn [assign_fields last_named].
    match goal with
    | |- context [assign_fields _ _ _ rest ?s] =>
        destruct (IH s) as (I1 & I2 & I3)
    end.
    rewrite I1, I2, I3. clear I1 I2 I3 IH.
    destruct (last_named src_lang rest), (last_named trg_lang rest),
      (last_named auxiliary_name rest);
      destruct (String.eqb name src_lang) eqn:E1;
      destruct (String.eqb name trg_lang) eqn:E2;
      destruct (String.eqb name auxiliary_name) eqn:E3;
      repeat match goal with
             | H : String.eqb _ _ = true |- _ => apply String.eqb_eq in H
             | H : String.eqb _ _ = false |- _ => apply String.eqb_neq in H
             end;
      subst; rewrite ?String.eqb_refl;
      cbn [src_field trg_field auxiliary_field orb];
      repeat match goal with
             | |- context [String.eqb ?a ?b] =>
                 destruct (String.eqb_spec a b); try congruence
             end;
      cbn [orb]; auto.
Qed.

Lemma last_named_missing {Field : Type} (name : string)
    (fields : list (string * Field)) :
  (forall field, ~ In (name, field) fields) -> last_named name fields = None.
Proof.
  induction fields as [| [n field] rest IH]; intros H; [reflexivity |].
  cbn [last_named]. rewrite IH.
  - destruct (String.eqb_spec n name) as [-> | _]; [| reflexivity].
    exfalso. apply (H field). left. reflexivity.
  - intros f Hin. apply (H f). right. exact Hin.
Qed.

(** X19: which fields the constructor binds.  The source field is that of
    the last pair named after the source language.  The target field is
    that of the last pair named after the target language, unless the
    target language has the name of the source language: then it is never
    bound.  The auxiliary field gives way to both in the same manner.  A
    name that is not in the list leaves its attribute unset. *)
Theorem assign_fields_lookup {Field : Type} (src_lang trg_lang auxiliary_name : string)
    (fields : list (string * Field)) :
  let r := assign_fields src_lang trg_lang auxiliary_name fields unset in
  src_field r = last_named src_lang fields /\
  trg_field r =
    (if String.eqb trg_lang src_lang then None else last_named trg_lang fields) /\
  auxiliary_field r =
    (if String.eqb auxiliary_name src_lang || String.eqb auxiliary_name trg_lang
     then None else last_named auxiliary_name fields) /\
  ((forall field, ~ In (trg_lang, field) fields) -> trg_field r = None) /\
  (trg_lang = src_lang -> trg_field r = None).
Proof.
  cbv zeta.
  destruct (assign_fields_slots src_lang trg_lang auxiliary_name fields unset)
    as (H1 & H2 & H3).
  cbn [src_field trg_field auxiliary_field unset] in *.
  assert (E1 : src_field (assign_fields src_lang trg_lang auxiliary_name fields unset) =
               last_named src_lang fields)
    by (rewrite H1; destruct (last_named src_lang fields); reflexivity).
  assert (E2 : trg_field (assign_fields src_lang trg_lang auxiliary_name fields unset) =
               (if String.eqb trg_lang src_lang then None
                else last_named trg_lang fields))
    by (rewrite H2; destruct (String.eqb trg_lang src_lang);
        [| destruct (last_named trg_lang fields)]; reflexivity).
  split; [exact E1 |]. split; [exact E2 |]. split; [| split].
  - rewrite H3.
    destruct (String.eqb auxiliary_name src_lang || String.eqb auxiliary_name trg_lang);
      [| destruct (last_named auxiliary_name fields)]; reflexivity.
  - intros Hmiss. rewrite E2, (last_named_missing _ _ Hmiss).
    destruct (String.eqb trg_lang src_lang); reflexivity.
  - intros ->. rewrite E2, String.eqb_refl. reflexivity.
Qed.

(** ** Elapsed time *)

Lemma nan_unique (x : float) : PrimFloat.is_nan x = true -> x = nan.
Proof.
  intros H. apply is_nan_spec in H. apply FloatAxioms.Prim2SF_inj.
  rewrite H. reflexivity.
Qed.

Lemma infinity_cases (x : float) :
  PrimFloat.is_infinity x = true -> x = infinity \/ x = neg_infinity.
Proof.
  unfold PrimFloat.is_infinity.
  rewrite FloatAxioms.eqb_spec, FloatAxioms.abs_spec.
  change (Prim2SF infinity) with (S754_infinity false).
  intros H.
  assert (E : exists s, Prim2SF x = S754_infinity s).
  { destruct (Prim2SF x) as [s | s | | s m e]; try discriminate H.
    exists s. reflexivity. }
  destruct E as [[] E]; [right | left]; apply FloatAxioms.Prim2SF_inj;
    rewrite E; reflexivity.
Qed.

Lemma epoch_time_checked :
  forallb epoch_time_check (py_range checked_quarters) = true.
Proof. vm_compute. reflexivity. Qed.

(** X20: [epoch_time] splits an elapsed time into whole minutes and the
    whole seconds left, truncating toward zero, also when the end lies
    before the start: so it does on every whole number of quarter seconds
    below two hours.  An elapsed time that is not a number makes it raise
    [ValueError], an infinite one [OverflowError]. *)
Theorem epoch_time_splits :
  (forall n : Z,
      0 <= n < checked_quarters ->
      let elapsed := (float_of_int n / 4)%float in
      epoch_time 0 elapsed = inr (n / 240, (n mod 240) / 4) /\
      epoch_time elapsed 0 = inr (- (n / 240), - ((n mod 240) / 4))) /\
  (forall start_time end_time : float,
      PrimFloat.is_nan (end_time - start_time) = true ->
      epoch_time start_time end_time = inl Conversion.ValueError) /\
  (forall start_time end_time : float,
      PrimFloat.is_infinity (end_time - start_time) = true ->
      epoch_time start_time end_time = inl Conversion.OverflowError).
Proof.
  split; [| split].
  - intros n Hn. cbv zeta.
    pose proof epoch_time_checked as H. rewrite forallb_forall in H.
    specialize (H n (In_py_range _ _ Hn)). unfold epoch_time_check in H.
    destruct (epoch_time 0 (float_of_int n / 4)) as [e | [m s]];
      [discriminate |].
    destruct (epoch_time (float_of_int n / 4) 0) as [e | [m' s']];
      [discriminate |].
    apply andb_prop in H. destruct H as [H H4].
    apply andb_prop in H. destruct H as [H H3].
    apply andb_prop in H. destruct H as [H1 H2].
    apply Z.eqb_eq in H1, H2, H3, H4. subst. split; reflexivity.
  - intros start_time end_time H. apply nan_unique in H.
    unfold epoch_time. rewrite H. reflexivity.
  - intros start_time end_time H. apply infinity_cases in H.
    unfold epoch_time. destruct H as [-> | ->]; reflexivity.
Qed.

(** ** Dropping the first position of outputs and targets *)

Lemma nth_error_skipn {A : Type} (n i : nat) (l : list A) :
  nth_error (skipn n l) i = nth_error l (n + i).
Proof.
  revert l. induction n as [| n IH]; intros l; [reflexivity |].
  destruct l as [| x l]; simpl; [destruct i; reflexivity | apply IH].
Qed.

(** X21: [fix_output_n_trg] drops the first position of the outputs and of
    the targets and flattens what is left, keeping the two aligned: for an
    output of shape [[T; B; D]] and a target of shape [[T; B]], row
    [i * B + j] of the result holds the output at position [i + 1] of
    example [j], and entry [i * B + j] of the flattened target holds the
    target at that position.  An output dimension of 0 makes the call raise
    [RuntimeError]. *)
Theorem fix_output_n_trg_aligned {A B : Type}
    (output : Tensor.t A) (trg : Tensor.t B) (T Bs D : nat) :
  Tensor.shape output = [T; Bs; D] ->
  Tensor.shape trg = [T; Bs] ->
  Tensor.contiguous output ->
  Tensor.contiguous trg ->
  (D = 0%nat -> fix_output_n_trg output trg = inl Tensor.RuntimeError) /\
  (D <> 0%nat ->
   exists output' trg',
     fix_output_n_trg output trg = inr (output', trg') /\
     Tensor.shape output' = [((T - 1) * Bs)%nat; D] /\
     Tensor.shape trg' = [((T - 1) * Bs)%nat] /\
     Tensor.contiguous output' /\
     Tensor.contiguous trg' /\
     forall i j d,
       (i < T - 1)%nat -> (j < Bs)%nat -> (d < D)%nat ->
       Tensor.item output' [(i * Bs + j)%nat; d] =
         Tensor.item output [S i; j; d] /\
       Tensor.item trg' [(i * Bs + j)%nat] = Tensor.item trg [S i; j]).
Proof.
  intros So St Co Ct.
  unfold Tensor.contiguous in *. rewrite So in Co. rewrite St in Ct.
  cbn [Tensor.numel fold_right] in Co, Ct. rewrite Nat.mul_1_r in Co, Ct.
  unfold fix_output_n_trg, Tensor.last_dim, Tensor.from_1.
  rewrite So, St. cbn [rev app Tensor.numel fold_right].
  rewrite !Nat.mul_1_r.
  unfold Tensor.view_rows. cbn [Tensor.storage].
  split.
  - intros ->. reflexivity.
  - intros HD.
    destruct (Nat.eqb_spec D 0) as [| _]; [contradiction |].
    assert (Hlen : List.length (skipn (Bs * D) (Tensor.storage output)) =
                   ((T - 1) * Bs * D)%nat).
    { rewrite length_skipn, Co. nia. }
    rewrite Hlen.
    rewrite Nat.Div0.mod_mul, Nat.div_mul by exact HD. cbn [Nat.eqb].
    eexists. eexists. split; [reflexivity |].
    unfold Tensor.view_flat, Tensor.contiguous, Tensor.item, Tensor.offset.
    cbn [Tensor.shape Tensor.storage Tensor.numel fold_right combine fold_left
         fst snd].
    rewrite So, St. cbn [combine fold_left fst snd].
    rewrite !length_skipn, Co, Ct, !Nat.mul_1_r.
    split; [reflexivity |]. split; [f_equal; nia |].
    split; [nia |]. split; [nia |].
    intros i j d Hi Hj Hd. rewrite !nth_error_skipn.
    split; f_equal; nia.
Qed.

(** * The further properties at work on concrete inputs *)

(** X3 on the vocabulary a, b, <eos>, c, d: the count for one row is 0
    or 1. *)
Lemma matching_bounds_witness :
  matching [[0; 1; 2; 3]%nat] [[0; 1; 2; 4]%nat] Demo.vocab = Return 1 /\
  0 <= 1 <= Z.of_nat (List.length [[0; 1; 2; 3]%nat]).
Proof.
  split; [reflexivity |].
  exact (matching_bounds [[0; 1; 2; 3]%nat] [[0; 1; 2; 4]%nat] Demo.vocab 1 eq_refl).
Defined.

(** X4: two predicted rows against one reference row raise; a second
    reference row, even one that cannot be decoded, changes nothing for
    one predicted row. *)
Lemma matching_row_counts_witness :
  matching [[0]%nat; [1]%nat] [[0]%nat] Demo.vocab = Raise IndexError /\
  matching [[0]%nat] ([[0]%nat] ++ [[9]%nat]) Demo.vocab =
    matching [[0]%nat] [[0]%nat] Demo.vocab.
Proof.
  split.
  - apply (proj1 matching_row_counts). simpl. lia.
  - apply (proj2 matching_row_counts). simpl. lia.
Defined.

(** X5: a batch of two rows, split into two batches of one row. *)
Lemma matching_additive_witness :
  matching ([[0; 2]%nat] ++ [[1; 2]%nat]) ([[0; 2]%nat] ++ [[3; 2]%nat]) Demo.vocab =
  obind (matching [[0; 2]%nat] [[0; 2]%nat] Demo.vocab) (fun a =>
  obind (matching [[1; 2]%nat] [[3; 2]%nat] Demo.vocab) (fun b => Return (a + b))).
Proof.
  apply matching_additive. reflexivity.
Defined.

(** X6: prediction and reference swapped, and a batch compared with
    itself. *)
Lemma matching_symmetric_reflexive_witness :
  matching [[0; 2]%nat; [1]%nat] [[0; 2; 4]%nat; [3]%nat] Demo.vocab =
    matching [[0; 2; 4]%nat; [3]%nat] [[0; 2]%nat; [1]%nat] Demo.vocab /\
  matching [[0; 2]%nat; [1]%nat] [[0; 2]%nat; [1]%nat] Demo.vocab = Return 2.
Proof.
  split.
  - apply (proj1 matching_symmetric_reflexive). reflexivity.
  - apply (proj2 matching_symmetric_reflexive [[0; 2]%nat; [1]%nat] Demo.vocab).
    repeat constructor.
Defined.

(** X7: in the vocabulary a, b, ab, <eos> the row [a, b, <eos>] matches
    the row [ab, <eos>]. *)
Lemma matching_ignores_token_boundaries_witness :
  matching [[0; 1; 3]%nat] [[2; 3]%nat] Cases.vocab_joined = Return 1.
Proof.
  apply (matching_ignores_token_boundaries Cases.vocab_joined 0 1 2 "a" "b" [] [3%nat]);
    try reflexivity; try discriminate; repeat constructor.
Defined.

(** X9 on the concrete trainer: a validation loss that is not a number
    costs one unit of patience and leaves the best loss at infinity. *)
Lemma update_ignores_nan_witness :
  EvalMemoryBank.best_valid_loss
    (eval_memory_bank (final (Demo.update nan 0.5 Demo.trainer))) = infinity /\
  EvalMemoryBank.early_stopping_patience
    (eval_memory_bank (final (Demo.update nan 0.5 Demo.trainer))) = 1 /\
  ~ In (TorchSave loss_model 7) (trace (Demo.update nan 0.5 Demo.trainer)).
Proof.
  destruct (proj1 (update_ignores_nan Demo.math_exp_overflows nan 0.5 Demo.trainer)
              (or_introl eq_refl)) as (H1 & H2 & H3).
  split; [exact H1 | split; [exact H2 | exact (H3 7)]].
Defined.


(** X10 on the concrete trainer and three results: the best loss ends at
    0.4, the best accuracy at 0.5, recorded with the loss 0.6 that came
    with it. *)
Lemma updates_keep_the_best_witness :
  outcome (Cases.updates Cases.results Demo.trainer) = Return tt /\
  let b' := eval_memory_bank (final (Cases.updates Cases.results Demo.trainer)) in
  EvalMemoryBank.best_valid_loss b' = 0.4%float /\
  float_le (EvalMemoryBank.best_valid_loss b') 0.7 = true /\
  float_ge (EvalMemoryBank.best_valid_acc b') 0.3 = true /\
  In (EvalMemoryBank.acc_valid_loss b', EvalMemoryBank.best_valid_acc b')
     Cases.results.
Proof.
  assert (H : outcome (Cases.updates Cases.results Demo.trainer) = Return tt)
    by (vm_compute; reflexivity).
  split; [exact H |]. cbv zeta.
  destruct (updates_keep_the_best Demo.math_exp_overflows Cases.results
              Demo.trainer H) as (L & A).
  destruct (L eq_refl) as (_ & L2 & _).
  destruct (A eq_refl) as (_ & A2 & A3).
  split; [reflexivity |].
  split; [apply (L2 0.7%float 0.1%float); [left; reflexivity | reflexivity] |].
  split; [apply (A2 0.4%float 0.3%float); [right; left; reflexivity | reflexivity] |].
  destruct A3 as [(A3 & _) | A3]; [vm_compute in A3; discriminate A3 | exact A3].
Defined.


(** X11 on the trainer that has recorded loss 0.5, with patience 2: three
    results without improvement leave the patience at 0. *)
Lemma updates_patience_countdown_witness :
  patience Demo.trained = 2 /\
  patience (final (Cases.updates Cases.worse_results Demo.trained)) = 0 /\
  EvalMemoryBank.best_valid_loss
    (eval_memory_bank (final (Cases.updates Cases.worse_results Demo.trained))) =
    0.5%float.
Proof.
  split; [reflexivity |].
  assert (H : outcome (Cases.updates Cases.worse_results Demo.trained) = Return tt)
    by (vm_compute; reflexivity).
  assert (P : 0 <= patience Demo.trained) by (change (0 <= 2); lia).
  assert (Hw : forall valid_loss valid_acc,
             In (valid_loss, valid_acc) Cases.worse_results ->
             float_le valid_loss
               (EvalMemoryBank.best_valid_loss (eval_memory_bank Demo.trained)) =
             false).
  { intros vl va [E | [E | [E | []]]]; injection E as <- <-; reflexivity. }
  exact (updates_patience_countdown Demo.math_exp_overflows Cases.worse_results
           Demo.trained H P Hw).
Defined.


(** X12 on the concrete trainer, with no burning phase: the run completes
    its four epochs, without stopping early, in twenty training-mode
    forward calls and twenty steps. *)
Lemma run_completes_or_stops_witness :
  outcome (Demo.run (-1) Demo.trainer) = Return tt /\
  count is_epoch_line (trace (Demo.run (-1) Demo.trainer)) = 4%nat /\
  count is_training_call (trace (Demo.run (-1) Demo.trainer)) = (4 * 5)%nat /\
  TrainMemoryBank.n_steps (train_memory_bank (final (Demo.run (-1) Demo.trainer))) =
    0 + Z.of_nat 4 * Z.of_nat 5.
Proof.
  assert (H : outcome (Demo.run (-1) Demo.trainer) = Return tt)
    by (vm_compute; reflexivity).
  assert (K : count is_epoch_line (trace (Demo.run (-1) Demo.trainer)) = 4%nat)
    by (vm_compute; reflexivity).
  split; [exact H | split; [exact K |]].
  destruct (run_completes_or_stops Demo.train_step Demo.eval_step
              Demo.scheduler_step Demo.math_exp_overflows (-1) Demo.trainer H)
    as (H1 & H2 & _).
  rewrite K in H1, H2.
  split; [exact H1 | exact H2].
Defined.

(** X13 on the concrete trainer with all four epochs in the burning
    phase: no early stopping. *)
Lemma run_burning_phase_never_stops_witness :
  count is_early_stopping (trace (Demo.run 10 Demo.trainer)) = 0%nat.
Proof.
  assert (P : early_stopping_patience Demo.trainer <> 0)
    by (change (2 <> 0); lia).
  assert (B : TrainMemoryBank.total_epochs (train_memory_bank Demo.trainer) - 1 <= 10)
    by (change (4 - 1 <= 10); lia).
  exact (proj1 (run_burning_phase_never_stops Demo.train_step Demo.eval_step
                  Demo.scheduler_step Demo.math_exp_overflows 10 Demo.trainer P B)).
Defined.

(** X14 on the concrete trainer configured with patience 0: the run
    prints two lines and trains nothing. *)
Lemma run_zero_patience_witness :
  trace (Demo.run 1 Cases.trainer_impatient) =
    (if 0 <=? 1 then [Stdout L_renew_records] else []) ++ [Stdout L_early_stopping] /\
  count is_model_call (trace (Demo.run 1 Cases.trainer_impatient)) = 0%nat.
Proof.
  assert (T : 0 < TrainMemoryBank.total_epochs
                    (train_memory_bank Cases.trainer_impatient))
    by (change (0 < 4); lia).
  destruct (proj1 (run_zero_patience Demo.train_step Demo.eval_step
                     Demo.scheduler_step Demo.math_exp_overflows)
              1 Cases.trainer_impatient eq_refl eq_refl T) as (_ & H2 & H3).
  split; [exact H2 | exact H3].
Defined.

(** X15 on the trainer that reports after every batch: ten training-mode
    calls, and one periodic evaluation over one validation and one test
    batch. *)
Lemma train_forward_calls_witness :
  outcome (Demo.train Demo.trainer_fast) = Return 1%float /\
  count is_training_call (trace (Demo.train Demo.trainer_fast)) = 10%nat /\
  model_training (final (Demo.train Demo.trainer_fast)) = true.
Proof.
  assert (H : outcome (Demo.train Demo.trainer_fast) = Return 1%float)
    by (vm_compute; reflexivity).
  split; [exact H |].
  destruct (train_forward_calls Demo.train_step Demo.eval_step
              Demo.scheduler_step Demo.math_exp_overflows
              Demo.trainer_fast 1%float H) as (C1 & _ & _ & M & _).
  split; [exact C1 | exact M].
Defined.

(** X16 on the concrete trainer without training batches, and with a
    report interval of 0. *)
Lemma train_division_by_zero_witness :
  outcome (Demo.train Cases.trainer_no_training) = Raise ZeroDivisionError /\
  outcome (Demo.train Cases.trainer_zero_interval) = Raise ZeroDivisionError /\
  TrainMemoryBank.n_steps
    (train_memory_bank (final (Demo.train Cases.trainer_zero_interval))) = 0 + 1.
Proof.
  pose proof (proj1 (train_division_by_zero Demo.train_step Demo.eval_step
                       Demo.scheduler_step Demo.math_exp_overflows)
                Cases.trainer_no_training eq_refl) as H1.
  destruct (proj2 (train_division_by_zero Demo.train_step Demo.eval_step
                     Demo.scheduler_step Demo.math_exp_overflows)
              Cases.trainer_zero_interval 1%nat [2; 3; 4; 5]%nat eq_refl eq_refl)
    as (H2 & _ & H3 & _).
  split; [rewrite H1; reflexivity | split; [exact H2 | exact H3]].
Defined.

(** X17 on the concrete trainer with a report interval of 8 and five
    training batches. *)
Lemma train_never_evaluates_witness :
  outcome (Demo.train Cases.trainer_sparse) = Return 1%float /\
  tally (trace (Demo.train Cases.trainer_sparse)) = (0, 0, 0)%nat.
Proof.
  assert (H : outcome (Demo.train Cases.trainer_sparse) = Return 1%float)
    by (vm_compute; reflexivity).
  split; [exact H |].
  refine (proj1 (train_never_evaluates Demo.train_step Demo.eval_step
                   Demo.scheduler_step Demo.math_exp_overflows
                   Cases.trainer_sparse 1%float H _)).
  right. change (Z.of_nat 5 < 8). lia.
Defined.

(** X18 on the multi-task trainer: one batch with one example, which
    matches on the main task and not on the auxiliary one. *)
Lemma evaluate_result_witness :
  outcome (Demo.evaluate false Demo.trainer_multi) =
  Return
    ((loss_total (eval_outputs Demo.eval_step 0%nat [1%nat]) 0 /
      float_of_int (Z.of_nat 1))%float,
     (float_of_int (correct_total Demo.vocab
                      (eval_outputs Demo.eval_step 0%nat [1%nat]) 0) /
      float_of_int 1)%float,
     (float_of_int (correct_aux_total Demo.vocab
                      (eval_outputs Demo.eval_step 0%nat [1%nat]) 0) /
      float_of_int 1)%float) /\
  correct_total Demo.vocab (eval_outputs Demo.eval_step 0%nat [1%nat]) 0 = 1 /\
  correct_aux_total Demo.vocab (eval_outputs Demo.eval_step 0%nat [1%nat]) 0 = 0.
Proof.
  split; [| split; reflexivity].
  refine (proj1 (evaluate_result Demo.eval_step false Demo.trainer_multi) _ _ _ _).
  - repeat constructor.
  - intros _. repeat constructor.
  - discriminate.
  - discriminate.
Defined.

(** X20 on 62.5 seconds: one minute and two seconds, and the same
    backwards. *)
Lemma epoch_time_splits_witness :
  epoch_time 0 (float_of_int 250 / 4) = inr (1, 2) /\
  epoch_time (float_of_int 250 / 4) 0 = inr (- 1, - 2).
Proof.
  assert (H : 0 <= 250 < checked_quarters) by (unfold checked_quarters; lia).
  exact (proj1 epoch_time_splits 250 H).
Defined.

(** X21 on an output of shape [3, 2, 2] and a target of shape [3, 2]: the
    results have four rows, and row 3 holds position 2 of example 1. *)
Lemma fix_output_n_trg_aligned_witness :
  exists output' trg',
    fix_output_n_trg Cases.output Cases.trg = inr (output', trg') /\
    Tensor.shape output' = [4; 2]%nat /\
    Tensor.shape trg' = [4]%nat /\
    Tensor.item output' [3; 0]%nat = Tensor.item Cases.output [2; 1; 0]%nat /\
    Tensor.item trg' [3]%nat = Tensor.item Cases.trg [2; 1]%nat.
Proof.
  destruct (proj2 (fix_output_n_trg_aligned Cases.output Cases.trg 3 2 2
                     eq_refl eq_refl eq_refl eq_refl))
    as (output' & trg' & H & S1 & S2 & _ & _ & Hitem).
  - discriminate.
  - exists output', trg'.
    destruct (Hitem 1%nat 1%nat 0%nat) as [I1 I2]; try lia.
    split; [exact H | split; [exact S1 | split; [exact S2 | split; [exact I1 | exact I2]]]].
Defined.

(** X22 on the concrete trainer, whose criterion is LOSS and whose
    experiment number is 7: the run writes the loss checkpoint of
    experiment 7, and nothing else. *)
Lemma run_writes_configured_checkpoint_witness :
  In (TorchSave loss_model 7) (trace (Demo.run 0 Demo.trainer)) /\
  forall c n,
    In (TorchSave c n) (trace (Demo.run 0 Demo.trainer)) ->
    c = loss_model /\ n = 7.
Proof.
  split.
  - vm_compute. repeat (first [left; reflexivity | right]).
  - exact (proj2 (proj2 (run_writes_configured_checkpoint Demo.train_step
                           Demo.eval_step Demo.scheduler_step
                           Demo.math_exp_overflows 0 Demo.trainer))).
Defined.

(** X23 on the concrete single-task trainer, with an empty auxiliary
    vocabulary in place of its own. *)
Lemma single_task_ignores_auxiliary_vocabulary_witness :
  outcome (Demo.run 0 (with_auxiliary_itos [] Demo.trainer)) =
    outcome (Demo.run 0 Demo.trainer) /\
  trace (Demo.run 0 (with_auxiliary_itos [] Demo.trainer)) =
    trace (Demo.run 0 Demo.trainer).
Proof.
  destruct (proj2 (single_task_ignores_auxiliary_vocabulary Demo.train_step
                     Demo.eval_step Demo.scheduler_step Demo.math_exp_overflows
                     Demo.trainer [] eq_refl) 0) as (H1 & H2 & _).
  split; [exact H1 | exact H2].
Defined.

(** X24 on the concrete trainer, whose task is Single-Main: as a
    Single-Auxiliary trainer it runs the same. *)
Lemma task_is_read_as_multi_or_not_witness :
  task Demo.trainer = Single_Main /\
  outcome (Demo.run 0 (with_task Single_Auxiliary Demo.trainer)) =
    outcome (Demo.run 0 Demo.trainer) /\
  trace (Demo.run 0 (with_task Single_Auxiliary Demo.trainer)) =
    trace (Demo.run 0 Demo.trainer).
Proof.
  split; [reflexivity |].
  destruct (proj2 (proj2 (task_is_read_as_multi_or_not Demo.train_step
                            Demo.eval_step Demo.scheduler_step
                            Demo.math_exp_overflows
                            Demo.trainer Single_Auxiliary eq_refl)) 0)
    as (H1 & H2 & _).
  split; [exact H1 | exact H2].
Defined.

(** C9 on the concrete trainer: the model comes with ratio 1 and the
    trainer holds 0.8; the pass over the one validation batch makes one
    forward call, in evaluation mode with ratio 0, and after it the model
    holds 0.8. *)
Lemma evaluate_teacher_forcing_witness :
  model_teacher_forcing_ratio Demo.trainer = 1%float /\
  tfr Demo.trainer = 0.8%float /\
  outcome (Demo.evaluate false Demo.trainer) =
    Return (0.5%float, 1%float, 0%float) /\
  model_teacher_forcing_ratio (final (Demo.evaluate false Demo.trainer)) =
    0.8%float /\
  filter is_model_call (trace (Demo.evaluate false Demo.trainer)) =
    [ModelCall false 0%float].
Proof.
  assert (H : outcome (Demo.evaluate false Demo.trainer) =
              Return (0.5%float, 1%float, 0%float)) by (vm_compute; reflexivity).
  split; [reflexivity | split; [reflexivity | split; [exact H |]]].
  destruct (proj1 (proj2 (proj2 (proj2 (evaluate_teacher_forcing Demo.eval_step
                                          false Demo.trainer)))) _ H)
    as (H1 & H2 & _).
  split; [exact H1 | exact H2].
Defined.

(** C8: with a validation batch but a validation set counted as empty,
    the pass raises [ZeroDivisionError] in its first part, at the main
    accuracy, after the two tallies are printed: the auxiliary accuracy is
    not computed, [evaluate] ends in the state and with the lines of the
    first part.  With no validation batch at all the error comes earlier
    still, at the mean loss, before any tally is printed. *)
Lemma zero_count_raises_before_auxiliary_division :
  n_examples_of false Uncounted.trainer = 0 /\
  valid_iter (data_container Uncounted.trainer) = [1%nat] /\
  outcome (evaluate_to_accuracy Demo.eval_step false Uncounted.trainer) =
    Raise ZeroDivisionError /\
  trace (evaluate_to_accuracy Demo.eval_step false Uncounted.trainer) =
    [Stdout (L_eval_start 0); ModelCall false 0;
     Stdout (L_correct 1); Stdout (L_correct_aux 0)] /\
  outcome (Demo.evaluate false Uncounted.trainer) = Raise ZeroDivisionError /\
  trace (Demo.evaluate false Uncounted.trainer) =
    trace (evaluate_to_accuracy Demo.eval_step false Uncounted.trainer) /\
  final (Demo.evaluate false Uncounted.trainer) =
    final (evaluate_to_accuracy Demo.eval_step false Uncounted.trainer) /\
  n_examples_of false Demo.trainer_empty = 0 /\
  outcome (evaluate_to_accuracy Demo.eval_step false Demo.trainer_empty) =
    Raise ZeroDivisionError /\
  trace (Demo.evaluate false Demo.trainer_empty) = [Stdout (L_eval_start 0)].
Proof. repeat split; vm_compute; reflexivity. Qed.

(** C8 on the multi-task trainer: the first part hands on the auxiliary
    tally 0 and the count 1 of the validation set, and the auxiliary
    accuracy is their quotient; on the trainer whose validation set is
    counted as empty the first part raises. *)
Lemma evaluate_auxiliary_division_witness :
  outcome (evaluate_to_accuracy Demo.eval_step false Demo.trainer_multi) =
    Return (0.5%float, 1%float, 0, 1) /\
  py_truediv 0 1 =
    Return (float_of_int 0 /
            float_of_int (n_examples_of false Demo.trainer_multi))%float /\
  outcome (Demo.evaluate false Demo.trainer_multi) =
    Return (0.5%float, 1%float,
            (float_of_int 0 /
             float_of_int (n_examples_of false Demo.trainer_multi))%float) /\
  (exists e,
      outcome (evaluate_to_accuracy Demo.eval_step false Uncounted.trainer) =
        Raise e /\
      (e = ZeroDivisionError \/ e = IndexError)).
Proof.
  assert (H : outcome (evaluate_to_accuracy Demo.eval_step false
                         Demo.trainer_multi) =
              Return (0.5%float, 1%float, 0, 1)) by (vm_compute; reflexivity).
  split; [exact H |].
  pose proof (evaluate_auxiliary_division Demo.eval_step false Demo.trainer_multi)
    as T.
  cbv zeta in T. destruct T as (_ & T2 & _).
  destruct (T2 _ _ _ _ H) as (_ & _ & D & R & _).
  split; [exact D | split; [exact R |]].
  pose proof (evaluate_auxiliary_division Demo.eval_step false Uncounted.trainer)
    as U.
  cbv zeta in U. destruct U as (_ & _ & _ & U4 & _).
  exact (U4 eq_refl).
Defined.

(** C7: the trainer has five training batches and reports every 2
    batches.  In no pass that starts at a multiple of 5 steps is an
    evaluation due at any batch.  After three passes it has taken fifteen
    steps; its fourth pass takes the step count to 20, a multiple of ten
    reporting intervals of 2, at batch index 4, which closes no reporting
    interval: the pass completes without any evaluation, update or
    scheduler step.  A whole run of four epochs takes twenty steps and
    never steps the scheduler. *)
Lemma step_multiple_without_evaluation :
  TrainMemoryBank.n_steps (train_memory_bank Demo.after_three_epochs) = 15 /\
  TrainMemoryBank.report_interval (train_memory_bank Demo.after_three_epochs) = 2 /\
  outcome (Demo.train Demo.after_three_epochs) = Return 1%float /\
  TrainMemoryBank.n_steps
    (train_memory_bank (final (Demo.train Demo.after_three_epochs))) = 20 /\
  20 mod (10 * 2) = 0 /\
  multiples_reached 2 15 5 = 1%nat /\
  evaluation_due 2 4 20 = false /\
  tally (trace (Demo.train Demo.after_three_epochs)) = (0, 0, 0)%nat /\
  (forall k, evaluations_due 2 0 (5 * k) 5 = 0%nat) /\
  outcome (Demo.run 10 Demo.trainer) = Return tt /\
  TrainMemoryBank.n_steps
    (train_memory_bank (final (Demo.run 10 Demo.trainer))) = 20 /\
  count is_scheduler_step (trace (Demo.run 10 Demo.trainer)) = 0%nat.
Proof.
  repeat split; try (vm_compute; reflexivity).
  intros k. cbn [evaluations_due]. unfold evaluation_due.
  change (0 mod 2 =? 2 - 1) with false.
  change ((0 + 1) mod 2 =? 2 - 1) with true.
  change ((0 + 1 + 1) mod 2 =? 2 - 1) with false.
  change ((0 + 1 + 1 + 1) mod 2 =? 2 - 1) with true.
  change ((0 + 1 + 1 + 1 + 1) mod 2 =? 2 - 1) with false.
  cbn [andb].
  assert (H1 : ((5 * k + 1 + 1) mod (10 * 2) =? 0) = false)
    by (apply Z.eqb_neq; Z.div_mod_to_equations; lia).
  assert (H2 : ((5 * k + 1 + 1 + 1 + 1) mod (10 * 2) =? 0) = false)
    by (apply Z.eqb_neq; Z.div_mod_to_equations; lia).
  rewrite H1, H2. reflexivity.
Qed.

(** C7 on the trainer that reports after every batch: its first pass of
    ten batches evaluates once, at step 10. *)
Lemma train_evaluation_schedule_witness :
  outcome (Demo.train Demo.trainer_fast) = Return 1%float /\
  evaluation_due 1 9 10 = true /\
  count is_eval_start (trace (Demo.train Demo.trainer_fast)) = 2%nat /\
  count is_update_start (trace (Demo.train Demo.trainer_fast)) = 1%nat /\
  count is_scheduler_step (trace (Demo.train Demo.trainer_fast)) = 1%nat.
Proof.
  assert (H : outcome (Demo.train Demo.trainer_fast) = Return 1%float)
    by (vm_compute; reflexivity).
  split; [exact H |]. split; [reflexivity |].
  destruct (train_evaluation_schedule Demo.train_step Demo.eval_step
              Demo.scheduler_step Demo.math_exp_overflows
              Demo.trainer_fast 1%float H) as (_ & (C1 & C2 & C3 & _) & _).
  rewrite C1, C2, C3. repeat split; reflexivity.
Defined.

(** C3 at epochs 0, 19 and 10^12, and on the concrete trainer: epoch 3
    leaves the trainer with the ratio of epoch 3 and makes its five
    training calls with it. *)
Lemma teacher_forcing_schedule_witness :
  decayed_tfr 0 = 0.8%float /\
  float_le 0.2 (decayed_tfr 19) = true /\
  float_le (decayed_tfr 1000000000000) (decayed_tfr 19) = true /\
  decayed_tfr 1000000000000 = 0.2%float /\
  tfr (final (Demo.epoch_body 3 Demo.trainer)) = decayed_tfr 3 /\
  outcome (Demo.epoch_body 3 Demo.trainer) = Return tt /\
  exists j : nat,
    filter is_schedule_event (trace (Demo.epoch_body 3 Demo.trainer)) =
      Stdout (L_train_tfr (decayed_tfr 3)) ::
      repeat (ModelCall true (decayed_tfr 3)) j /\
    j = List.length (train_iter (data_container Demo.trainer)).
Proof.
  pose proof (teacher_forcing_schedule Demo.train_step Demo.eval_step
                Demo.scheduler_step Demo.math_exp_overflows)
    as (T1 & _ & _ & _ & T5).
  destruct (T5 19 ltac:(lia)) as (_ & L & _ & _ & M).
  destruct (T5 1000000000000 ltac:(lia)) as (_ & _ & _ & F & _).
  assert (R : outcome (Demo.epoch_body 3 Demo.trainer) = Return tt)
    by (vm_compute; reflexivity).
  destruct (T1 3 Demo.trainer) as (S1 & _ & _ & j & _ & S4 & S5).
  split; [reflexivity |]. split; [exact L |].
  split; [apply M; lia |]. split; [apply F; lia |].
  split; [exact S1 |]. split; [exact R |].
  exists j. split; [exact S4 | exact (proj1 (S5 _ R))].
Defined.
